(** * botnetworkpolicy-operator: reconciler and CIDR providers

    A shallow embedding of the operator's Go sources
    (api/v1alpha1, pkg/providers, pkg/controllers) together with the
    properties of the design document that they do, or do not, satisfy.

    Conventions.
    - A Go [string] is a [string] of bytes.  The helpers of package
      [strings] are given for ASCII text, which is what CIDR notation,
      provider names and JSON field names consist of.
    - A Go [map[string]T] is a [gmap string T]; a [sets.String] is a
      [gset string]; slices are lists ([nil] and the empty slice coincide,
      the code only ever takes [len] of them and ranges over them).
    - A Go [(T, error)] pair is a [result T]; a bare [error] is an
      [option error].
    - Calls to the logger are not part of the model. *)

From Stdlib Require Import Strings.String Strings.Ascii ZArith List.
From stdpp Require Import base option list gmap strings sorting.

Open Scope string_scope.
Open Scope list_scope.
Set Warnings "-register-all".

(** ** Package [strings] of the Go library, on ASCII text *)

Module GoStrings.

(** The [asciiSpace] table of package [strings]. *)
Definition isSpace (c : ascii) : bool := Ascii.is_space c.

Fixpoint TrimLeftSpace (s : string) : string :=
  match s with
  | EmptyString => EmptyString
  | String c s' => if isSpace c then TrimLeftSpace s' else s
  end.

Fixpoint TrimRightSpace (s : string) : string :=
  match s with
  | EmptyString => EmptyString
  | String c s' =>
      match TrimRightSpace s' with
      | EmptyString => if isSpace c then EmptyString else String c EmptyString
      | r => String c r
      end
  end.

(** [strings.TrimSpace]: the slice between the first and the last
    non-space byte. *)
Definition TrimSpace (s : string) : string :=
  TrimRightSpace (TrimLeftSpace s).

Definition lowerByte (c : ascii) : ascii :=
  let n := nat_of_ascii c in
  if (65 <=? n)%nat && (n <=? 90)%nat then ascii_of_nat (n + 32) else c.

Definition upperByte (c : ascii) : ascii :=
  let n := nat_of_ascii c in
  if (97 <=? n)%nat && (n <=? 122)%nat then ascii_of_nat (n - 32) else c.

Fixpoint mapBytes (f : ascii -> ascii) (s : string) : string :=
  match s with
  | EmptyString => EmptyString
  | String c s' => String (f c) (mapBytes f s')
  end.

Definition ToLower : string -> string := mapBytes lowerByte.
Definition ToUpper : string -> string := mapBytes upperByte.

(** [strings.EqualFold] on ASCII: equality up to letter case. *)
Definition EqualFold (s t : string) : bool :=
  bool_decide (ToLower s = ToLower t).

Fixpoint HasPrefix (s prefix : string) : bool :=
  match prefix, s with
  | EmptyString, _ => true
  | String p prefix', String c s' =>
      bool_decide (p = c) && HasPrefix s' prefix'
  | String _ _, EmptyString => false
  end.

Fixpoint Contains (s substr : string) : bool :=
  HasPrefix s substr ||
  match s with
  | EmptyString => false
  | String _ s' => Contains s' substr
  end.

(** [strings.Split(s, sep)] for a one-byte separator: the pieces
    between the separators, in order; at least one piece. *)
Fixpoint Split (s : string) (sep : ascii) : list string :=
  match s with
  | EmptyString => [EmptyString]
  | String c s' =>
      if bool_decide (c = sep) then EmptyString :: Split s' sep
      else match Split s' sep with
           | [] => [String c EmptyString]
           | piece :: pieces => String c piece :: pieces
           end
  end.

(** [strings.FieldsFunc(s, f)]: the maximal runs of bytes on which [f]
    is false; [cur] is the run being read, if any. *)
Fixpoint fieldsGo (f : ascii -> bool) (cur : option string) (s : string)
  : list string :=
  match s with
  | EmptyString => option_list (String.rev <$> cur)
  | String c s' =>
      if f c then option_list (String.rev <$> cur) ++ fieldsGo f None s'
      else fieldsGo f (Some (String c (default EmptyString cur))) s'
  end.

Definition FieldsFunc (s : string) (f : ascii -> bool) : list string :=
  fieldsGo f None s.

Fixpoint Join (elems : list string) (sep : string) : string :=
  match elems with
  | [] => EmptyString
  | [e] => e
  | e :: rest => e +:+ sep +:+ Join rest sep
  end.

(** [sort.Strings]: ascending byte-wise lexicographic order. *)
Definition SortStrings (l : list string) : list string :=
  merge_sort String.le l.

End GoStrings.

(** ** Decoded JSON values ([any] as produced by [encoding/json]) *)

Inductive json : Type :=
| JNull
| JBool (b : bool)
| JNumber (bits : Z)          (* a float64, by its IEEE-754 bit pattern *)
| JString (s : string)
| JArray (items : list json)
| JObject (fields : gmap string json).

(** Type assertions [v.(string)], [v.([]any)], [v.(map[string]any)]. *)
Definition asString (v : option json) : option string :=
  match v with Some (JString s) => Some s | _ => None end.

Definition asArray (v : option json) : option (list json) :=
  match v with Some (JArray l) => Some l | _ => None end.

Definition asObject (v : option json) : option (gmap string json) :=
  match v with Some (JObject m) => Some m | _ => None end.

(** ** Errors and fallible results *)

(** One constructor per [fmt.Errorf]/[errors.New] site of the sources;
    [ErrExternal] stands for an error handed back by a collaborator
    (HTTP transport, JSON decoder, API server, scheme). *)
Inductive error : Type :=
| ErrUnsupportedProvider (name : string)
| ErrConfigMapRequiresConfiguration
| ErrConfigMapRequiresNameAndKey
| ErrJSONEndpointRequiresConfiguration
| ErrJSONEndpointRequiresURLAndFieldPath
| ErrHeaderSecretRefRequiresName
| ErrHeaderSecretRefRequiresSecret
| ErrUnexpectedStatus (status : string)
| ErrMissingPrefixes
| ErrNoCIDRsForRoles (roles : list string)
| ErrNoCIDRs
| ErrSegmentNotObject (segment : string)
| ErrMissingSegment (segment : string)
| ErrArrayValue (item : json)
| ErrUnsupportedFieldType (value : json)
| ErrKubeClientNotConfigured
| ErrFetchingSecret (key : string) (cause : error)
| ErrSecretMissingKey (key : string) (field : string)
| ErrConfigMapMissingKey (field : string)
| ErrNotControlled (namespace name : string)
| ErrNotFound (what : string)
| ErrExternal (msg : string).

Inductive result (A : Type) : Type :=
| Ok (a : A)
| Err (e : error).
Arguments Ok {A} a.
Arguments Err {A} e.

Definition bind {A B : Type} (r : result A) (k : A -> result B) : result B :=
  match r with
  | Ok a => k a
  | Err e => Err e
  end.

#[export] Instance result_ret : MRet result := @Ok.
#[export] Instance result_bind : MBind result :=
  fun A B k r => bind r k.

Definition isOk {A : Type} (r : result A) : bool :=
  match r with Ok _ => true | Err _ => false end.

(** The text of [err.Error()].  [%q] is rendered for segments made of
    printable ASCII without quotes or backslashes; [%v] and [%T] of a
    JSON value are not rendered. *)
Definition dquote : string := String (ascii_of_nat 34) EmptyString.

Fixpoint errorText (e : error) : string :=
  match e with
  | ErrUnsupportedProvider name => "unsupported provider: " +:+ name
  | ErrConfigMapRequiresConfiguration =>
      "configMap provider requires configMap configuration"
  | ErrConfigMapRequiresNameAndKey => "configMap provider requires name and key"
  | ErrJSONEndpointRequiresConfiguration =>
      "jsonEndpoint provider requires jsonEndpoint configuration"
  | ErrJSONEndpointRequiresURLAndFieldPath =>
      "jsonEndpoint provider requires url and fieldPath"
  | ErrHeaderSecretRefRequiresName => "jsonEndpoint headerSecretRefs requires name"
  | ErrHeaderSecretRefRequiresSecret =>
      "jsonEndpoint headerSecretRefs requires secret name and key"
  | ErrUnexpectedStatus status => "unexpected status: " +:+ status
  | ErrMissingPrefixes => "missing prefixes"
  | ErrNoCIDRsForRoles roles =>
      "no CIDRs found for roles: [" +:+ GoStrings.Join roles " " +:+ "]"
  | ErrNoCIDRs => "provider returned no CIDRs"
  | ErrSegmentNotObject segment =>
      "segment " +:+ dquote +:+ segment +:+ dquote +:+ " not an object"
  | ErrMissingSegment segment =>
      "missing segment " +:+ dquote +:+ segment +:+ dquote
  | ErrArrayValue _ => "array value is neither a string nor an object"
  | ErrUnsupportedFieldType _ => "unsupported JSON field type"
  | ErrKubeClientNotConfigured =>
      "kube client not configured for secret-backed headers"
  | ErrFetchingSecret key cause =>
      "fetching secret " +:+ key +:+ ": " +:+ errorText cause
  | ErrSecretMissingKey key field =>
      "secret " +:+ key +:+ " missing key " +:+ field
  | ErrConfigMapMissingKey field => "configmap missing key: " +:+ field
  | ErrNotControlled namespace name =>
      "networkpolicy " +:+ namespace +:+ "/" +:+ name
      +:+ " exists and is not controlled by BotNetworkPolicy"
  | ErrNotFound what => what +:+ " not found"
  | ErrExternal msg => msg
  end.

(** ** Package [api/v1alpha1] and the Kubernetes types it refers to *)

Module metav1.

Record OwnerReference := {
  ORAPIVersion : string;
  ORKind : string;
  ORName : string;
  ORUID : string;
  ORController : option bool;
  ORBlockOwnerDeletion : option bool;
}.

Record ObjectMeta := {
  Name : string;
  Namespace : string;
  UID : string;
  Labels : gmap string string;
  Annotations : gmap string string;
  OwnerReferences : list OwnerReference;
}.

Record LabelSelectorRequirement := {
  Key : string;
  Operator : string;
  Values : list string;
}.

Record LabelSelector := {
  MatchLabels : gmap string string;
  MatchExpressions : list LabelSelectorRequirement;
}.

Definition emptySelector : LabelSelector :=
  {| MatchLabels := ∅; MatchExpressions := [] |}.

(** [GetControllerOfNoCopy]: the first owner reference whose
    [Controller] pointer is set and true. *)
Fixpoint GetControllerOfNoCopy (refs : list OwnerReference)
  : option OwnerReference :=
  match refs with
  | [] => None
  | ref :: refs' =>
      match ORController ref with
      | Some true => Some ref
      | _ => GetControllerOfNoCopy refs'
      end
  end.

(** [IsControlledBy(obj, owner)]. *)
Definition IsControlledBy (obj owner : ObjectMeta) : bool :=
  match GetControllerOfNoCopy (OwnerReferences obj) with
  | None => false
  | Some ref => bool_decide (ORUID ref = UID owner)
  end.

End metav1.

Module corev1.

Record SecretKeySelector := {
  SKName : string;
  SKKey : string;
}.

Definition EventTypeNormal : string := "Normal".
Definition EventTypeWarning : string := "Warning".

End corev1.

Module networkingv1.

Definition PolicyType := string.
Definition PolicyTypeIngress : PolicyType := "Ingress".
Definition PolicyTypeEgress : PolicyType := "Egress".

Record IPBlock := {
  CIDR : string;
  Except : list string;
}.

Record NetworkPolicyPeer := {
  PeerIPBlock : option IPBlock;
}.

Record NetworkPolicyIngressRule := { From : list NetworkPolicyPeer }.
Record NetworkPolicyEgressRule := { To : list NetworkPolicyPeer }.

Record NetworkPolicySpec := {
  PodSelector : metav1.LabelSelector;
  Ingress : list NetworkPolicyIngressRule;
  Egress : list NetworkPolicyEgressRule;
  PolicyTypes : list PolicyType;
}.

Record NetworkPolicy := {
  ObjectMeta : metav1.ObjectMeta;
  Spec : NetworkPolicySpec;
}.

End networkingv1.

Module v1alpha1.

Record ConfigMapProviderSpec := {
  CMName : string;
  CMNamespace : string;
  CMKey : string;
}.

Record HTTPHeaderSecretRef := {
  HName : string;
  SecretKeyRef : corev1.SecretKeySelector;
}.

(** Modelled from the spec: the field-equality filter block of a
    [jsonEndpoint] declaration ([filter{fieldConditions[]{field,
    values[]}}]); [Factory.FromSpec] reads it, its declaration is not in
    botnetworkpolicy_types.go. *)
Record JSONFieldCondition := {
  Field : string;
  FCValues : list string;
}.

Record JSONFilterSpec := {
  FieldConditions : list JSONFieldCondition;
}.

Record JSONEndpointProviderSpec := {
  JEURL : string;
  FieldPath : string;
  Headers : gmap string string;
  HeaderSecretRefs : list HTTPHeaderSecretRef;
  Filter : option JSONFilterSpec;
}.

(** Modelled from the spec: the optional blocks of the three built-in
    cloud sources (an optional [url] override and the source's filter
    lists: scope list for google, service/region/network-border-group
    lists for aws, role list for github); [Factory.FromSpec] reads them,
    their declarations are not in botnetworkpolicy_types.go. *)
Record GoogleProviderSpec := {
  GoogleURL : string;
  Scope : list string;
}.

Record AWSProviderSpec := {
  AWSURL : string;
  Services : list string;
  Regions : list string;
  NetworkBorderGroups : list string;
}.

Record GitHubProviderSpec := {
  GitHubURL : string;
  Roles : list string;
}.

Record ProviderSpec := {
  Name : string;
  Google : option GoogleProviderSpec;
  AWS : option AWSProviderSpec;
  GitHub : option GitHubProviderSpec;
  ConfigMap : option ConfigMapProviderSpec;
  JSONEndpoint : option JSONEndpointProviderSpec;
}.

Record BotNetworkPolicySpec := {
  PodSelector : option metav1.LabelSelector;
  NamespaceSelector : option metav1.LabelSelector;
  PolicyTypes : list networkingv1.PolicyType;
  Ingress : option bool;
  Egress : option bool;
  Providers : list ProviderSpec;
  CustomCIDRs : list string;
  SyncPeriod : Z;                  (* a [time.Duration], in nanoseconds *)
}.

Record BotNetworkPolicy := {
  ObjectMeta : metav1.ObjectMeta;
  Spec : BotNetworkPolicySpec;
}.

Definition IngressEnabled (s : BotNetworkPolicySpec) : bool :=
  match Ingress s with
  | None => true
  | Some b => b
  end.

Definition EgressEnabled (s : BotNetworkPolicySpec) : bool :=
  match Egress s with
  | None => false
  | Some b => b
  end.

Definition NetworkPolicyName (b : BotNetworkPolicy) : string :=
  let name :=
    GoStrings.TrimSpace
      (default EmptyString
         (metav1.Annotations (ObjectMeta b)
            !! "bot.networking.dev/networkpolicy-name")) in
  if bool_decide (name <> EmptyString) then name
  else metav1.Name (ObjectMeta b) +:+ "-allow-bots".

(** The loop over [HeaderSecretRefs] of [ProviderSpec.Validate]. *)
Fixpoint validateHeaderSecretRefs (refs : list HTTPHeaderSecretRef)
  : option error :=
  match refs with
  | [] => None
  | headerRef :: refs' =>
      if bool_decide (GoStrings.TrimSpace (HName headerRef) = EmptyString)
      then Some ErrHeaderSecretRefRequiresName
      else if bool_decide (corev1.SKName (SecretKeyRef headerRef) = EmptyString)
              || bool_decide (corev1.SKKey (SecretKeyRef headerRef) = EmptyString)
      then Some ErrHeaderSecretRefRequiresSecret
      else validateHeaderSecretRefs refs'
  end.

(** [ProviderSpec.Validate]; [None] is the [nil] error. *)
Definition Validate (p : ProviderSpec) : option error :=
  let name := GoStrings.ToLower (Name p) in
  if bool_decide (name = "google") || bool_decide (name = "aws")
     || bool_decide (name = "github")
  then None
  else if bool_decide (name = "configmap") then
    match ConfigMap p with
    | None => Some ErrConfigMapRequiresConfiguration
    | Some cm =>
        if bool_decide (CMName cm = EmptyString)
           || bool_decide (CMKey cm = EmptyString)
        then Some ErrConfigMapRequiresNameAndKey
        else None
    end
  else if bool_decide (name = "jsonendpoint") then
    match JSONEndpoint p with
    | None => Some ErrJSONEndpointRequiresConfiguration
    | Some je =>
        if bool_decide (JEURL je = EmptyString)
           || bool_decide (FieldPath je = EmptyString)
        then Some ErrJSONEndpointRequiresURLAndFieldPath
        else validateHeaderSecretRefs (HeaderSecretRefs je)
    end
  else Some (ErrUnsupportedProvider (Name p)).

(** [BotNetworkPolicy.Validate]: the first provider error, if any. *)
Fixpoint validateProviders (ps : list ProviderSpec) : option error :=
  match ps with
  | [] => None
  | p :: ps' =>
      match Validate p with
      | Some err => Some err
      | None => validateProviders ps'
      end
  end.

Definition ValidateResource (b : BotNetworkPolicy) : option error :=
  validateProviders (Providers (Spec b)).

(** [ExtractCIDRs]: newline/comma/semicolon separated tokens, trimmed,
    empties dropped. *)
Definition isSeparator (r : ascii) : bool :=
  bool_decide (r = "010"%char) || bool_decide (r = ","%char)
  || bool_decide (r = ";"%char).

Definition ExtractCIDRs (payload : string) : list string :=
  filter (fun trimmed => trimmed <> EmptyString)
         (GoStrings.TrimSpace <$> GoStrings.FieldsFunc payload isSeparator).

End v1alpha1.

(** ** Package [pkg/providers] *)

Module providers.

(** *** Collaborators: the HTTP client and the cluster reader *)

(** The bytes allowed in a header name. *)
Definition isTokenByte (c : ascii) : bool :=
  let n := nat_of_ascii c in
  (48 <=? n)%nat && (n <=? 57)%nat || (65 <=? n)%nat && (n <=? 90)%nat
  || (97 <=? n)%nat && (n <=? 122)%nat
  || bool_decide (c ∈ [ "!"; "#"; "$"; "%"; "&"; "'"; "*"; "+"; "-"; ".";
                        "^"; "_"; "`"; "|"; "~" ]%char).

Fixpoint allBytes (f : ascii -> bool) (s : string) : bool :=
  match s with
  | EmptyString => true
  | String c s' => f c && allBytes f s'
  end.

Fixpoint canonicalGo (upper : bool) (s : string) : string :=
  match s with
  | EmptyString => EmptyString
  | String c s' =>
      String (if upper then GoStrings.upperByte c else GoStrings.lowerByte c)
             (canonicalGo (bool_decide (c = "-"%char)) s')
  end.

(** [textproto.CanonicalMIMEHeaderKey]. *)
Definition CanonicalMIMEHeaderKey (s : string) : string :=
  if allBytes isTokenByte s then canonicalGo true s else s.

(** [http.Header]: canonical header name to values. *)
Definition Header := gmap string (list string).

Definition HeaderSet (h : Header) (key value : string) : Header :=
  <[CanonicalMIMEHeaderKey key := [value]]> h.

Definition HeaderAdd (h : Header) (key value : string) : Header :=
  let k := CanonicalMIMEHeaderKey key in
  <[k := default [] (h !! k) ++ [value]]> h.

Record Request := {
  ReqURL : string;
  ReqHeader : Header;
}.

(** A response as the providers see it: the status and the outcome of
    decoding the body as one JSON value. *)
Record Response := {
  StatusCode : Z;
  Status : string;
  Body : result json;
}.

(** [NewRequest url] is the error of [http.NewRequestWithContext], if
    any; [Do] is the client's [Do] method, which also fails when the context
    is cancelled. *)
Record HTTPClient := {
  NewRequest : string -> option error;
  Do : Request -> result Response;
}.

(** [client.Reader], restricted to the two kinds the providers read;
    both return the object's data map. *)
Record Reader := {
  GetSecret : string -> string -> result (gmap string string);
  GetConfigMap : string -> string -> result (gmap string string);
}.

(** [DefaultSyncPeriod = 1 * time.Hour], in nanoseconds. *)
Definition DefaultSyncPeriod : Z := 3600 * 1000000000.

(** *** sanitize *)

(** The loop of [sanitize]: [results] is the slice built so far. *)
Fixpoint sanitizeLoop (cidrs results : list string) : list string :=
  match cidrs with
  | [] => results
  | cidr :: rest =>
      let trimmed := GoStrings.TrimSpace cidr in
      if bool_decide (trimmed = EmptyString) then sanitizeLoop rest results
      else sanitizeLoop rest (results ++ [trimmed])
  end.

Definition sanitize (cidrs : list string) : result (list string) :=
  let results := sanitizeLoop cidrs [] in
  if bool_decide (length results = 0%nat) then Err ErrNoCIDRs
  else Ok results.

(** *** static.go: selectors *)

Definition defaultGoogleEndpoint : string :=
  "https://www.gstatic.com/ipranges/goog.json".
Definition defaultAWSEndpoint : string :=
  "https://ip-ranges.amazonaws.com/ip-ranges.json".
Definition defaultGitHubEndpoint : string := "https://api.github.com/meta".

(** A [map[string]bool] whose entries are all [true], filled from a
    filter list through a normalising function. *)
Definition filterMap (normalise : string -> string) (values : list string)
  : gset string :=
  foldl (fun m v => {[ normalise (GoStrings.TrimSpace v) ]} ∪ m) ∅ values.

Definition nonEmptyMap (m : gset string) : bool :=
  negb (bool_decide (size m = 0%nat)).

(** [s, _ := item[key].(string)] followed by the map lookup. *)
Definition fieldAllowed (normalise : string -> string) (m : gset string)
    (item : gmap string json) (key : string) : bool :=
  let value := default EmptyString (asString (item !! key)) in
  bool_decide (normalise (GoStrings.TrimSpace value) ∈ m).

(** Appends the trimmed string field [key] of [item] when the field is
    a string and its trimmed value is not empty. *)
Definition appendPrefix (item : gmap string json) (key : string)
    (results : list string) : list string :=
  match asString (item !! key) with
  | Some v =>
      let value := GoStrings.TrimSpace v in
      if bool_decide (value <> EmptyString) then results ++ [value]
      else results
  | None => results
  end.

(** Body of the loop of [googleSelectorWithScope]. *)
Definition googleStep (scopeMap : gset string) (results : list string)
    (prefix : json) : list string :=
  match prefix with
  | JObject item =>
      if nonEmptyMap scopeMap
         && negb (fieldAllowed GoStrings.ToLower scopeMap item "scope")
      then results
      else appendPrefix item "ipv6Prefix" (appendPrefix item "ipv4Prefix" results)
  | _ => results
  end.

Definition googleSelectorWithScope (data : gmap string json)
    (scopes : list string) : result (list string) :=
  match asArray (data !! "prefixes") with
  | None => Err ErrMissingPrefixes
  | Some prefixesRaw =>
      let scopeMap := filterMap GoStrings.ToLower scopes in
      Ok (foldl (googleStep scopeMap) [] prefixesRaw)
  end.

Definition googleSelector (data : gmap string json) : result (list string) :=
  googleSelectorWithScope data [].

(** Body of the loop of [awsSelectorWithFilter]. *)
Definition awsStep (serviceMap regionMap nbgMap : gset string)
    (results : list string) (prefix : json) : list string :=
  match prefix with
  | JObject item =>
      if nonEmptyMap serviceMap
         && negb (fieldAllowed GoStrings.ToUpper serviceMap item "service")
      then results
      else if nonEmptyMap regionMap
              && negb (fieldAllowed GoStrings.ToLower regionMap item "region")
      then results
      else if nonEmptyMap nbgMap
              && negb (fieldAllowed GoStrings.ToLower nbgMap item
                         "network_border_group")
      then results
      else appendPrefix item "ip_prefix" results
  | _ => results
  end.

Definition awsSelectorWithFilter (data : gmap string json)
    (services regions networkBorderGroups : list string)
  : result (list string) :=
  match asArray (data !! "prefixes") with
  | None => Err ErrMissingPrefixes
  | Some prefixesRaw =>
      let serviceMap := filterMap GoStrings.ToUpper services in
      let regionMap := filterMap GoStrings.ToLower regions in
      let nbgMap := filterMap GoStrings.ToLower networkBorderGroups in
      Ok (foldl (awsStep serviceMap regionMap nbgMap) [] prefixesRaw)
  end.

Definition awsSelector (data : gmap string json) : result (list string) :=
  let defaultServices := ["AMAZON"; "AMAZON_CONNECT"] in
  let defaultRegions := ["GLOBAL"; "us-east-1"] in
  awsSelectorWithFilter data defaultServices defaultRegions [].

(** Inner loop of [githubSelectorWithRoles]: the string elements of one
    role array. *)
Definition githubItem (results : list string) (item : json) : list string :=
  match item with
  | JString cidr =>
      let value := GoStrings.TrimSpace cidr in
      if bool_decide (value <> EmptyString) then results ++ [value]
      else results
  | _ => results
  end.

(** Outer loop: a role whose field is missing or not an array is
    skipped. *)
Definition githubRole (data : gmap string json) (results : list string)
    (role : string) : list string :=
  let roleKey := GoStrings.ToLower (GoStrings.TrimSpace role) in
  match asArray (data !! roleKey) with
  | None => results
  | Some roleData => foldl githubItem results roleData
  end.

Definition githubSelectorWithRoles (data : gmap string json)
    (roles : list string) : result (list string) :=
  let roles := if bool_decide (length roles = 0%nat) then ["hooks"] else roles in
  let results := foldl (githubRole data) [] roles in
  if bool_decide (length results = 0%nat) then Err (ErrNoCIDRsForRoles roles)
  else Ok results.

Definition githubSelector (data : gmap string json) : result (list string) :=
  let emptyHooksArray :=
    match data !! "hooks" with
    | Some (JArray arr) => bool_decide (length arr = 0%nat)
    | _ => false
    end in
  match githubSelectorWithRoles data [] with
  | Err err =>
      if emptyHooksArray && GoStrings.Contains (errorText err) "no CIDRs found"
      then Ok []
      else Err err
  | Ok results => Ok results
  end.

(** *** jsonendpoint.go *)

Record fieldCondition := {
  field : string;
  values : list string;
}.

Record jsonFilter := {
  fieldConditions : list fieldCondition;
}.

Record secretHeaderRef := {
  name : string;
  selector : corev1.SecretKeySelector;
}.

(** The loop of [navigateField] over the segments of the path. *)
Fixpoint navigateSegments (current : json) (segments : list string)
  : result json :=
  match segments with
  | [] => Ok current
  | segment :: rest =>
      if bool_decide (segment = EmptyString) then navigateSegments current rest
      else match current with
           | JObject m =>
               match m !! segment with
               | None => Err (ErrMissingSegment segment)
               | Some next => navigateSegments next rest
               end
           | _ => Err (ErrSegmentNotObject segment)
           end
  end.

Definition navigateField (input : json) (path : string) : result json :=
  navigateSegments input (GoStrings.Split path ".").

(** The inner loop of [matchesFilter] over the allowed values. *)
Definition anyValueMatches (fieldStr : string) (allowed : list string) : bool :=
  existsb (fun allowedValue =>
             GoStrings.EqualFold (GoStrings.TrimSpace fieldStr)
                                 (GoStrings.TrimSpace allowedValue))
          allowed.

Fixpoint matchesConditions (obj : gmap string json)
    (conditions : list fieldCondition) : bool :=
  match conditions with
  | [] => true
  | condition :: rest =>
      match obj !! field condition with
      | Some (JString fieldStr) =>
          if bool_decide (length (values condition) = 0%nat)
          then matchesConditions obj rest
          else if anyValueMatches fieldStr (values condition)
          then matchesConditions obj rest
          else false
      | _ => false
      end
  end.

Definition matchesFilter (obj : gmap string json) (filter : jsonFilter) : bool :=
  matchesConditions obj (fieldConditions filter).

Definition commonFields : list string :=
  ["ip_prefix"; "ipv4Prefix"; "ipv6Prefix"; "cidr"; "ipPrefix"; "ip"].

Fixpoint firstCommonField (obj : gmap string json) (fields : list string)
  : string :=
  match fields with
  | [] => EmptyString
  | f :: rest =>
      match asString (obj !! f) with
      | Some value =>
          let trimmed := GoStrings.TrimSpace value in
          if bool_decide (trimmed <> EmptyString) then trimmed
          else firstCommonField obj rest
      | None => firstCommonField obj rest
      end
  end.

Definition extractCIDRFromObject (obj : gmap string json) : string :=
  firstCommonField obj commonFields.

(** The loop of [interpretCIDRs] over an array; [cidrs] is the slice
    built so far. *)
Fixpoint interpretItems (filter : option jsonFilter) (items : list json)
    (cidrs : list string) : result (list string) :=
  match items with
  | [] => Ok cidrs
  | item :: rest =>
      match item with
      | JString str => interpretItems filter rest (cidrs ++ [str])
      | JObject obj =>
          if match filter with
             | Some f => negb (matchesFilter obj f)
             | None => false
             end
          then interpretItems filter rest cidrs
          else
            let cidr := extractCIDRFromObject obj in
            if bool_decide (cidr <> EmptyString)
            then interpretItems filter rest (cidrs ++ [cidr])
            else interpretItems filter rest cidrs
      | _ => Err (ErrArrayValue item)
      end
  end.

Definition interpretCIDRs (value : json) (filter : option jsonFilter)
  : result (list string) :=
  match value with
  | JArray v => interpretItems filter v []
  | JString v => Ok [v]
  | _ => Err (ErrUnsupportedFieldType value)
  end.

(** *** The three providers *)

Record staticHTTPProvider := {
  sclient : HTTPClient;
  surl : string;
  sselector : gmap string json -> result (list string);
}.

Record jsonEndpointProvider := {
  jclient : HTTPClient;
  jkubeClient : option Reader;
  jnamespace : string;
  jurl : string;
  fieldPath : string;
  headers : Header;
  secretHeaders : list secretHeaderRef;
  jfilter : option jsonFilter;
}.

Record configMapProvider := {
  cclient : option Reader;
  cnamespace : string;
  cname : string;
  ckey : string;
}.

Inductive Provider :=
| StaticHTTP (p : staticHTTPProvider)
| ConfigMapData (p : configMapProvider)
| JSONEndpoint (p : jsonEndpointProvider).

Definition statusOK (resp : Response) : bool :=
  negb ((StatusCode resp <? 200)%Z || (300 <=? StatusCode resp)%Z).

(** Decoding into [map[string]any]: an object, or [null] (which leaves
    the nil map); any other JSON value is a decode error. *)
Definition decodeObject (body : result json) : result (gmap string json) :=
  v ← body;
  match v with
  | JObject m => Ok m
  | JNull => Ok ∅
  | _ => Err (ErrExternal "json: cannot unmarshal into Go value of type map[string]interface {}")
  end.

(** [staticHTTPProvider.Fetch]. *)
Definition staticFetch (p : staticHTTPProvider) : result (list string) :=
  match NewRequest (sclient p) (surl p) with
  | Some err => Err err
  | None =>
      resp ← Do (sclient p) {| ReqURL := surl p; ReqHeader := ∅ |};
      if negb (statusOK resp) then Err (ErrUnexpectedStatus (Status resp))
      else
        payload ← decodeObject (Body resp);
        cidrs ← sselector p payload;
        sanitize cidrs
  end.

Definition namespacedName (namespace name : string) : string :=
  namespace +:+ "/" +:+ name.

(** [jsonEndpointProvider.resolveSecretHeader]. *)
Definition resolveSecretHeader (p : jsonEndpointProvider)
    (ref : secretHeaderRef) : result string :=
  match jkubeClient p with
  | None => Err ErrKubeClientNotConfigured
  | Some kube =>
      let key := namespacedName (jnamespace p) (corev1.SKName (selector ref)) in
      match GetSecret kube (jnamespace p) (corev1.SKName (selector ref)) with
      | Err err => Err (ErrFetchingSecret key err)
      | Ok data =>
          match data !! corev1.SKKey (selector ref) with
          | None => Err (ErrSecretMissingKey key (corev1.SKKey (selector ref)))
          | Some value => Ok value
          end
      end
  end.

(** Copying a header set value by value with [Add]. *)
Definition addAll (src dst : Header) : Header :=
  map_fold (fun k vs h => foldl (fun h v => HeaderAdd h k v) h vs) dst src.

Fixpoint resolveSecretHeaders (p : jsonEndpointProvider)
    (refs : list secretHeaderRef) (headers : Header) : result Header :=
  match refs with
  | [] => Ok headers
  | secretHeader :: rest =>
      value ← resolveSecretHeader p secretHeader;
      resolveSecretHeaders p rest (HeaderAdd headers (name secretHeader) value)
  end.

(** [jsonEndpointProvider.resolveHeaders]. *)
Definition resolveHeaders (p : jsonEndpointProvider) : result Header :=
  resolveSecretHeaders p (secretHeaders p) (addAll (headers p) ∅).

(** [jsonEndpointProvider.Fetch]. *)
Definition jsonEndpointFetch (p : jsonEndpointProvider) : result (list string) :=
  headers ← resolveHeaders p;
  match NewRequest (jclient p) (jurl p) with
  | Some err => Err err
  | None =>
      resp ← Do (jclient p) {| ReqURL := jurl p; ReqHeader := addAll headers ∅ |};
      if negb (statusOK resp) then Err (ErrUnexpectedStatus (Status resp))
      else
        payload ← Body resp;
        value ← navigateField payload (fieldPath p);
        cidrs ← interpretCIDRs value (jfilter p);
        sanitize cidrs
  end.

(** Modelled from the spec: [configMapProvider.Fetch] (configmap.go), of
    which the repository files at hand hold only the construction in
    [Factory.FromSpec] and the tests.  It looks up the named key-value
    object, reads one key's string value, splits it on newline, comma or
    semicolon, trims each token and drops empties; it fails if the object
    does not exist, the key is absent, or sanitization yields nothing.  A
    provider built without a reader fails as well. *)
Definition configMapFetch (p : configMapProvider) : result (list string) :=
  match cclient p with
  | None => Err ErrKubeClientNotConfigured
  | Some kube =>
      data ← GetConfigMap kube (cnamespace p) (cname p);
      match data !! ckey p with
      | None => Err (ErrConfigMapMissingKey (ckey p))
      | Some payload => sanitize (v1alpha1.ExtractCIDRs payload)
      end
  end.

(** The [Provider] interface: dynamic dispatch of [Fetch]. *)
Definition Fetch (p : Provider) : result (list string) :=
  match p with
  | StaticHTTP p => staticFetch p
  | ConfigMapData p => configMapFetch p
  | JSONEndpoint p => jsonEndpointFetch p
  end.

(** *** The factory *)

Record Factory := {
  kubeClient : option Reader;
  httpClient : HTTPClient;
  googleEndpoint : string;
  awsEndpoint : string;
  githubEndpoint : string;
}.

Definition FactoryOption := Factory -> Factory.

Definition NewFactory (kubeClient : option Reader) (httpClient : HTTPClient)
    (opts : list FactoryOption) : Factory :=
  foldl (fun factory opt => opt factory)
        {| kubeClient := kubeClient;
           httpClient := httpClient;
           googleEndpoint := defaultGoogleEndpoint;
           awsEndpoint := defaultAWSEndpoint;
           githubEndpoint := defaultGitHubEndpoint |}
        opts.

Definition WithGoogleEndpoint (endpoint : string) : FactoryOption :=
  fun f =>
    if bool_decide (GoStrings.TrimSpace endpoint <> EmptyString)
    then {| kubeClient := kubeClient f; httpClient := httpClient f;
            googleEndpoint := endpoint;
            awsEndpoint := awsEndpoint f;
            githubEndpoint := githubEndpoint f |}
    else f.

Definition WithAWSEndpoint (endpoint : string) : FactoryOption :=
  fun f =>
    if bool_decide (GoStrings.TrimSpace endpoint <> EmptyString)
    then {| kubeClient := kubeClient f; httpClient := httpClient f;
            googleEndpoint := googleEndpoint f;
            awsEndpoint := endpoint;
            githubEndpoint := githubEndpoint f |}
    else f.

Definition WithGitHubEndpoint (endpoint : string) : FactoryOption :=
  fun f =>
    if bool_decide (GoStrings.TrimSpace endpoint <> EmptyString)
    then {| kubeClient := kubeClient f; httpClient := httpClient f;
            googleEndpoint := googleEndpoint f;
            awsEndpoint := awsEndpoint f;
            githubEndpoint := endpoint |}
    else f.

Definition orDefault (override fallback : string) : string :=
  if bool_decide (override <> EmptyString) then override else fallback.

(** [Factory.FromSpec].  The two [None] branches after a successful
    [Validate] cannot be taken ([Validate] has checked the block).  The
    static headers are entered with [Set] in the order of [map_fold]; Go
    ranges over the map in no fixed order, which matters only when two
    configured names share their canonical form. *)
Definition FromSpec (f : Factory) (namespace : string)
    (spec : v1alpha1.ProviderSpec) : result Provider :=
  match v1alpha1.Validate spec with
  | Some err => Err err
  | None =>
      let kind := GoStrings.ToLower (v1alpha1.Name spec) in
      if bool_decide (kind = "google") then
        let url := match v1alpha1.Google spec with
                   | Some g => orDefault (v1alpha1.GoogleURL g) (googleEndpoint f)
                   | None => googleEndpoint f
                   end in
        let scopes := match v1alpha1.Google spec with
                      | Some g => v1alpha1.Scope g
                      | None => []
                      end in
        Ok (StaticHTTP
              {| sclient := httpClient f; surl := url;
                 sselector := fun data => googleSelectorWithScope data scopes |})
      else if bool_decide (kind = "aws") then
        let url := match v1alpha1.AWS spec with
                   | Some a => orDefault (v1alpha1.AWSURL a) (awsEndpoint f)
                   | None => awsEndpoint f
                   end in
        let services := match v1alpha1.AWS spec with
                        | Some a => v1alpha1.Services a | None => [] end in
        let regions := match v1alpha1.AWS spec with
                       | Some a => v1alpha1.Regions a | None => [] end in
        let nbgs := match v1alpha1.AWS spec with
                    | Some a => v1alpha1.NetworkBorderGroups a | None => [] end in
        Ok (StaticHTTP
              {| sclient := httpClient f; surl := url;
                 sselector := fun data =>
                   awsSelectorWithFilter data services regions nbgs |})
      else if bool_decide (kind = "github") then
        let url := match v1alpha1.GitHub spec with
                   | Some g => orDefault (v1alpha1.GitHubURL g) (githubEndpoint f)
                   | None => githubEndpoint f
                   end in
        let roles := match v1alpha1.GitHub spec with
                     | Some g => v1alpha1.Roles g
                     | None => []
                     end in
        Ok (StaticHTTP
              {| sclient := httpClient f; surl := url;
                 sselector := fun data => githubSelectorWithRoles data roles |})
      else if bool_decide (kind = "configmap") then
        match v1alpha1.ConfigMap spec with
        | None => Err ErrConfigMapRequiresConfiguration
        | Some cfg =>
            let ns := orDefault (v1alpha1.CMNamespace cfg) namespace in
            Ok (ConfigMapData
                  {| cclient := kubeClient f; cnamespace := ns;
                     cname := v1alpha1.CMName cfg; ckey := v1alpha1.CMKey cfg |})
        end
      else if bool_decide (kind = "jsonendpoint") then
        match v1alpha1.JSONEndpoint spec with
        | None => Err ErrJSONEndpointRequiresConfiguration
        | Some cfg =>
            let headers :=
              map_fold (fun k v h => HeaderSet h k v) (∅ : Header)
                       (v1alpha1.Headers cfg) in
            let secretHeaders :=
              (fun ref => {| name := v1alpha1.HName ref;
                             selector := v1alpha1.SecretKeyRef ref |})
                <$> v1alpha1.HeaderSecretRefs cfg in
            let filter :=
              match v1alpha1.Filter cfg with
              | Some flt =>
                  if bool_decide (length (v1alpha1.FieldConditions flt) = 0%nat)
                  then None
                  else Some {| fieldConditions :=
                                 (fun fc => {| field := v1alpha1.Field fc;
                                               values := v1alpha1.FCValues fc |})
                                   <$> v1alpha1.FieldConditions flt |}
              | None => None
              end in
            Ok (JSONEndpoint
                  {| jclient := httpClient f; jkubeClient := kubeClient f;
                     jnamespace := namespace; jurl := v1alpha1.JEURL cfg;
                     fieldPath := v1alpha1.FieldPath cfg;
                     headers := headers; secretHeaders := secretHeaders;
                     jfilter := filter |})
        end
      else Err (ErrUnsupportedProvider (v1alpha1.Name spec))
  end.

End providers.

(** ** Package [pkg/controllers] *)

Module controllers.

(** *** Collaborators: API client, scheme, event recorder *)

Definition IsNotFound (err : error) : bool :=
  match err with ErrNotFound _ => true | _ => false end.

(** [client.IgnoreNotFound]. *)
Definition IgnoreNotFound (err : error) : option error :=
  if IsNotFound err then None else Some err.

(** [client.Client]: the answers of the API server to the calls one
    invocation can make. *)
Record Client := {
  Reader : providers.Reader;
  GetBotNetworkPolicy : string -> string -> result v1alpha1.BotNetworkPolicy;
  GetNetworkPolicy : string -> string -> result networkingv1.NetworkPolicy;
  Create : networkingv1.NetworkPolicy -> option error;
  Update : networkingv1.NetworkPolicy -> option error;
}.

(** [runtime.Scheme], as far as [SetControllerReference] consults it:
    the group/version and kind registered for [BotNetworkPolicy]. *)
Record Scheme := {
  GVKForObject : result (string * string);
}.

Record BotNetworkPolicyReconciler := {
  client : Client;
  scheme : Scheme;
  HTTPClient : providers.HTTPClient;
}.

(** [ctrl.Request] and [ctrl.Result]. *)
Record Request := {
  ReqNamespace : string;
  ReqName : string;
}.

Record Result := {
  Requeue : bool;
  RequeueAfter : Z;
}.

Definition noRequeue : Result := {| Requeue := false; RequeueAfter := 0 |}.

(** The outward calls of an invocation, in the order they are issued:
    events handed to the recorder and writes sent to the API server. *)
Inductive Call :=
| RecordEvent (object : v1alpha1.BotNetworkPolicy)
              (eventtype reason message : string)
| CreateCall (obj : networkingv1.NetworkPolicy)
| UpdateCall (obj : networkingv1.NetworkPolicy).

Definition isWrite (c : Call) : bool :=
  match c with
  | RecordEvent _ _ _ _ => false
  | CreateCall _ | UpdateCall _ => true
  end.

(** A computation that appends to the log of calls issued so far. *)
Definition Op (A : Type) : Type := list Call -> A * list Call.

#[export] Instance Op_ret : MRet Op := fun A a log => (a, log).
#[export] Instance Op_bind : MBind Op :=
  fun A B k m log => let '(a, log') := m log in k a log'.

Definition Event (object : v1alpha1.BotNetworkPolicy)
    (eventtype reason message : string) : Op unit :=
  fun log => (tt, log ++ [RecordEvent object eventtype reason message]).

Definition create (c : Client) (obj : networkingv1.NetworkPolicy)
  : Op (option error) :=
  fun log => (Create c obj, log ++ [CreateCall obj]).

Definition update (c : Client) (obj : networkingv1.NetworkPolicy)
  : Op (option error) :=
  fun log => (Update c obj, log ++ [UpdateCall obj]).

Fixpoint forEach {A : Type} (f : A -> Op unit) (l : list A) : Op unit :=
  match l with
  | [] => mret tt
  | a :: l' => f a ≫= fun _ => forEach f l'
  end.

(** [controllerutil.SetControllerReference(owner, controlled, scheme)]. *)
Definition SetControllerReference (owner : v1alpha1.BotNetworkPolicy)
    (controlled : networkingv1.NetworkPolicy) (s : Scheme)
  : result networkingv1.NetworkPolicy :=
  let ometa := v1alpha1.ObjectMeta owner in
  let cmeta := networkingv1.ObjectMeta controlled in
  if bool_decide (metav1.Namespace ometa <> EmptyString)
     && bool_decide (metav1.Namespace cmeta <> metav1.Namespace ometa)
  then Err (ErrExternal "cross-namespace owner references are disallowed")
  else
    gvk ← GVKForObject s;
    let ref := {| metav1.ORAPIVersion := gvk.1;
                  metav1.ORKind := gvk.2;
                  metav1.ORName := metav1.Name ometa;
                  metav1.ORUID := metav1.UID ometa;
                  metav1.ORController := Some true;
                  metav1.ORBlockOwnerDeletion := Some true |} in
    match metav1.GetControllerOfNoCopy (metav1.OwnerReferences cmeta) with
    | Some _ => Err (ErrExternal "object is already owned by another controller")
    | None =>
        Ok {| networkingv1.ObjectMeta :=
                {| metav1.Name := metav1.Name cmeta;
                   metav1.Namespace := metav1.Namespace cmeta;
                   metav1.UID := metav1.UID cmeta;
                   metav1.Labels := metav1.Labels cmeta;
                   metav1.Annotations := metav1.Annotations cmeta;
                   metav1.OwnerReferences :=
                     metav1.OwnerReferences cmeta ++ [ref] |};
              networkingv1.Spec := networkingv1.Spec controlled |}
    end.

(** *** Policy builder *)

(** [sets.List]: the elements of a set in ascending order. *)
Definition setList (s : gset string) : list string :=
  GoStrings.SortStrings (elements s).

Definition determinePolicyTypes (requested : list networkingv1.PolicyType)
    (ingress egress : option bool) : list networkingv1.PolicyType :=
  if bool_decide (0 < length requested)%nat then requested
  else
    let enabled : gset string := ∅ in
    let enabled :=
      match ingress with
      | None | Some true => {[ networkingv1.PolicyTypeIngress ]} ∪ enabled
      | Some false => enabled
      end in
    let enabled :=
      match egress with
      | Some true => {[ networkingv1.PolicyTypeEgress ]} ∪ enabled
      | _ => enabled
      end in
    let enabled :=
      if bool_decide (size enabled = 0%nat)
      then {[ networkingv1.PolicyTypeIngress ]} ∪ enabled
      else enabled in
    setList enabled.

Definition ownerLabel : string := "botnetworkpolicy.bot.networking.dev/owner".

Definition buildNetworkPolicy (resource : v1alpha1.BotNetworkPolicy)
    (cidrs : list string) : networkingv1.NetworkPolicy :=
  let spec := v1alpha1.Spec resource in
  let rmeta := v1alpha1.ObjectMeta resource in
  let labels : gmap string string := {[ ownerLabel := metav1.Name rmeta ]} in
  let podSelector := default metav1.emptySelector (v1alpha1.PodSelector spec) in
  let policyTypes :=
    determinePolicyTypes (v1alpha1.PolicyTypes spec) (v1alpha1.Ingress spec)
                         (v1alpha1.Egress spec) in
  let peers :=
    (fun cidr =>
       {| networkingv1.PeerIPBlock :=
            Some {| networkingv1.CIDR := cidr; networkingv1.Except := [] |} |})
      <$> cidrs in
  let ingressRules :=
    if bool_decide (0 < length cidrs)%nat && v1alpha1.IngressEnabled spec
    then [ {| networkingv1.From := peers |} ] else [] in
  let egressRules :=
    if bool_decide (0 < length cidrs)%nat && v1alpha1.EgressEnabled spec
    then [ {| networkingv1.To := peers |} ] else [] in
  {| networkingv1.ObjectMeta :=
       {| metav1.Name := v1alpha1.NetworkPolicyName resource;
          metav1.Namespace := metav1.Namespace rmeta;
          metav1.UID := EmptyString;
          metav1.Labels := labels;
          metav1.Annotations := ∅;
          metav1.OwnerReferences := [] |};
     networkingv1.Spec :=
       {| networkingv1.PodSelector := podSelector;
          networkingv1.Ingress := ingressRules;
          networkingv1.Egress := egressRules;
          networkingv1.PolicyTypes := policyTypes |} |}.

(** *** Policy comparator *)

(** [for i := range a { if !eq(a[i], b[i]) { return false } }] after the
    lengths were found equal. *)
Fixpoint pairwise {A : Type} (eq : A -> A -> bool) (a b : list A) : bool :=
  match a, b with
  | [], _ => true
  | x :: a', y :: b' => eq x y && pairwise eq a' b'
  | _ :: _, [] => false
  end.

Definition sameLength {A B : Type} (a : list A) (b : list B) : bool :=
  bool_decide (length a = length b).

Definition equalStringSlices (a b : list string) : bool :=
  sameLength a b && pairwise (fun x y => bool_decide (x = y)) a b.

Definition peerEqual (a b : networkingv1.NetworkPolicyPeer) : bool :=
  match networkingv1.PeerIPBlock a, networkingv1.PeerIPBlock b with
  | None, None => true
  | Some x, Some y =>
      bool_decide (networkingv1.CIDR x = networkingv1.CIDR y)
      && equalStringSlices (networkingv1.Except x) (networkingv1.Except y)
  | _, _ => false
  end.

Definition networkPolicyPeersEqual (a b : list networkingv1.NetworkPolicyPeer)
  : bool :=
  sameLength a b && pairwise peerEqual a b.

Definition networkPolicyIngressEqual
    (a b : list networkingv1.NetworkPolicyIngressRule) : bool :=
  sameLength a b
  && pairwise (fun x y => networkPolicyPeersEqual (networkingv1.From x)
                                                 (networkingv1.From y)) a b.

Definition networkPolicyEgressEqual
    (a b : list networkingv1.NetworkPolicyEgressRule) : bool :=
  sameLength a b
  && pairwise (fun x y => networkPolicyPeersEqual (networkingv1.To x)
                                                 (networkingv1.To y)) a b.

Definition requirementEqual (ae be : metav1.LabelSelectorRequirement) : bool :=
  bool_decide (metav1.Key ae = metav1.Key be)
  && bool_decide (metav1.Operator ae = metav1.Operator be)
  && equalStringSlices (metav1.Values ae) (metav1.Values be).

Definition selectorsEqual (a b : metav1.LabelSelector) : bool :=
  bool_decide (size (metav1.MatchLabels a) = size (metav1.MatchLabels b))
  && bool_decide (map_Forall
                    (fun k v => default EmptyString (metav1.MatchLabels b !! k) = v)
                    (metav1.MatchLabels a))
  && sameLength (metav1.MatchExpressions a) (metav1.MatchExpressions b)
  && pairwise requirementEqual (metav1.MatchExpressions a)
                               (metav1.MatchExpressions b).

Definition networkPoliciesEqual (existing desired : networkingv1.NetworkPolicy)
  : bool :=
  let es := networkingv1.Spec existing in
  let ds := networkingv1.Spec desired in
  if negb (sameLength (networkingv1.PolicyTypes es) (networkingv1.PolicyTypes ds))
  then false
  else
    let existingTypes := GoStrings.SortStrings (networkingv1.PolicyTypes es) in
    let desiredTypes := GoStrings.SortStrings (networkingv1.PolicyTypes ds) in
    if negb (pairwise (fun x y => bool_decide (x = y)) existingTypes desiredTypes)
    then false
    else if negb (networkPolicyIngressEqual (networkingv1.Ingress es)
                                            (networkingv1.Ingress ds))
    then false
    else if negb (networkPolicyEgressEqual (networkingv1.Egress es)
                                           (networkingv1.Egress ds))
    then false
    else if negb (selectorsEqual (networkingv1.PodSelector es)
                                 (networkingv1.PodSelector ds))
    then false
    else true.

(** *** Reconciler *)

Definition ensureNetworkPolicy (r : BotNetworkPolicyReconciler)
    (resource : v1alpha1.BotNetworkPolicy) (cidrs : list string)
  : Op (option error) :=
  let desired := buildNetworkPolicy resource cidrs in
  let dmeta := networkingv1.ObjectMeta desired in
  match GetNetworkPolicy (client r) (metav1.Namespace dmeta) (metav1.Name dmeta) with
  | Err err =>
      match IgnoreNotFound err with
      | Some err => mret (Some err)
      | None =>
          match SetControllerReference resource desired (scheme r) with
          | Err err => mret (Some err)
          | Ok desired => create (client r) desired
          end
      end
  | Ok existing =>
      let emeta := networkingv1.ObjectMeta existing in
      if metav1.IsControlledBy emeta (v1alpha1.ObjectMeta resource) then
        if networkPoliciesEqual existing desired then mret None
        else
          update (client r)
            {| networkingv1.ObjectMeta :=
                 {| metav1.Name := metav1.Name emeta;
                    metav1.Namespace := metav1.Namespace emeta;
                    metav1.UID := metav1.UID emeta;
                    metav1.Labels := metav1.Labels dmeta;
                    metav1.Annotations := metav1.Annotations dmeta;
                    metav1.OwnerReferences := metav1.OwnerReferences emeta |};
               networkingv1.Spec := networkingv1.Spec desired |}
      else
        mret (Some (ErrNotControlled (metav1.Namespace dmeta) (metav1.Name dmeta)))
  end.

(** The loop of [collectCIDRs] over the CIDRs of one provider. *)
Definition insertFetched (providerCIDRs : gset string) (cidr : string)
  : gset string :=
  let normalized := GoStrings.TrimSpace cidr in
  if bool_decide (normalized = EmptyString) then providerCIDRs
  else {[ normalized ]} ∪ providerCIDRs.

(** The loop of [collectCIDRs] over the provider declarations. *)
Definition collectProvider (factory : providers.Factory) (namespace : string)
    (acc : gset string * list string) (providerSpec : v1alpha1.ProviderSpec)
  : gset string * list string :=
  let '(providerCIDRs, warnings) := acc in
  match providers.FromSpec factory namespace providerSpec with
  | Err err =>
      (providerCIDRs,
       warnings ++ ["provider " +:+ v1alpha1.Name providerSpec
                    +:+ " skipped: " +:+ errorText err])
  | Ok provider =>
      match providers.Fetch provider with
      | Err err =>
          (providerCIDRs,
           warnings ++ ["provider " +:+ v1alpha1.Name providerSpec
                        +:+ " fetch error: " +:+ errorText err])
      | Ok cidrs => (foldl insertFetched providerCIDRs cidrs, warnings)
      end
  end.

(** The loop of [collectCIDRs] over [Spec.CustomCIDRs]. *)
Definition insertCustom (providerCIDRs : gset string) (cidr : string)
  : gset string :=
  {[ GoStrings.TrimSpace cidr ]} ∪ providerCIDRs.

Definition collectCIDRs (r : BotNetworkPolicyReconciler)
    (resource : v1alpha1.BotNetworkPolicy)
  : list string * list string * option error :=
  let factory :=
    providers.NewFactory (Some (Reader (client r))) (HTTPClient r) [] in
  let namespace := metav1.Namespace (v1alpha1.ObjectMeta resource) in
  let '(providerCIDRs, warnings) :=
    foldl (collectProvider factory namespace) (∅, [])
          (v1alpha1.Providers (v1alpha1.Spec resource)) in
  let providerCIDRs :=
    foldl insertCustom providerCIDRs
          (v1alpha1.CustomCIDRs (v1alpha1.Spec resource)) in
  let result := setList providerCIDRs in
  let result := GoStrings.SortStrings result in
  (result, warnings, None).

Definition Reconcile (r : BotNetworkPolicyReconciler) (req : Request)
  : Op (Result * option error) :=
  match GetBotNetworkPolicy (client r) (ReqNamespace req) (ReqName req) with
  | Err err => mret (noRequeue, IgnoreNotFound err)
  | Ok resource =>
      match v1alpha1.ValidateResource resource with
      | Some err =>
          _ ← Event resource corev1.EventTypeWarning "InvalidSpec" (errorText err);
          mret (noRequeue, None)
      | None =>
          let '(cidrs, warnings, err) := collectCIDRs r resource in
          match err with
          | Some err => mret (noRequeue, Some err)
          | None =>
              _ ← forEach (fun warning =>
                             Event resource corev1.EventTypeWarning
                                   "ProviderWarning" warning) warnings;
              err ← ensureNetworkPolicy r resource cidrs;
              match err with
              | Some err => mret (noRequeue, Some err)
              | None =>
                  let syncAfter := v1alpha1.SyncPeriod (v1alpha1.Spec resource) in
                  let syncAfter :=
                    if bool_decide (syncAfter = 0%Z)
                    then providers.DefaultSyncPeriod else syncAfter in
                  mret ({| Requeue := false; RequeueAfter := syncAfter |}, None)
              end
          end
      end
  end.

End controllers.

(** ** Vocabulary of the design document *)

Section vocabulary.
Import GoStrings.

(** [s] does not contain the byte [sep]. *)
Fixpoint noByte (sep : ascii) (s : string) : bool :=
  match s with
  | EmptyString => true
  | String c s' => negb (bool_decide (c = sep)) && noByte sep s'
  end.

(** A list is sanitized when every element is non-empty and carries no
    surrounding white space. *)
Definition sanitized (l : list string) : Prop :=
  Forall (fun s => s ≠ EmptyString ∧ TrimSpace s = s) l.

(** The trimmed, non-blank tokens of a raw list, in order. *)
Definition tokens (cidrs : list string) : list string :=
  filter (fun t => t ≠ EmptyString) (TrimSpace <$> cidrs).

(** The value of a string field of a record; empty when the field is
    absent or not a string. *)
Definition textField (item : gmap string json) (key : string) : string :=
  match item !! key with
  | Some (JString s) => s
  | _ => EmptyString
  end.

(** An allow-list admits a value when the list is empty (no filtering)
    or holds the value up to surrounding space and letter case
    ([fold] is the case normalisation). *)
Definition admits (fold : string -> string) (allow : list string)
    (value : string) : bool :=
  bool_decide (allow = [])
  || bool_decide (fold (TrimSpace value)
                    ∈ (fun v => fold (TrimSpace v)) <$> allow).

(** The three aws allow-lists, AND-combined. *)
Definition passesAWS (services regions nbgs : list string)
    (item : gmap string json) : bool :=
  admits ToUpper services (textField item "service")
  && admits ToLower regions (textField item "region")
  && admits ToLower nbgs (textField item "network_border_group").

(** The trimmed [ip_prefix] of a record, when it is a non-blank string. *)
Definition ipPrefix (item : gmap string json) : list string :=
  match item !! "ip_prefix" with
  | Some (JString raw) =>
      if decide (TrimSpace raw = EmptyString) then [] else [TrimSpace raw]
  | _ => []
  end.

(** The prefixes of the records that pass [keep], in document order;
    elements that are not objects are skipped. *)
Definition awsRecords (keep : gmap string json -> bool) (items : list json)
  : list string :=
  items ≫= fun prefix =>
    match prefix with
    | JObject item => if keep item then ipPrefix item else []
    | _ => []
    end.

Definition awsDefaultServices : list string := ["AMAZON"; "AMAZON_CONNECT"].
Definition awsDefaultRegions : list string := ["GLOBAL"; "us-east-1"].

(** The condition under which [ProviderSpec.Validate] accepts a header
    secret reference. *)
Definition headerRefComplete (ref : v1alpha1.HTTPHeaderSecretRef) : Prop :=
  TrimSpace (v1alpha1.HName ref) ≠ EmptyString
  ∧ corev1.SKName (v1alpha1.SecretKeyRef ref) ≠ EmptyString
  ∧ corev1.SKKey (v1alpha1.SecretKeyRef ref) ≠ EmptyString.

(** No create and no update among the calls. *)
Definition noWrites (calls : list controllers.Call) : Prop :=
  Forall (fun c => controllers.isWrite c = false) calls.

(** The same object with other labels and annotations. *)
Definition withMetadata (np : networkingv1.NetworkPolicy)
    (labels annotations : gmap string string) : networkingv1.NetworkPolicy :=
  let m := networkingv1.ObjectMeta np in
  {| networkingv1.ObjectMeta :=
       {| metav1.Name := metav1.Name m;
          metav1.Namespace := metav1.Namespace m;
          metav1.UID := metav1.UID m;
          metav1.Labels := labels;
          metav1.Annotations := annotations;
          metav1.OwnerReferences := metav1.OwnerReferences m |};
     networkingv1.Spec := networkingv1.Spec np |}.

End vocabulary.

(** ** Sample inputs *)

Module samples.
Import providers.

Definition meta (namespace name uid : string) : metav1.ObjectMeta :=
  {| metav1.Name := name; metav1.Namespace := namespace; metav1.UID := uid;
     metav1.Labels := ∅; metav1.Annotations := ∅;
     metav1.OwnerReferences := [] |}.

Definition named (name : string) : v1alpha1.ProviderSpec :=
  {| v1alpha1.Name := name; v1alpha1.Google := None; v1alpha1.AWS := None;
     v1alpha1.GitHub := None; v1alpha1.ConfigMap := None;
     v1alpha1.JSONEndpoint := None |}.

(** [name: google] together with a populated [configMap] block. *)
Definition googleWithConfigMap : v1alpha1.ProviderSpec :=
  {| v1alpha1.Name := "google"; v1alpha1.Google := None; v1alpha1.AWS := None;
     v1alpha1.GitHub := None;
     v1alpha1.ConfigMap :=
       Some {| v1alpha1.CMName := "extra-bot-ips"; v1alpha1.CMNamespace := "";
               v1alpha1.CMKey := "cidrs" |};
     v1alpha1.JSONEndpoint := None |}.

Definition configMapDecl : v1alpha1.ProviderSpec :=
  {| v1alpha1.Name := "configMap"; v1alpha1.Google := None; v1alpha1.AWS := None;
     v1alpha1.GitHub := None;
     v1alpha1.ConfigMap :=
       Some {| v1alpha1.CMName := "extra-bot-ips"; v1alpha1.CMNamespace := "";
               v1alpha1.CMKey := "cidrs" |};
     v1alpha1.JSONEndpoint := None |}.

Definition resource (providers : list v1alpha1.ProviderSpec)
    (custom : list string) : v1alpha1.BotNetworkPolicy :=
  {| v1alpha1.ObjectMeta := meta "default" "sample" "uid-1";
     v1alpha1.Spec :=
       {| v1alpha1.PodSelector := None; v1alpha1.NamespaceSelector := None;
          v1alpha1.PolicyTypes := []; v1alpha1.Ingress := None;
          v1alpha1.Egress := None; v1alpha1.Providers := providers;
          v1alpha1.CustomCIDRs := custom; v1alpha1.SyncPeriod := 0 |} |}.

(** An HTTP client that answers every request with [200 OK] and the
    given document. *)
Definition serving (body : json) : HTTPClient :=
  {| NewRequest := fun _ => None;
     Do := fun _ => Ok {| StatusCode := 200; Status := "200 OK";
                          Body := Ok body |} |}.

Definition emptyReader : Reader :=
  {| GetSecret := fun _ name => Err (ErrNotFound name);
     GetConfigMap := fun _ name => Err (ErrNotFound name) |}.

Definition factory (body : json) : Factory :=
  NewFactory (Some emptyReader) (serving body) [].

(** A cluster that holds [bnp] and answers the look-up of the network
    policy with [np]; writes succeed. *)
Definition reconciler (bnp : v1alpha1.BotNetworkPolicy)
    (np : result networkingv1.NetworkPolicy)
  : controllers.BotNetworkPolicyReconciler :=
  {| controllers.client :=
       {| controllers.Reader := emptyReader;
          controllers.GetBotNetworkPolicy := fun _ _ => Ok bnp;
          controllers.GetNetworkPolicy := fun _ _ => np;
          controllers.Create := fun _ => None;
          controllers.Update := fun _ => None |};
     controllers.scheme :=
       {| controllers.GVKForObject :=
            Ok ("bot.networking.dev/v1alpha1", "BotNetworkPolicy") |};
     controllers.HTTPClient := serving JNull |}.

Definition request : controllers.Request :=
  {| controllers.ReqNamespace := "default"; controllers.ReqName := "sample" |}.

Definition awsRecord (service region prefix : string) : json :=
  JObject (<["service" := JString service]>
           (<["region" := JString region]>
            {["ip_prefix" := JString prefix]})).

Definition awsDocument : gmap string json :=
  {["prefixes" :=
      JArray [awsRecord "EC2" "us-east-1" "54.239.0.0/16";
              awsRecord "AMAZON" "eu-west-1" "13.248.0.0/16";
              awsRecord "AMAZON" "GLOBAL" "52.94.76.0/24"]]}.

Definition emptyHooks : gmap string json := {["hooks" := JArray []]}.

Definition nested (leaf : json) : json :=
  JObject {["a" := JObject {["b" := JObject {["c" := leaf]}]}]}.

(** The policy already in the cluster: owned by [owner] (when given),
    with the given labels and spec. *)
Definition existingPolicy (controllerUID : option string)
    (labels : gmap string string) (spec : networkingv1.NetworkPolicySpec)
  : networkingv1.NetworkPolicy :=
  {| networkingv1.ObjectMeta :=
       {| metav1.Name := "sample-allow-bots"; metav1.Namespace := "default";
          metav1.UID := "uid-np"; metav1.Labels := labels;
          metav1.Annotations := ∅;
          metav1.OwnerReferences :=
            match controllerUID with
            | Some uid =>
                [ {| metav1.ORAPIVersion := "bot.networking.dev/v1alpha1";
                     metav1.ORKind := "BotNetworkPolicy";
                     metav1.ORName := "sample"; metav1.ORUID := uid;
                     metav1.ORController := Some true;
                     metav1.ORBlockOwnerDeletion := Some true |} ]
            | None => []
            end |};
     networkingv1.Spec := spec |}.

(** A resource with one literal CIDR and the spec that the policy
    builder derives from it. *)
Definition oneCIDR : v1alpha1.BotNetworkPolicy := resource [] ["10.0.0.0/24"].

Definition oneCIDRSpec : networkingv1.NetworkPolicySpec :=
  networkingv1.Spec (controllers.buildNetworkPolicy oneCIDR ["10.0.0.0/24"]).

Definition drifted : gmap string string := {["team" := "edge"]}.

(** The stored policy: owned by the resource, spec as desired, labels
    other than the owner label the builder sets. *)
Definition ownedPolicy : networkingv1.NetworkPolicy :=
  existingPolicy (Some "uid-1") ∅ oneCIDRSpec.

Definition foreignPolicy : networkingv1.NetworkPolicy :=
  existingPolicy (Some "uid-of-someone-else") ∅ oneCIDRSpec.

Definition googleProvider : staticHTTPProvider :=
  {| sclient :=
       serving (JObject {["prefixes" :=
                            JArray [JObject {["ipv4Prefix" := JString "8.8.8.0/24"]}]]});
     surl := defaultGoogleEndpoint;
     sselector := googleSelector |}.

Definition endpointProvider : jsonEndpointProvider :=
  {| jclient := serving (nested (JArray [JString " 10.0.0.0/24 "; JString ""]));
     jkubeClient := None;
     jnamespace := "default";
     jurl := "https://example.com/bots.json";
     fieldPath := "a.b.c";
     headers := ∅;
     secretHeaders := [];
     jfilter := None |}.

End samples.

(** ** Further vocabulary *)

Section further_vocabulary.
Import GoStrings.

(** The factory that [collectCIDRs] builds for a reconciler. *)
Definition factoryOf (r : controllers.BotNetworkPolicyReconciler)
  : providers.Factory :=
  providers.NewFactory (Some (controllers.Reader (controllers.client r)))
                       (controllers.HTTPClient r) [].

(** Building the provider of a declaration and fetching from it. *)
Definition fetchDeclared (f : providers.Factory) (namespace : string)
    (spec : v1alpha1.ProviderSpec) : result (list string) :=
  providers.FromSpec f namespace spec ≫= providers.Fetch.

(** The CIDRs that the declarations of a resource deliver: those of every
    declaration whose provider could be built and fetched. *)
Definition delivered (f : providers.Factory) (namespace : string)
    (specs : list v1alpha1.ProviderSpec) (x : string) : Prop :=
  ∃ spec cidrs, spec ∈ specs ∧ fetchDeclared f namespace spec = Ok cidrs
                ∧ x ∈ cidrs.

(** The trimmed value of a string field, when it is a non-blank string. *)
Definition stringPrefix (item : gmap string json) (key : string) : list string :=
  match item !! key with
  | Some (JString raw) =>
      if decide (TrimSpace raw = EmptyString) then [] else [TrimSpace raw]
  | _ => []
  end.

(** The IPv4 then IPv6 prefixes of the records that pass [keep], in
    document order. *)
Definition googleRecords (keep : gmap string json -> bool) (items : list json)
  : list string :=
  items ≫= fun prefix =>
    match prefix with
    | JObject item =>
        if keep item
        then stringPrefix item "ipv4Prefix" ++ stringPrefix item "ipv6Prefix"
        else []
    | _ => []
    end.

Definition isStringOrObject (item : json) : bool :=
  match item with
  | JString _ | JObject _ => true
  | _ => false
  end.

(** A field condition holds of an object when the field is a string and,
    if values are given, equals one of them up to surrounding space and
    letter case. *)
Definition conditionHolds (obj : gmap string json)
    (c : providers.fieldCondition) : Prop :=
  ∃ s, obj !! providers.field c = Some (JString s)
       ∧ (providers.values c = []
          ∨ ∃ v, v ∈ providers.values c
                 ∧ EqualFold (TrimSpace s) (TrimSpace v) = true).

(** The field holds no usable CIDR: it is absent, not a string, or blank. *)
Definition unusable (obj : gmap string json) (key : string) : Prop :=
  ∀ s, obj !! key = Some (JString s) → TrimSpace s = EmptyString.

(** A token as [ExtractCIDRs] returns it: not empty, without surrounding
    space and without a separator. *)
Definition cleanToken (t : string) : Prop :=
  t ≠ EmptyString ∧ TrimSpace t = t
  ∧ providers.allBytes (fun c => negb (v1alpha1.isSeparator c)) t = true.

(** A create or update of [obj]. *)
Definition writes (obj : networkingv1.NetworkPolicy) (c : controllers.Call)
  : Prop :=
  c = controllers.CreateCall obj ∨ c = controllers.UpdateCall obj.

Definition isWarning (c : controllers.Call) : Prop :=
  match c with
  | controllers.RecordEvent _ eventtype _ _ => eventtype = corev1.EventTypeWarning
  | _ => False
  end.

(** The same policy with other policy types. *)
Definition withPolicyTypes (np : networkingv1.NetworkPolicy)
    (types : list networkingv1.PolicyType) : networkingv1.NetworkPolicy :=
  {| networkingv1.ObjectMeta := networkingv1.ObjectMeta np;
     networkingv1.Spec :=
       {| networkingv1.PodSelector :=
            networkingv1.PodSelector (networkingv1.Spec np);
          networkingv1.Ingress := networkingv1.Ingress (networkingv1.Spec np);
          networkingv1.Egress := networkingv1.Egress (networkingv1.Spec np);
          networkingv1.PolicyTypes := types |} |}.

(** The same resource with other provider declarations and literal CIDRs. *)
Definition withSources (b : v1alpha1.BotNetworkPolicy)
    (specs : list v1alpha1.ProviderSpec) (custom : list string)
  : v1alpha1.BotNetworkPolicy :=
  let s := v1alpha1.Spec b in
  {| v1alpha1.ObjectMeta := v1alpha1.ObjectMeta b;
     v1alpha1.Spec :=
       {| v1alpha1.PodSelector := v1alpha1.PodSelector s;
          v1alpha1.NamespaceSelector := v1alpha1.NamespaceSelector s;
          v1alpha1.PolicyTypes := v1alpha1.PolicyTypes s;
          v1alpha1.Ingress := v1alpha1.Ingress s;
          v1alpha1.Egress := v1alpha1.Egress s;
          v1alpha1.Providers := specs;
          v1alpha1.CustomCIDRs := custom;
          v1alpha1.SyncPeriod := v1alpha1.SyncPeriod s |} |}.

(** The next-sync delay of a resource. *)
Definition syncDelay (b : v1alpha1.BotNetworkPolicy) : Z :=
  if decide (v1alpha1.SyncPeriod (v1alpha1.Spec b) = 0%Z)
  then providers.DefaultSyncPeriod
  else v1alpha1.SyncPeriod (v1alpha1.Spec b).

(** A warning about a provider that was built and whose fetch failed. *)
Definition fetchWarning (f : providers.Factory) (namespace : string)
    (specs : list v1alpha1.ProviderSpec) (warning : string) : Prop :=
  ∃ spec provider e,
    spec ∈ specs
    ∧ providers.FromSpec f namespace spec = Ok provider
    ∧ providers.Fetch provider = Err e
    ∧ warning = "provider " +:+ v1alpha1.Name spec +:+ " fetch error: "
                +:+ errorText e.

(** The endpoint a cloud provider is built with: the URL of the
    declaration's block when that is not empty, else the endpoint given to
    the factory when that is not blank, else the compiled-in default. *)
Definition resolvedURL (declared : option string) (configured fallback : string)
  : string :=
  let base :=
    if decide (TrimSpace configured = EmptyString) then fallback else configured in
  match declared with
  | Some url => if decide (url = EmptyString) then base else url
  | None => base
  end.

(** The non-blank string elements, trimmed, of the array stored under a
    role; nothing when the role's field is missing or not an array. *)
Definition roleStrings (data : gmap string json) (role : string) : list string :=
  match data !! ToLower (TrimSpace role) with
  | Some (JArray roleData) =>
      roleData ≫= fun item =>
        match item with
        | JString cidr =>
            if decide (TrimSpace cidr = EmptyString) then [] else [TrimSpace cidr]
        | _ => []
        end
  | _ => []
  end.

End further_vocabulary.

(** ** Further sample inputs *)

Module cases.
Import providers.

Definition labelled (labels : gmap string string) : metav1.LabelSelector :=
  {| metav1.MatchLabels := labels; metav1.MatchExpressions := [] |}.

(** A cluster without the resource's policy: the look-up answers
    not-found. *)
Definition fresh : controllers.BotNetworkPolicyReconciler :=
  samples.reconciler samples.oneCIDR (Err (ErrNotFound "sample-allow-bots")).

(** A stored policy owned by the resource whose spec allows another
    CIDR. *)
Definition stale : networkingv1.NetworkPolicy :=
  samples.existingPolicy (Some "uid-1") samples.drifted
    (networkingv1.Spec
       (controllers.buildNetworkPolicy samples.oneCIDR ["192.0.2.0/24"])).

Definition cidrsConfigMap : gmap string string :=
  {["cidrs" := "10.0.0.0/24, 192.168.0.0/16"]}.

(** A reader that holds one config map, [default/extra-bot-ips]. *)
Definition reader : Reader :=
  {| GetSecret := fun _ name => Err (ErrNotFound name);
     GetConfigMap := fun namespace name =>
       if bool_decide (namespace = "default")
          && bool_decide (name = "extra-bot-ips")
       then Ok cidrsConfigMap else Err (ErrNotFound name) |}.

(** A cluster in which the config-map declaration can be fetched while
    the google endpoint answers a document without prefixes. *)
Definition mixed (providers : list v1alpha1.ProviderSpec) (custom : list string)
  : controllers.BotNetworkPolicyReconciler :=
  {| controllers.client :=
       {| controllers.Reader := reader;
          controllers.GetBotNetworkPolicy :=
            fun _ _ => Ok (samples.resource providers custom);
          controllers.GetNetworkPolicy :=
            fun _ name => Err (ErrNotFound name);
          controllers.Create := fun _ => None;
          controllers.Update := fun _ => None |};
     controllers.scheme :=
       {| controllers.GVKForObject :=
            Ok ("bot.networking.dev/v1alpha1", "BotNetworkPolicy") |};
     controllers.HTTPClient := samples.serving (JObject ∅) |}.

Definition filterOn (field : string) (values : list string) : jsonFilter :=
  {| fieldConditions := [ {| field := field; values := values |} ] |}.

Definition endpointWithSecret : jsonEndpointProvider :=
  {| jclient := samples.serving (JArray [JString "10.0.0.0/24"]);
     jkubeClient := None;
     jnamespace := "default";
     jurl := "https://example.com/bots.json";
     fieldPath := "";
     headers := ∅;
     secretHeaders :=
       [ {| name := "Authorization";
            selector := {| corev1.SKName := "bot-endpoint-token";
                           corev1.SKKey := "token" |} |} ];
     jfilter := None |}.

(** The object that the first invocation in the fresh cluster creates. *)
Definition created : networkingv1.NetworkPolicy :=
  match controllers.SetControllerReference samples.oneCIDR
          (controllers.buildNetworkPolicy samples.oneCIDR ["10.0.0.0/24"])
          (controllers.scheme fresh) with
  | Ok obj => obj
  | Err _ => controllers.buildNetworkPolicy samples.oneCIDR ["10.0.0.0/24"]
  end.

(** A policy for both directions, types listed ingress first. *)
Definition bothWays : networkingv1.NetworkPolicy :=
  withPolicyTypes samples.ownedPolicy
    [networkingv1.PolicyTypeIngress; networkingv1.PolicyTypeEgress].

Definition tokenSecret : gmap string string := {["token" := "Bearer abc"]}.

Definition secretReader : Reader :=
  {| GetSecret := fun namespace name =>
       if bool_decide (namespace = "default")
          && bool_decide (name = "bot-endpoint-token")
       then Ok tokenSecret else Err (ErrNotFound name);
     GetConfigMap := fun _ name => Err (ErrNotFound name) |}.

Definition authorization : secretHeaderRef :=
  {| name := "authorization";
     selector := {| corev1.SKName := "bot-endpoint-token";
                    corev1.SKKey := "token" |} |}.

Definition endpointResolved : jsonEndpointProvider :=
  {| jclient := samples.serving (JArray [JString "10.0.0.0/24"]);
     jkubeClient := Some secretReader;
     jnamespace := "default";
     jurl := "https://example.com/bots.json";
     fieldPath := "";
     headers := ∅;
     secretHeaders := [authorization];
     jfilter := None |}.

Definition googleItems : list json :=
  [ JObject {["ipv4Prefix" := JString " 8.8.8.0/24 "]};
    JString "stray";
    JObject (<["ipv6Prefix" := JString "2001:4860::/32"]>
             {["ipv4Prefix" := JString "8.8.4.0/24"]}) ].

Definition googleDocument : gmap string json :=
  {["prefixes" := JArray googleItems]}.

Definition probed : gmap string json :=
  <["cidr" := JString " 10.0.0.0/24 "]> {["ip_prefix" := JString "  "]}.

End cases.

(** * Properties *)

(** ** Facts about the string helpers *)

Section string_facts.
Import GoStrings.

Lemma TrimRightSpace_idemp s : TrimRightSpace (TrimRightSpace s) = TrimRightSpace s.
Proof.
  induction s as [|c s IH]; [done|]. simpl.
  destruct (TrimRightSpace s) as [|d r] eqn:E.
  - destruct (isSpace c) eqn:Hc; [done|]. simpl. by rewrite Hc.
  - simpl in *. by rewrite IH.
Qed.

Lemma TrimRightSpace_head c s :
  isSpace c = false → ∃ r, TrimRightSpace (String c s) = String c r.
Proof.
  intros Hc. simpl. destruct (TrimRightSpace s); rewrite ?Hc; eauto.
Qed.

Lemma TrimLeftSpace_head s :
  TrimLeftSpace s = EmptyString
  ∨ ∃ c r, TrimLeftSpace s = String c r ∧ isSpace c = false.
Proof.
  induction s as [|c s IH]; [by left|]. simpl.
  destruct (isSpace c) eqn:Hc; [done|]. right. eauto.
Qed.

(** Trimming a trimmed string changes nothing. *)
Lemma TrimSpace_idemp s : TrimSpace (TrimSpace s) = TrimSpace s.
Proof.
  unfold TrimSpace.
  destruct (TrimLeftSpace_head s) as [->|(c & r & -> & Hc)]; [done|].
  destruct (TrimRightSpace_head c r Hc) as [r' Hr]. rewrite Hr.
  simpl TrimLeftSpace. rewrite Hc, <- Hr. apply TrimRightSpace_idemp.
Qed.

Lemma Split_nonempty s sep : Split s sep ≠ [].
Proof.
  destruct s as [|c s]; [done|]. simpl.
  case_bool_decide; [done|]. by destruct (Split s sep).
Qed.

(** Splitting at a separator splits the list of pieces. *)
Lemma Split_app s t sep :
  Split (s +:+ String sep t) sep = Split s sep ++ Split t sep.
Proof.
  induction s as [|c s IH].
  - change (EmptyString +:+ String sep t) with (String sep t).
    simpl. by rewrite bool_decide_eq_true_2.
  - change (String c s +:+ String sep t) with (String c (s +:+ String sep t)).
    simpl. rewrite IH. case_bool_decide; [done|].
    pose proof (Split_nonempty s sep). by destruct (Split s sep).
Qed.

(** A string without the separator is a single piece. *)
Lemma Split_single s sep : noByte sep s = true → Split s sep = [s].
Proof.
  induction s as [|c s IH]; [done|]. simpl.
  intros [Hc Hs]%andb_prop. case_bool_decide; [done|]. by rewrite IH.
Qed.

Lemma Contains_app_r s t sub :
  Contains t sub = true → Contains (s +:+ t) sub = true.
Proof.
  intros Ht. induction s as [|c s IH]; [done|].
  change (String c s +:+ t) with (String c (s +:+ t)).
  simpl. rewrite IH. apply orb_true_r.
Qed.

Lemma Contains_prefix s sub : HasPrefix s sub = true → Contains s sub = true.
Proof. intros H. destruct s; simpl in *; by rewrite H. Qed.

Lemma SortStrings_Sorted l : Sorted String.le (SortStrings l).
Proof. apply (Sorted_merge_sort String.le). Qed.

Lemma SortStrings_Permutation l : SortStrings l ≡ₚ l.
Proof. apply merge_sort_Permutation. Qed.

Lemma SortStrings_elem_of x l : x ∈ SortStrings l ↔ x ∈ l.
Proof. by rewrite SortStrings_Permutation. Qed.

Lemma SortStrings_NoDup l : NoDup l → NoDup (SortStrings l).
Proof. by rewrite SortStrings_Permutation. Qed.

End string_facts.

(** ** The sanitizer and the providers' Fetch *)

Section sanitizer.
Import GoStrings providers.

Lemma sanitizeLoop_tokens cidrs results :
  sanitizeLoop cidrs results = results ++ tokens cidrs.
Proof.
  revert results. induction cidrs as [|cidr rest IH]; intros results.
  - by rewrite app_nil_r.
  - cbn [sanitizeLoop]. unfold tokens. rewrite fmap_cons, filter_cons.
    case_bool_decide as Ht; rewrite IH.
    + by rewrite decide_False by (by intros []).
    + rewrite decide_True by done. by rewrite <- app_assoc.
Qed.

Lemma tokens_sanitized cidrs : sanitized (tokens cidrs).
Proof.
  apply Forall_forall. intros t [Hne Hin]%list_elem_of_filter.
  apply list_elem_of_fmap in Hin as (raw & -> & _).
  split; [done|]. apply TrimSpace_idemp.
Qed.

Lemma sanitize_tokens cidrs :
  sanitize cidrs =
    if decide (tokens cidrs = []) then Err ErrNoCIDRs else Ok (tokens cidrs).
Proof.
  unfold sanitize. rewrite sanitizeLoop_tokens. simpl.
  destruct (tokens cidrs) as [|t ts]; by simpl.
Qed.

Lemma sanitize_Ok cidrs r :
  sanitize cidrs = Ok r → r = tokens cidrs ∧ r ≠ [] ∧ sanitized r.
Proof.
  rewrite sanitize_tokens. case_decide; [done|]. intros [= <-].
  auto using tokens_sanitized.
Qed.

(** Whatever produced the raw list, a computation that ends in
    [sanitize] never succeeds with an empty list. *)
Lemma then_sanitize_Ok (raw : result (list string)) r :
  (raw ≫= sanitize) = Ok r → r ≠ [] ∧ sanitized r.
Proof.
  destruct raw as [cidrs|e]; [|done]. cbn. intros H%sanitize_Ok. tauto.
Qed.

Lemma staticFetch_Ok p r : staticFetch p = Ok r → r ≠ [] ∧ sanitized r.
Proof.
  unfold staticFetch. destruct (NewRequest _ _); [done|].
  destruct (Do _ _) as [resp|]; [cbn|done].
  destruct (statusOK resp); [cbn|done].
  destruct (decodeObject _) as [payload|]; [cbn|done].
  apply then_sanitize_Ok.
Qed.

Lemma jsonEndpointFetch_Ok p r : jsonEndpointFetch p = Ok r → r ≠ [] ∧ sanitized r.
Proof.
  unfold jsonEndpointFetch. destruct (resolveHeaders p) as [hs|]; [cbn|done].
  destruct (NewRequest _ _); [done|].
  destruct (Do _ _) as [resp|]; [cbn|done].
  destruct (statusOK resp); [cbn|done].
  destruct (Body resp) as [payload|]; [cbn|done].
  destruct (navigateField _ _) as [value|]; [cbn|done].
  apply then_sanitize_Ok.
Qed.

Lemma configMapFetch_Ok p r : configMapFetch p = Ok r → r ≠ [] ∧ sanitized r.
Proof.
  unfold configMapFetch. destruct (cclient p) as [kube|]; [|done].
  destruct (GetConfigMap _ _ _) as [data|]; [cbn|done].
  destruct (data !! ckey p); [|done]. intros H%sanitize_Ok. tauto.
Qed.

Lemma Fetch_Ok p r : Fetch p = Ok r → r ≠ [] ∧ sanitized r.
Proof.
  destruct p; simpl;
    eauto using staticFetch_Ok, jsonEndpointFetch_Ok, configMapFetch_Ok.
Qed.

(** C3.  [sanitize] returns exactly the trimmed non-blank tokens of its
    input, in order, and fails when none survives; the static-HTTP and
    JSON-endpoint providers, whose [Fetch] ends in [sanitize], therefore
    return a non-empty sanitized list whenever they succeed. *)
Theorem sanitize_exact_and_fetch_never_empty :
  (∀ cidrs,
      sanitize cidrs =
        if decide (tokens cidrs = []) then Err ErrNoCIDRs
        else Ok (tokens cidrs))
  ∧ (∀ p r, staticFetch p = Ok r → r ≠ [] ∧ sanitized r)
  ∧ (∀ p r, jsonEndpointFetch p = Ok r → r ≠ [] ∧ sanitized r).
Proof.
  split; [apply sanitize_tokens|].
  split; [apply staticFetch_Ok | apply jsonEndpointFetch_Ok].
Qed.

End sanitizer.

(** ** JSON-path navigation *)

Section navigation.
Import GoStrings providers.

Lemma navigateSegments_app current l1 l2 :
  navigateSegments current (l1 ++ l2) =
    navigateSegments current l1 ≫= fun c => navigateSegments c l2.
Proof.
  revert current. induction l1 as [|segment l1 IH]; intros current; [done|].
  cbn [app navigateSegments]. case_bool_decide; [apply IH|].
  destruct current as [| | | | |m]; try done.
  destruct (m !! segment); [apply IH|done].
Qed.

(** Navigating [p.q] is navigating [p], then [q] from where [p] led. *)
Lemma navigateField_dot doc p q :
  navigateField doc (p +:+ String "." q) =
    navigateField doc p ≫= fun current => navigateField current q.
Proof. unfold navigateField. by rewrite Split_app, navigateSegments_app. Qed.

(** One non-empty, dot-free segment: a field lookup in an object. *)
Lemma navigateField_segment current segment :
  segment ≠ EmptyString → noByte "." segment = true →
  navigateField current segment =
    match current with
    | JObject m =>
        match m !! segment with
        | Some next => Ok next
        | None => Err (ErrMissingSegment segment)
        end
    | _ => Err (ErrSegmentNotObject segment)
    end.
Proof.
  intros Hne Hdot. unfold navigateField. rewrite Split_single by done.
  cbn [navigateSegments]. rewrite bool_decide_eq_false_2 by done.
  by destruct current.
Qed.

Lemma navigateField_empty doc : navigateField doc EmptyString = Ok doc.
Proof. reflexivity. Qed.

Lemma bind_Ok_r {A} (r : result A) : (r ≫= Ok) = r.
Proof. by destruct r. Qed.

Lemma bind_Ok_l {A B} (a : A) (k : A → result B) : (Ok a ≫= k) = k a.
Proof. reflexivity. Qed.

(** C6.  [navigateField] follows a dot-separated path through nested
    objects: [a.b.c] leads to the value stored under a, b, c; empty
    segments are skipped; a non-empty segment applied to a value that is
    not an object fails with the not-an-object error, one absent from the
    current object fails with the missing-segment error; the empty path
    returns the document itself. *)
Theorem navigateField_follows_path :
  (∀ doc, navigateField doc EmptyString = Ok doc)
  ∧ (∀ (m ma mb : gmap string json) X,
        m !! "a" = Some (JObject ma) → ma !! "b" = Some (JObject mb) →
        mb !! "c" = Some X →
        navigateField (JObject m) "a.b.c" = Ok X)
  ∧ (∀ doc p q,
        navigateField doc (p +:+ ".." +:+ q) = navigateField doc (p +:+ "." +:+ q)
        ∧ navigateField doc ("." +:+ q) = navigateField doc q
        ∧ navigateField doc (p +:+ ".") = navigateField doc p)
  ∧ (∀ doc p segment q current,
        navigateField doc p = Ok current →
        segment ≠ EmptyString → noByte "." segment = true →
        navigateField doc (p +:+ "." +:+ segment +:+ "." +:+ q) =
          match current with
          | JObject m =>
              match m !! segment with
              | Some next => navigateField next q
              | None => Err (ErrMissingSegment segment)
              end
          | _ => Err (ErrSegmentNotObject segment)
          end)
  ∧ (∀ segment,
        Contains (errorText (ErrSegmentNotObject segment)) "not an object" = true
        ∧ Contains (errorText (ErrMissingSegment segment)) "missing segment" = true).
Proof.
  split; [apply navigateField_empty|].
  split.
  { intros m ma mb X Ha Hb Hc.
    change "a.b.c" with ("a" +:+ String "." ("b" +:+ String "." "c")).
    rewrite navigateField_dot, navigateField_segment, Ha, bind_Ok_l by done.
    rewrite navigateField_dot, navigateField_segment, Hb, bind_Ok_l by done.
    by rewrite navigateField_segment, Hc. }
  split.
  { intros doc p q. split; [|split].
    - change (p +:+ ".." +:+ q) with (p +:+ String "." (EmptyString +:+ String "." q)).
      change (p +:+ "." +:+ q) with (p +:+ String "." q).
      rewrite !navigateField_dot. destruct (navigateField doc p); [cbn|done].
      by rewrite navigateField_dot.
    - change ("." +:+ q) with (EmptyString +:+ String "." q).
      by rewrite navigateField_dot.
    - change (p +:+ ".") with (p +:+ String "." EmptyString).
      rewrite navigateField_dot. apply bind_Ok_r. }
  split.
  { intros doc p segment q current Hp Hne Hdot.
    change (p +:+ "." +:+ segment +:+ "." +:+ q)
      with (p +:+ String "." (segment +:+ String "." q)).
    rewrite navigateField_dot, Hp. cbn.
    rewrite navigateField_dot, navigateField_segment by done.
    destruct current as [| | | | |m]; try done. by destruct (m !! segment). }
  intros segment. split.
  - cbn [errorText]. do 3 apply Contains_app_r. done.
  - apply Contains_prefix. done.
Qed.

End navigation.

(** ** Policy-type derivation *)

Section policy_types.
Import networkingv1 controllers.

Local Ltac evaluate_types :=
  match goal with
  | |- context [determinePolicyTypes ?req ?i ?e] =>
      let l := eval vm_compute in (determinePolicyTypes req i e) in
      replace (determinePolicyTypes req i e) with l by (vm_compute; reflexivity)
  end.

(** C2.  An explicit, non-empty list of policy types is returned as it
    is; otherwise (also for an explicit empty list) the result is the set
    that holds ingress unless the ingress flag is explicitly false, and
    egress only if the egress flag is explicitly true, with ingress
    forced when that would leave nothing. *)
Theorem determinePolicyTypes_derivation :
  (∀ t requested ingress egress,
      determinePolicyTypes (t :: requested) ingress egress = t :: requested)
  ∧ (∀ ingress egress,
        NoDup (determinePolicyTypes [] ingress egress)
        ∧ ∀ t, t ∈ determinePolicyTypes [] ingress egress ↔
               (t = PolicyTypeIngress
                ∧ (ingress ≠ Some false ∨ egress ≠ Some true))
               ∨ (t = PolicyTypeEgress ∧ egress = Some true))
  ∧ determinePolicyTypes [] None None = [PolicyTypeIngress]
  ∧ determinePolicyTypes [] None (Some true)
    = [PolicyTypeEgress; PolicyTypeIngress]
  ∧ determinePolicyTypes [] (Some false) (Some true) = [PolicyTypeEgress]
  ∧ determinePolicyTypes [] (Some false) None = [PolicyTypeIngress].
Proof.
  split; [done|]. split; [|by vm_compute].
  intros ingress egress. unfold PolicyTypeIngress, PolicyTypeEgress.
  destruct ingress as [[]|], egress as [[]|]; evaluate_types;
    (split; [apply (bool_decide_unpack _); by vm_compute|]);
    intros t; rewrite ?elem_of_cons, elem_of_nil;
    intuition (subst; first [congruence | auto]).
Qed.

End policy_types.

(** ** The merged CIDR set *)

Section merged_set.
Import GoStrings controllers.

Lemma setList_elem_of x (s : gset string) : x ∈ setList s ↔ x ∈ s.
Proof. unfold setList. by rewrite SortStrings_elem_of, elem_of_elements. Qed.

Lemma setList_NoDup (s : gset string) : NoDup (setList s).
Proof. apply SortStrings_NoDup, NoDup_elements. Qed.

Lemma foldl_insertFetched x (s : gset string) cidrs :
  x ∈ foldl insertFetched s cidrs ↔
    x ∈ s ∨ (x ≠ EmptyString ∧ x ∈ TrimSpace <$> cidrs).
Proof.
  revert s. induction cidrs as [|cidr rest IH]; intros s; simpl.
  - rewrite elem_of_nil. tauto.
  - rewrite IH, elem_of_cons. unfold insertFetched.
    case_bool_decide as Hblank.
    + rewrite Hblank. intuition congruence.
    + rewrite elem_of_union, elem_of_singleton. intuition congruence.
Qed.

Lemma foldl_insertCustom x (s : gset string) cidrs :
  x ∈ foldl insertCustom s cidrs ↔ x ∈ s ∨ x ∈ TrimSpace <$> cidrs.
Proof.
  revert s. induction cidrs as [|cidr rest IH]; intros s; simpl.
  - rewrite elem_of_nil. tauto.
  - rewrite IH, elem_of_cons. unfold insertCustom.
    rewrite elem_of_union, elem_of_singleton. tauto.
Qed.

(** What the loop over the providers keeps in the set: what was there,
    and trimmed non-empty strings. *)
Lemma foldl_collectProvider factory namespace acc declarations x :
  x ∈ (foldl (collectProvider factory namespace) acc declarations).1 →
  x ∈ acc.1 ∨ (x ≠ EmptyString ∧ TrimSpace x = x).
Proof.
  revert acc. induction declarations as [|d rest IH]; intros acc; simpl; [auto|].
  intros [Hx|Hx]%IH; [|auto]. revert Hx. destruct acc as [s warnings].
  unfold collectProvider.
  destruct (providers.FromSpec _ _ _) as [provider|]; [|auto].
  destruct (providers.Fetch provider) as [cidrs|]; [|auto]. simpl.
  intros [Hx|[Hne (raw & -> & _)%list_elem_of_fmap]]%foldl_insertFetched; [auto|].
  right. split; [done|]. apply TrimSpace_idemp.
Qed.

(** What holds of the merged set on every input: it is sorted, free of
    duplicates, and each element is trimmed; an element can only be empty
    when a literal CIDR of the resource is blank. *)
Lemma collectCIDRs_merged r resource :
  let merged := (collectCIDRs r resource).1.1 in
  Sorted String.le merged ∧ NoDup merged
  ∧ Forall (fun s => TrimSpace s = s) merged
  ∧ (EmptyString ∈ merged →
     EmptyString ∈ TrimSpace <$> v1alpha1.CustomCIDRs (v1alpha1.Spec resource))
  ∧ (collectCIDRs r resource).2 = None.
Proof.
  unfold collectCIDRs.
  pose proof (foldl_collectProvider
    (providers.NewFactory (Some (Reader (client r))) (HTTPClient r) [])
    (metav1.Namespace (v1alpha1.ObjectMeta resource)) (∅, [])
    (v1alpha1.Providers (v1alpha1.Spec resource))) as Hfold.
  destruct (foldl _ (∅, []) _) as [s warnings]. simpl in *.
  split; [apply SortStrings_Sorted|].
  split; [apply SortStrings_NoDup, setList_NoDup|].
  split; [|split; [|done]].
  - apply Forall_forall. intros x.
    rewrite SortStrings_elem_of, setList_elem_of, foldl_insertCustom.
    intros [[Hx|[_ Hx]]%Hfold|(raw & -> & _)%list_elem_of_fmap];
      [by apply not_elem_of_empty in Hx|done|apply TrimSpace_idemp].
  - rewrite SortStrings_elem_of, setList_elem_of, foldl_insertCustom.
    intros [[Hx|[Hx _]]%Hfold|Hx]; [by apply not_elem_of_empty in Hx|done|done].
Qed.

(** C1, at the failing input.  A resource without providers whose
    literal CIDR list holds one whitespace-only entry: the merged set is
    the one-element list holding the empty string. *)
Theorem collectCIDRs_keeps_blank_custom_entry r :
  collectCIDRs r (samples.resource [] ["   "]) = ([EmptyString], [], None).
Proof. by vm_compute. Qed.

End merged_set.

(** ** The aws selector *)

Section aws_selector.
Import GoStrings providers.

Lemma foldl_filterMap normalise (m : gset string) allow x :
  x ∈ foldl (fun m v => {[ normalise (TrimSpace v) ]} ∪ m) m allow ↔
    x ∈ m ∨ x ∈ (fun v => normalise (TrimSpace v)) <$> allow.
Proof.
  revert m. induction allow as [|v allow IH]; intros m; simpl.
  - rewrite elem_of_nil. tauto.
  - rewrite IH, elem_of_cons, elem_of_union, elem_of_singleton. tauto.
Qed.

Lemma filterMap_elem_of normalise allow x :
  x ∈ filterMap normalise allow ↔
    x ∈ (fun v => normalise (TrimSpace v)) <$> allow.
Proof.
  unfold filterMap. rewrite foldl_filterMap.
  split; [intros [H%not_elem_of_empty|H]|]; tauto.
Qed.

(** The filter of a list is active exactly when the list is not empty. *)
Lemma nonEmptyMap_filterMap normalise allow :
  nonEmptyMap (filterMap normalise allow) = negb (bool_decide (allow = [])).
Proof.
  unfold nonEmptyMap. f_equal. apply bool_decide_ext.
  rewrite size_empty_iff. split.
  - intros Hempty. destruct allow as [|v allow]; [done|].
    assert (normalise (TrimSpace v) ∈ filterMap normalise (v :: allow)) as Hin.
    { apply filterMap_elem_of. simpl. apply elem_of_cons. by left. }
    rewrite Hempty in Hin. by apply not_elem_of_empty in Hin.
  - by intros ->.
Qed.

(** One gate of the selector loop skips a record exactly when the
    allow-list does not admit the record's field. *)
Lemma gate_admits normalise allow item key :
  nonEmptyMap (filterMap normalise allow)
  && negb (fieldAllowed normalise (filterMap normalise allow) item key)
  = negb (admits normalise allow (textField item key)).
Proof.
  rewrite nonEmptyMap_filterMap. unfold admits, fieldAllowed.
  rewrite negb_orb. f_equal. f_equal.
  replace (default EmptyString (asString (item !! key)))
    with (textField item key)
    by (unfold textField; by destruct (item !! key) as [[]|]).
  apply bool_decide_ext, filterMap_elem_of.
Qed.

Lemma appendPrefix_ipPrefix item results :
  appendPrefix item "ip_prefix" results = results ++ ipPrefix item.
Proof.
  unfold appendPrefix, ipPrefix.
  destruct (item !! "ip_prefix") as [[| | |raw| |]|]; simpl;
    rewrite ?app_nil_r; try done.
  case_bool_decide; case_decide; by rewrite ?app_nil_r.
Qed.

Lemma awsStep_record services regions nbgs results prefix :
  awsStep (filterMap ToUpper services) (filterMap ToLower regions)
          (filterMap ToLower nbgs) results prefix
  = results ++ awsRecords (passesAWS services regions nbgs) [prefix].
Proof.
  unfold awsRecords. cbn [mbind list_bind app]. rewrite app_nil_r.
  destruct prefix as [| | | | |item]; cbn [awsStep]; rewrite ?app_nil_r; try done.
  rewrite !gate_admits. unfold passesAWS.
  destruct (admits ToUpper services _); cbn [negb andb]; [|by rewrite app_nil_r].
  destruct (admits ToLower regions _); cbn [negb andb]; [|by rewrite app_nil_r].
  destruct (admits ToLower nbgs _); cbn [negb andb]; [|by rewrite app_nil_r].
  apply appendPrefix_ipPrefix.
Qed.

Lemma awsRecords_cons keep prefix items :
  awsRecords keep (prefix :: items)
  = awsRecords keep [prefix] ++ awsRecords keep items.
Proof. unfold awsRecords. cbn [mbind list_bind]. by rewrite app_nil_r. Qed.

Lemma foldl_awsStep services regions nbgs results items :
  foldl (awsStep (filterMap ToUpper services) (filterMap ToLower regions)
                 (filterMap ToLower nbgs)) results items
  = results ++ awsRecords (passesAWS services regions nbgs) items.
Proof.
  revert results. induction items as [|prefix items IH]; intros results.
  - by rewrite app_nil_r.
  - cbn [foldl]. rewrite IH, awsStep_record, (awsRecords_cons _ prefix items).
    by rewrite <- app_assoc.
Qed.

(** The selector with explicit allow-lists, record by record. *)
Lemma awsSelectorWithFilter_records data items services regions nbgs :
  data !! "prefixes" = Some (JArray items) →
  awsSelectorWithFilter data services regions nbgs
  = Ok (awsRecords (passesAWS services regions nbgs) items).
Proof.
  intros Hp. unfold awsSelectorWithFilter. rewrite Hp. cbn [asArray].
  by rewrite foldl_awsStep.
Qed.

Lemma passesAWS_unfiltered item : passesAWS [] [] [] item = true.
Proof. reflexivity. Qed.

(** C4, as amended.  The default allow-lists (service AMAZON or
    AMAZON_CONNECT, region GLOBAL or us-east-1, up to letter case; the
    network border group unfiltered) are those of the standalone
    [awsSelector]: under them a record of service EC2 is excluded, a
    record of service AMAZON in region eu-west-1 is excluded, and a
    record that passes both contributes its trimmed [ip_prefix].  The
    selector that the factory builds from a declaration without an aws
    block applies no filter: every record contributes its prefix. *)
Theorem aws_defaults_only_in_awsSelector :
  (∀ data items,
      data !! "prefixes" = Some (JArray items) →
      awsSelector data
      = Ok (awsRecords (passesAWS awsDefaultServices awsDefaultRegions []) items))
  ∧ (∀ item : gmap string json,
        item !! "service" = Some (JString "EC2") →
        passesAWS awsDefaultServices awsDefaultRegions [] item = false)
  ∧ (∀ item : gmap string json,
        item !! "service" = Some (JString "AMAZON") →
        item !! "region" = Some (JString "eu-west-1") →
        passesAWS awsDefaultServices awsDefaultRegions [] item = false)
  ∧ (∀ (item : gmap string json) service region,
        item !! "service" = Some (JString service) →
        item !! "region" = Some (JString region) →
        ToUpper (TrimSpace service) ∈ ["AMAZON"; "AMAZON_CONNECT"] →
        ToLower (TrimSpace region) ∈ ["global"; "us-east-1"] →
        passesAWS awsDefaultServices awsDefaultRegions [] item = true)
  ∧ (∀ f namespace spec,
        ToLower (v1alpha1.Name spec) = "aws" → v1alpha1.AWS spec = None →
        ∃ p, FromSpec f namespace spec = Ok (StaticHTTP p)
             ∧ ∀ data items,
                 data !! "prefixes" = Some (JArray items) →
                 sselector p data = Ok (awsRecords (fun _ => true) items)).
Proof.
  split; [intros data items Hp; by apply awsSelectorWithFilter_records|].
  split.
  { intros item Hs. unfold passesAWS, textField. by rewrite Hs. }
  split.
  { intros item Hs Hr. unfold passesAWS, textField. by rewrite Hs, Hr. }
  split.
  { intros item service region Hs Hr Hsvc Hreg.
    unfold passesAWS, textField, admits. rewrite Hs, Hr.
    rewrite (bool_decide_eq_true_2 _ Hsvc), (bool_decide_eq_true_2 _ Hreg).
    reflexivity. }
  intros f namespace spec Hname Haws.
  unfold FromSpec, v1alpha1.Validate. rewrite Hname, Haws. cbn.
  eexists. split; [reflexivity|]. intros data items Hp. cbn.
  by rewrite (awsSelectorWithFilter_records _ items).
Qed.

(** C4 as stated fails.  The declaration [name: aws] without an aws
    block yields a selector that keeps the EC2 record and the eu-west-1
    record, which the default allow-lists of [awsSelector] drop. *)
Lemma aws_name_only_applies_no_defaults :
  (FromSpec (samples.factory JNull) "default" (samples.named "aws")
     ≫= fun provider =>
          match provider with
          | StaticHTTP p => sselector p samples.awsDocument
          | _ => Err ErrMissingPrefixes
          end)
  = Ok ["54.239.0.0/16"; "13.248.0.0/16"; "52.94.76.0/24"]
  ∧ awsSelector samples.awsDocument = Ok ["52.94.76.0/24"].
Proof. split; by vm_compute. Qed.

End aws_selector.

(** ** The github selector *)

Section github_selector.
Import GoStrings providers.

Lemma foldl_githubRole_app data results roles1 roles2 :
  foldl (githubRole data) results (roles1 ++ roles2)
  = foldl (githubRole data) (foldl (githubRole data) results roles1) roles2.
Proof. apply foldl_app. Qed.

Lemma githubSelectorWithRoles_Ok data roles r :
  githubSelectorWithRoles data roles = Ok r → r ≠ [].
Proof.
  unfold githubSelectorWithRoles. case_bool_decide as Hlen; [done|].
  intros [= <-]. intros Hnil. by rewrite Hnil in Hlen.
Qed.

(** Without requested roles the loop reads the [hooks] field. *)
Lemma githubSelectorWithRoles_default data :
  githubSelectorWithRoles data []
  = let results := match asArray (data !! "hooks") with
                   | None => []
                   | Some roleData => foldl githubItem [] roleData
                   end in
    if bool_decide (length results = 0%nat)
    then Err (ErrNoCIDRsForRoles ["hooks"]) else Ok results.
Proof. reflexivity. Qed.

Lemma githubSelectorWithRoles_empty_hooks (data : gmap string json) :
  data !! "hooks" = Some (JArray []) →
  githubSelectorWithRoles data [] = Err (ErrNoCIDRsForRoles ["hooks"]).
Proof. intros Hh. by rewrite githubSelectorWithRoles_default, Hh. Qed.

Lemma githubSelector_empty_hooks (data : gmap string json) :
  data !! "hooks" = Some (JArray []) → githubSelector data = Ok [].
Proof.
  intros Hh. unfold githubSelector.
  by rewrite githubSelectorWithRoles_empty_hooks, Hh.
Qed.

(** C5, as amended.  In the extraction loop a role whose key is missing
    is skipped; the standalone [githubSelector] answers an empty [hooks]
    array with an empty list and no error; [githubSelectorWithRoles],
    which is the selector the factory installs for every role set, the
    default one included, fails whenever no element was extracted; and
    no static-HTTP provider, whatever its selector, succeeds with an
    empty list. *)
Theorem github_empty_result_only_in_githubSelector :
  (∀ (data : gmap string json) results before role after,
      data !! ToLower (TrimSpace role) = None →
      foldl (githubRole data) results (before ++ role :: after)
      = foldl (githubRole data) results (before ++ after))
  ∧ (∀ data : gmap string json,
        data !! "hooks" = Some (JArray []) → githubSelector data = Ok [])
  ∧ (∀ data roles r, githubSelectorWithRoles data roles = Ok r → r ≠ [])
  ∧ (∀ data : gmap string json,
        data !! "hooks" = Some (JArray []) →
        githubSelectorWithRoles data [] = Err (ErrNoCIDRsForRoles ["hooks"]))
  ∧ (∀ f namespace spec,
        ToLower (v1alpha1.Name spec) = "github" → v1alpha1.GitHub spec = None →
        ∃ p, FromSpec f namespace spec = Ok (StaticHTTP p)
             ∧ ∀ data, sselector p data = githubSelectorWithRoles data [])
  ∧ (∀ p r, staticFetch p = Ok r → r ≠ []).
Proof.
  split.
  { intros data results before role after Hmissing.
    rewrite !foldl_githubRole_app. cbn [foldl].
    unfold githubRole at 2. by rewrite Hmissing. }
  split; [apply githubSelector_empty_hooks|].
  split; [apply githubSelectorWithRoles_Ok|].
  split.
  { apply githubSelectorWithRoles_empty_hooks. }
  split.
  { intros f namespace spec Hname Hgh.
    unfold FromSpec, v1alpha1.Validate. rewrite Hname, Hgh. cbn.
    eexists. split; reflexivity. }
  intros p r H. by apply staticFetch_Ok in H as [? _].
Qed.

(** C5 as stated fails.  The provider that the factory builds for
    [name: github], fetching a document whose [hooks] is an empty array,
    fails; so does a provider that uses [githubSelector] itself. *)
Lemma github_empty_hooks_fetch_fails :
  (FromSpec (samples.factory (JObject samples.emptyHooks)) "default"
            (samples.named "github") ≫= Fetch)
  = Err (ErrNoCIDRsForRoles ["hooks"])
  ∧ staticFetch {| sclient := samples.serving (JObject samples.emptyHooks);
                   surl := defaultGitHubEndpoint;
                   sselector := githubSelector |}
    = Err ErrNoCIDRs.
Proof. split; by vm_compute. Qed.

End github_selector.

(** ** Validation of provider declarations *)

Section validation.
Import GoStrings v1alpha1.

Lemma validateHeaderSecretRefs_None refs :
  validateHeaderSecretRefs refs = None ↔ Forall headerRefComplete refs.
Proof.
  induction refs as [|ref refs IH]; simpl.
  - split; [constructor|done].
  - rewrite Forall_cons, <- IH. unfold headerRefComplete.
    repeat case_bool_decide; simpl; intuition congruence.
Qed.

Lemma validateHeaderSecretRefs_supported refs name :
  validateHeaderSecretRefs refs ≠ Some (ErrUnsupportedProvider name).
Proof.
  induction refs as [|ref refs IH]; [done|]. simpl.
  destruct (bool_decide _); [done|].
  by destruct (bool_decide _ || bool_decide _).
Qed.

(** The four arms of the [switch] in [Validate]. *)
Lemma Validate_cloud p :
  ToLower (Name p) ∈ ["google"; "aws"; "github"] → Validate p = None.
Proof.
  rewrite !elem_of_cons, elem_of_nil. unfold Validate.
  intros [->|[->|[->|[]]]]; reflexivity.
Qed.

Lemma Validate_configmap p :
  ToLower (Name p) = "configmap" →
  Validate p =
    match ConfigMap p with
    | None => Some ErrConfigMapRequiresConfiguration
    | Some cm =>
        if bool_decide (CMName cm = EmptyString)
           || bool_decide (CMKey cm = EmptyString)
        then Some ErrConfigMapRequiresNameAndKey
        else None
    end.
Proof. intros H. unfold Validate. by rewrite H. Qed.

Lemma Validate_jsonendpoint p :
  ToLower (Name p) = "jsonendpoint" →
  Validate p =
    match JSONEndpoint p with
    | None => Some ErrJSONEndpointRequiresConfiguration
    | Some je =>
        if bool_decide (JEURL je = EmptyString)
           || bool_decide (FieldPath je = EmptyString)
        then Some ErrJSONEndpointRequiresURLAndFieldPath
        else validateHeaderSecretRefs (HeaderSecretRefs je)
    end.
Proof. intros H. unfold Validate. by rewrite H. Qed.

Lemma Validate_other p :
  ToLower (Name p) ≠ "google" → ToLower (Name p) ≠ "aws" →
  ToLower (Name p) ≠ "github" → ToLower (Name p) ≠ "configmap" →
  ToLower (Name p) ≠ "jsonendpoint" →
  Validate p = Some (ErrUnsupportedProvider (Name p)).
Proof.
  intros. unfold Validate.
  by rewrite !(bool_decide_eq_false_2 (ToLower (Name p) = _)) by done.
Qed.

(** C9, as amended.  [Validate] looks at the discriminator only, up to
    letter case, and at the block the discriminator names: google, aws
    and github are accepted whatever blocks are populated; configmap
    needs its block with a name and a key; jsonendpoint needs its block
    with a URL, a field path and complete header secret references; any
    other discriminator is rejected as unsupported. *)
Theorem Validate_accepts_iff p :
  (Validate p = None ↔
     ToLower (Name p) ∈ ["google"; "aws"; "github"]
     ∨ (ToLower (Name p) = "configmap"
        ∧ ∃ cm, ConfigMap p = Some cm
                ∧ CMName cm ≠ EmptyString ∧ CMKey cm ≠ EmptyString)
     ∨ (ToLower (Name p) = "jsonendpoint"
        ∧ ∃ je, JSONEndpoint p = Some je
                ∧ JEURL je ≠ EmptyString ∧ FieldPath je ≠ EmptyString
                ∧ Forall headerRefComplete (HeaderSecretRefs je)))
  ∧ (ToLower (Name p)
       ∉ ["google"; "aws"; "github"; "configmap"; "jsonendpoint"] ↔
     Validate p = Some (ErrUnsupportedProvider (Name p))).
Proof.
  rewrite !elem_of_cons, !elem_of_nil.
  destruct (decide (ToLower (Name p) = "google")) as [Hg|Hg];
    [rewrite Validate_cloud by (rewrite Hg; set_solver); rewrite Hg;
     split; [by intuition|split; [tauto|done]]|].
  destruct (decide (ToLower (Name p) = "aws")) as [Ha|Ha];
    [rewrite Validate_cloud by (rewrite Ha; set_solver); rewrite Ha;
     split; [by intuition|split; [tauto|done]]|].
  destruct (decide (ToLower (Name p) = "github")) as [Hh|Hh];
    [rewrite Validate_cloud by (rewrite Hh; set_solver); rewrite Hh;
     split; [by intuition|split; [tauto|done]]|].
  destruct (decide (ToLower (Name p) = "configmap")) as [Hc|Hc].
  { rewrite Validate_configmap by done. rewrite Hc. split.
    - destruct (ConfigMap p) as [cm|].
      + destruct (decide (CMName cm = EmptyString)) as [Hn|Hn];
          [rewrite (bool_decide_eq_true_2 _ Hn)
          |rewrite (bool_decide_eq_false_2 _ Hn)];
          (destruct (decide (CMKey cm = EmptyString)) as [Hk|Hk];
           [rewrite (bool_decide_eq_true_2 _ Hk)
           |rewrite (bool_decide_eq_false_2 _ Hk)]); cbn [orb];
          (split; [intros H|intros [H|[(_ & ? & [= <-] & ? & ?)|[H _]]]]);
          try done; try (intuition discriminate).
        right. left. eauto.
      + split; [done|].
        intros [H|[(_ & ? & ? & _)|[H _]]]; [intuition discriminate|done|done].
    - split; [intuition discriminate|]. destruct (ConfigMap p) as [cm|]; [|done].
      by destruct (bool_decide _ || bool_decide _). }
  destruct (decide (ToLower (Name p) = "jsonendpoint")) as [Hj|Hj].
  { rewrite Validate_jsonendpoint by done. rewrite Hj. split.
    - destruct (JSONEndpoint p) as [je|].
      + destruct (decide (JEURL je = EmptyString)) as [Hu|Hu].
        { rewrite (bool_decide_eq_true_2 _ Hu). cbn [orb]. split; [done|].
          intros [H|[[H _]|(_ & ? & [= <-] & ? & _)]];
            [intuition discriminate|done|done]. }
        destruct (decide (FieldPath je = EmptyString)) as [Hf|Hf].
        { rewrite (bool_decide_eq_true_2 _ Hf), orb_true_r. split; [done|].
          intros [H|[[H _]|(_ & ? & [= <-] & _ & ? & _)]];
            [intuition discriminate|done|done]. }
        rewrite (bool_decide_eq_false_2 _ Hu), (bool_decide_eq_false_2 _ Hf).
        cbn [orb]. rewrite validateHeaderSecretRefs_None. split.
        * intros Hrefs. right. right. eauto 10.
        * intros [H|[[H _]|(_ & ? & [= <-] & _ & _ & ?)]];
            [intuition discriminate|done|done].
      + split; [done|].
        intros [H|[[H _]|(_ & ? & ? & _)]]; [intuition discriminate|done|done].
    - split; [intuition discriminate|].
      destruct (JSONEndpoint p) as [je|]; [|done].
      destruct (bool_decide _ || bool_decide _); [done|].
      intros H. by apply validateHeaderSecretRefs_supported in H. }
  rewrite Validate_other by done. split; [|tauto].
  split; [done|]. intros [H|[[H _]|[H _]]]; tauto.
Qed.

(** C9 as stated fails.  A declaration named google is accepted with a
    populated [configMap] block, and also with no block at all. *)
Lemma Validate_ignores_foreign_blocks :
  Validate samples.googleWithConfigMap = None
  ∧ Validate (samples.named "google") = None.
Proof. split; reflexivity. Qed.

End validation.

(** ** The reconciler *)

Section reconciler.
Import controllers.

Lemma forEach_events resource eventtype reason messages log :
  forEach (Event resource eventtype reason) messages log
  = (tt, log ++ (RecordEvent resource eventtype reason <$> messages)).
Proof.
  revert log. induction messages as [|m messages IH]; intros log.
  - simpl. by rewrite app_nil_r.
  - cbn [forEach]. unfold mbind, Op_bind. unfold Event at 1.
    rewrite IH. by rewrite <- app_assoc.
Qed.

Lemma noWrites_events resource eventtype reason messages :
  noWrites (RecordEvent resource eventtype reason <$> messages).
Proof. apply Forall_fmap, Forall_true. done. Qed.

Lemma collectCIDRs_no_error r resource : (collectCIDRs r resource).2 = None.
Proof. apply collectCIDRs_merged. Qed.

(** The target of [ensureNetworkPolicy] does not depend on the CIDRs. *)
Lemma desired_target resource cidrs :
  metav1.Namespace (networkingv1.ObjectMeta (buildNetworkPolicy resource cidrs))
  = metav1.Namespace (v1alpha1.ObjectMeta resource)
  ∧ metav1.Name (networkingv1.ObjectMeta (buildNetworkPolicy resource cidrs))
    = v1alpha1.NetworkPolicyName resource.
Proof. done. Qed.

(** The comparator reads the spec only. *)
Lemma networkPoliciesEqual_spec existing existing' desired :
  networkingv1.Spec existing = networkingv1.Spec existing' →
  networkPoliciesEqual existing desired = networkPoliciesEqual existing' desired.
Proof. intros H. unfold networkPoliciesEqual. by rewrite H. Qed.

(** The part of [Reconcile] after validation. *)
Lemma Reconcile_valid r req resource log :
  GetBotNetworkPolicy (client r) (ReqNamespace req) (ReqName req) = Ok resource →
  v1alpha1.ValidateResource resource = None →
  Reconcile r req log
  = let cidrs := (collectCIDRs r resource).1.1 in
    let warnings := (collectCIDRs r resource).1.2 in
    let events :=
      RecordEvent resource corev1.EventTypeWarning "ProviderWarning"
        <$> warnings in
    let '(err, log') := ensureNetworkPolicy r resource cidrs (log ++ events) in
    match err with
    | Some err => ((noRequeue, Some err), log')
    | None =>
        (({| Requeue := false;
             RequeueAfter :=
               if bool_decide (v1alpha1.SyncPeriod (v1alpha1.Spec resource) = 0%Z)
               then providers.DefaultSyncPeriod
               else v1alpha1.SyncPeriod (v1alpha1.Spec resource) |}, None),
         log')
    end.
Proof.
  intros Hget Hvalid. unfold Reconcile. rewrite Hget, Hvalid.
  pose proof (collectCIDRs_no_error r resource) as Herr.
  destruct (collectCIDRs r resource) as [[cidrs warnings] err].
  simpl in Herr. subst err. cbn [fst snd].
  unfold mbind at 1, Op_bind at 1. rewrite forEach_events.
  unfold mbind, Op_bind.
  destruct (ensureNetworkPolicy _ _ _ _) as [[err|] log']; reflexivity.
Qed.

(** C7.  When the validation of the provider declarations fails, the
    invocation records one warning event, sends no create and no update,
    returns no error and asks for no re-sync. *)
Theorem Reconcile_invalid_spec r req resource err log :
  GetBotNetworkPolicy (client r) (ReqNamespace req) (ReqName req) = Ok resource →
  v1alpha1.ValidateResource resource = Some err →
  ∃ calls,
    Reconcile r req log
    = (({| Requeue := false; RequeueAfter := 0 |}, None), log ++ calls)
    ∧ calls = [RecordEvent resource corev1.EventTypeWarning "InvalidSpec"
                           (errorText err)]
    ∧ noWrites calls.
Proof.
  intros Hget Hvalid. eexists. split; [|split; [reflexivity|]].
  - unfold Reconcile. by rewrite Hget, Hvalid.
  - by repeat constructor.
Qed.

(** C8.  When a network policy of the derived name exists and is not
    controlled by the resource, [ensureNetworkPolicy] returns the
    ownership error without issuing a call, and an invocation that
    reaches it returns an error without a create or an update. *)
Theorem ownership_conflict_is_fatal r resource existing log :
  GetNetworkPolicy (client r)
    (metav1.Namespace (v1alpha1.ObjectMeta resource))
    (v1alpha1.NetworkPolicyName resource) = Ok existing →
  metav1.IsControlledBy (networkingv1.ObjectMeta existing)
                        (v1alpha1.ObjectMeta resource) = false →
  (∀ cidrs,
      ensureNetworkPolicy r resource cidrs log
      = (Some (ErrNotControlled
                 (metav1.Namespace (v1alpha1.ObjectMeta resource))
                 (v1alpha1.NetworkPolicyName resource)), log))
  ∧ (∀ req,
        GetBotNetworkPolicy (client r) (ReqNamespace req) (ReqName req)
        = Ok resource →
        v1alpha1.ValidateResource resource = None →
        ∃ err calls,
          Reconcile r req log = ((noRequeue, Some err), log ++ calls)
          ∧ noWrites calls).
Proof.
  intros Hget Hown.
  assert (∀ cidrs log,
            ensureNetworkPolicy r resource cidrs log
            = (Some (ErrNotControlled
                       (metav1.Namespace (v1alpha1.ObjectMeta resource))
                       (v1alpha1.NetworkPolicyName resource)), log)) as Hensure.
  { intros cidrs log'. unfold ensureNetworkPolicy. cbn [networkingv1.ObjectMeta
      buildNetworkPolicy metav1.Namespace metav1.Name].
    by rewrite Hget, Hown. }
  split; [intros cidrs; apply Hensure|].
  intros req Hres Hvalid. rewrite (Reconcile_valid _ _ resource) by done.
  cbn zeta. rewrite Hensure. eexists _, _. split; [reflexivity|].
  apply noWrites_events.
Qed.

(** C10.  When the existing policy is controlled by the resource and
    the comparator finds its spec equal to the desired one, no call is
    issued, whatever labels and annotations the existing object carries;
    the invocation then ends without a write and asks for the next
    sync. *)
Theorem equal_spec_means_no_write r resource existing labels annotations log :
  GetNetworkPolicy (client r)
    (metav1.Namespace (v1alpha1.ObjectMeta resource))
    (v1alpha1.NetworkPolicyName resource)
  = Ok (withMetadata existing labels annotations) →
  metav1.IsControlledBy (networkingv1.ObjectMeta existing)
                        (v1alpha1.ObjectMeta resource) = true →
  (∀ cidrs,
      networkPoliciesEqual existing (buildNetworkPolicy resource cidrs) = true →
      ensureNetworkPolicy r resource cidrs log = (None, log))
  ∧ (∀ req,
        GetBotNetworkPolicy (client r) (ReqNamespace req) (ReqName req)
        = Ok resource →
        v1alpha1.ValidateResource resource = None →
        networkPoliciesEqual existing
          (buildNetworkPolicy resource (collectCIDRs r resource).1.1) = true →
        ∃ result calls,
          Reconcile r req log = ((result, None), log ++ calls)
          ∧ noWrites calls).
Proof.
  intros Hget Hown.
  assert (∀ cidrs log,
            networkPoliciesEqual existing (buildNetworkPolicy resource cidrs)
            = true →
            ensureNetworkPolicy r resource cidrs log = (None, log)) as Hensure.
  { intros cidrs log' Heq. unfold ensureNetworkPolicy.
    cbn [networkingv1.ObjectMeta buildNetworkPolicy metav1.Namespace metav1.Name].
    rewrite Hget.
    change (metav1.IsControlledBy
              (networkingv1.ObjectMeta (withMetadata existing labels annotations))
              (v1alpha1.ObjectMeta resource))
      with (metav1.IsControlledBy (networkingv1.ObjectMeta existing)
                                  (v1alpha1.ObjectMeta resource)).
    rewrite Hown.
    rewrite (networkPoliciesEqual_spec _ existing) by done.
    fold (buildNetworkPolicy resource cidrs). by rewrite Heq. }
  split; [intros cidrs; apply Hensure|].
  intros req Hres Hvalid Heq. rewrite (Reconcile_valid _ _ resource) by done.
  cbn zeta. rewrite Hensure by done. eexists _, _. split; [reflexivity|].
  apply noWrites_events.
Qed.

End reconciler.

(** ** The statements at sample inputs *)

Section instances.
Import GoStrings providers controllers.

Lemma determinePolicyTypes_derivation_witness :
  determinePolicyTypes [networkingv1.PolicyTypeEgress] None None
  = [networkingv1.PolicyTypeEgress].
Proof. apply (proj1 determinePolicyTypes_derivation). Defined.

Lemma sanitize_exact_and_fetch_never_empty_witness :
  sanitize [" 10.0.0.0/24 "; "  "; ""] = Ok ["10.0.0.0/24"]
  ∧ (["8.8.8.0/24"] ≠ [] ∧ sanitized ["8.8.8.0/24"])
  ∧ (["10.0.0.0/24"] ≠ [] ∧ sanitized ["10.0.0.0/24"]).
Proof.
  destruct sanitize_exact_and_fetch_never_empty as (Hs & Hstatic & Hjson).
  split; [rewrite Hs; vm_compute; reflexivity|]. split.
  - apply (Hstatic samples.googleProvider). vm_compute. reflexivity.
  - apply (Hjson samples.endpointProvider). vm_compute. reflexivity.
Defined.

Lemma navigateField_follows_path_witness :
  navigateField
    (JObject {["a" := JObject {["b" := JObject {["c" := JString "10.0.0.0/24"]}]}]})
    "a.b.c" = Ok (JString "10.0.0.0/24")
  ∧ navigateField (samples.nested JNull) ("a" +:+ "." +:+ "x" +:+ "." +:+ "y")
    = Err (ErrMissingSegment "x").
Proof.
  destruct navigateField_follows_path as (_ & Habc & _ & Hstep & _). split.
  - apply (Habc _ {["b" := JObject {["c" := JString "10.0.0.0/24"]}]}
                  {["c" := JString "10.0.0.0/24"]});
      vm_compute; reflexivity.
  - rewrite (Hstep (samples.nested JNull) "a" "x" "y"
               (JObject {["b" := JObject {["c" := JNull]}]}));
      [vm_compute; reflexivity | vm_compute; reflexivity | discriminate
      | reflexivity].
Defined.

Lemma aws_defaults_only_in_awsSelector_witness :
  awsSelector samples.awsDocument = Ok ["52.94.76.0/24"]
  ∧ passesAWS awsDefaultServices awsDefaultRegions []
      {["service" := JString "EC2"]} = false
  ∧ ∃ p, FromSpec (samples.factory JNull) "default" (samples.named "aws")
         = Ok (StaticHTTP p)
         ∧ sselector p samples.awsDocument
           = Ok ["54.239.0.0/16"; "13.248.0.0/16"; "52.94.76.0/24"].
Proof.
  destruct aws_defaults_only_in_awsSelector as (Hdef & Hec2 & _ & _ & Hfactory).
  split; [|split].
  - rewrite (Hdef samples.awsDocument
               [samples.awsRecord "EC2" "us-east-1" "54.239.0.0/16";
                samples.awsRecord "AMAZON" "eu-west-1" "13.248.0.0/16";
                samples.awsRecord "AMAZON" "GLOBAL" "52.94.76.0/24"]);
      vm_compute; reflexivity.
  - apply Hec2. vm_compute. reflexivity.
  - destruct (Hfactory (samples.factory JNull) "default" (samples.named "aws"))
      as (p & Hp & Hsel); [reflexivity | reflexivity |].
    exists p. split; [exact Hp|].
    rewrite (Hsel samples.awsDocument
               [samples.awsRecord "EC2" "us-east-1" "54.239.0.0/16";
                samples.awsRecord "AMAZON" "eu-west-1" "13.248.0.0/16";
                samples.awsRecord "AMAZON" "GLOBAL" "52.94.76.0/24"]);
      vm_compute; reflexivity.
Defined.

Lemma github_empty_result_only_in_githubSelector_witness :
  githubSelector samples.emptyHooks = Ok []
  ∧ githubSelectorWithRoles samples.emptyHooks []
    = Err (ErrNoCIDRsForRoles ["hooks"])
  ∧ ["8.8.8.0/24"] ≠ [].
Proof.
  destruct github_empty_result_only_in_githubSelector
    as (_ & Hlenient & _ & Hstrict & _ & Hfetch).
  split; [|split].
  - apply Hlenient. vm_compute. reflexivity.
  - apply Hstrict. vm_compute. reflexivity.
  - apply (Hfetch samples.googleProvider). vm_compute. reflexivity.
Defined.

Lemma Validate_accepts_iff_witness :
  v1alpha1.Validate samples.configMapDecl = None
  ∧ v1alpha1.Validate (samples.named "carrier-pigeon")
    = Some (ErrUnsupportedProvider "carrier-pigeon").
Proof.
  split.
  - apply (proj1 (Validate_accepts_iff samples.configMapDecl)).
    right. left. split; [reflexivity|].
    eexists. split; [reflexivity|]. split; discriminate.
  - apply (proj2 (Validate_accepts_iff (samples.named "carrier-pigeon"))).
    apply (bool_decide_unpack _). vm_compute. exact I.
Defined.

Lemma Reconcile_invalid_spec_witness :
  ∃ calls,
    Reconcile
      (samples.reconciler (samples.resource [samples.named "carrier-pigeon"] [])
                          (Ok samples.ownedPolicy))
      samples.request []
    = (({| Requeue := false; RequeueAfter := 0 |}, None), [] ++ calls)
    ∧ calls = [RecordEvent
                 (samples.resource [samples.named "carrier-pigeon"] [])
                 corev1.EventTypeWarning "InvalidSpec"
                 (errorText (ErrUnsupportedProvider "carrier-pigeon"))]
    ∧ noWrites calls.
Proof.
  apply Reconcile_invalid_spec; [reflexivity | vm_compute; reflexivity].
Defined.

Lemma ownership_conflict_is_fatal_witness :
  ensureNetworkPolicy
    (samples.reconciler samples.oneCIDR (Ok samples.foreignPolicy))
    samples.oneCIDR ["10.0.0.0/24"] []
  = (Some (ErrNotControlled "default" "sample-allow-bots"), [])
  ∧ ∃ err calls,
      Reconcile (samples.reconciler samples.oneCIDR (Ok samples.foreignPolicy))
                samples.request []
      = ((noRequeue, Some err), [] ++ calls)
      ∧ noWrites calls.
Proof.
  destruct (ownership_conflict_is_fatal
              (samples.reconciler samples.oneCIDR (Ok samples.foreignPolicy))
              samples.oneCIDR samples.foreignPolicy [])
    as [Hensure Hreconcile]; [reflexivity | vm_compute; reflexivity |].
  split.
  - apply Hensure.
  - apply Hreconcile; [reflexivity | vm_compute; reflexivity].
Defined.

Lemma equal_spec_means_no_write_witness :
  metav1.Labels (networkingv1.ObjectMeta
                   (withMetadata samples.ownedPolicy samples.drifted ∅))
  !! ownerLabel = None
  ∧ metav1.Labels (networkingv1.ObjectMeta
                     (buildNetworkPolicy samples.oneCIDR ["10.0.0.0/24"]))
    !! ownerLabel = Some "sample"
  ∧ ensureNetworkPolicy
      (samples.reconciler samples.oneCIDR
         (Ok (withMetadata samples.ownedPolicy samples.drifted ∅)))
      samples.oneCIDR ["10.0.0.0/24"] []
    = (None, [])
  ∧ ∃ result calls,
      Reconcile
        (samples.reconciler samples.oneCIDR
           (Ok (withMetadata samples.ownedPolicy samples.drifted ∅)))
        samples.request []
      = ((result, None), [] ++ calls)
      ∧ noWrites calls.
Proof.
  destruct (equal_spec_means_no_write
              (samples.reconciler samples.oneCIDR
                 (Ok (withMetadata samples.ownedPolicy samples.drifted ∅)))
              samples.oneCIDR samples.ownedPolicy samples.drifted ∅ [])
    as [Hensure Hreconcile]; [reflexivity | vm_compute; reflexivity |].
  split; [vm_compute; reflexivity|]. split; [vm_compute; reflexivity|]. split.
  - apply Hensure. vm_compute. reflexivity.
  - apply Hreconcile;
      [reflexivity | vm_compute; reflexivity | vm_compute; reflexivity].
Defined.

End instances.

(** * Further properties *)

(** ** The policy comparator *)

Section comparator.
Import controllers.

Lemma pairwise_Forall2 {A} (eq : A → A → bool) a b :
  length a = length b →
  pairwise eq a b = true ↔ Forall2 (fun x y => eq x y = true) a b.
Proof.
  revert b. induction a as [|x a IH]; intros [|y b] Hlen; simplify_eq/=.
  - split; [constructor|done].
  - rewrite andb_true_iff, IH by done. split.
    + intros [??]. by constructor.
    + by intros [??]%Forall2_cons.
Qed.

Lemma sameLength_true {A B} (a : list A) (b : list B) :
  sameLength a b = true ↔ length a = length b.
Proof. unfold sameLength. apply bool_decide_eq_true. Qed.

(** A length check followed by a pairwise test with a faithful element
    test decides equality of the lists. *)
Lemma checked_pairwise_eq {A} (eq : A → A → bool) a b :
  (∀ x y, eq x y = true ↔ x = y) →
  sameLength a b && pairwise eq a b = true ↔ a = b.
Proof.
  intros Heq. rewrite andb_true_iff, sameLength_true. split.
  - intros [Hlen H]. apply pairwise_Forall2 in H; [|done].
    apply list_eq_Forall2. eapply Forall2_impl; [done|]. by intros ?? ?%Heq.
  - intros ->. split; [done|]. apply pairwise_Forall2; [done|].
    apply Forall2_same_length_lookup_2; [done|]. 
    intros i x y Hx Hy. apply Heq. congruence.
Qed.

Lemma equalStringSlices_eq a b : equalStringSlices a b = true ↔ a = b.
Proof. apply checked_pairwise_eq. intros x y. apply bool_decide_eq_true. Qed.

Lemma requirementEqual_eq ae be : requirementEqual ae be = true ↔ ae = be.
Proof.
  unfold requirementEqual.
  rewrite !andb_true_iff, !bool_decide_eq_true, equalStringSlices_eq.
  destruct ae, be; simpl. split; [intros [[-> ->] ->]|intros [= -> -> ->]]; done.
Qed.

Lemma ipBlock_eq (x y : networkingv1.IPBlock) :
  bool_decide (networkingv1.CIDR x = networkingv1.CIDR y)
  && equalStringSlices (networkingv1.Except x) (networkingv1.Except y) = true
  ↔ x = y.
Proof.
  rewrite andb_true_iff, bool_decide_eq_true, equalStringSlices_eq.
  destruct x, y; simpl. split; [intros [-> ->]|intros [= -> ->]]; done.
Qed.

Lemma peerEqual_blocks a b :
  peerEqual a b = true ↔ networkingv1.PeerIPBlock a = networkingv1.PeerIPBlock b.
Proof.
  unfold peerEqual.
  destruct (networkingv1.PeerIPBlock a) as [x|],
           (networkingv1.PeerIPBlock b) as [y|]; try done.
  rewrite ipBlock_eq. split; congruence.
Qed.

(** The peer test, in terms of the IP blocks. *)
Lemma peers_test a b :
  networkPolicyPeersEqual a b = true
  ↔ networkingv1.PeerIPBlock <$> a = networkingv1.PeerIPBlock <$> b.
Proof.
  unfold networkPolicyPeersEqual. rewrite andb_true_iff, sameLength_true. split.
  - intros [Hlen H]. apply pairwise_Forall2 in H; [|done].
    induction H as [|x y a b Hxy _ IH]; [done|]. simplify_eq/=.
    rewrite IH by done. f_equal. by apply peerEqual_blocks.
  - intros H. assert (length a = length b) as Hlen.
    { by rewrite <- (length_fmap networkingv1.PeerIPBlock a), H, length_fmap. }
    split; [done|]. apply pairwise_Forall2; [done|].
    revert b H Hlen. induction a as [|x a IH]; intros [|y b] H Hlen;
      simplify_eq/=; constructor; [by apply peerEqual_blocks|by apply IH].
Qed.

(** X5.  Two peer lists are found equal exactly when they have the same
    length and, position by position, the same IP block: the same CIDR
    and the same exceptions in the same order. *)
Theorem networkPolicyPeersEqual_blocks a b :
  networkPolicyPeersEqual a b = true
  ↔ networkingv1.PeerIPBlock <$> a = networkingv1.PeerIPBlock <$> b.
Proof. apply peers_test. Qed.

Lemma selectorsEqual_refl a : selectorsEqual a a = true.
Proof.
  unfold selectorsEqual. rewrite !andb_true_iff. repeat split.
  - by apply bool_decide_eq_true.
  - apply bool_decide_eq_true, map_Forall_lookup. by intros k v ->.
  - by apply sameLength_true.
  - apply pairwise_Forall2; [done|]. apply Forall2_same_length_lookup_2; [done|].
    intros i x y Hx Hy. apply requirementEqual_eq. congruence.
Qed.

Lemma networkPolicyPeersEqual_refl a : networkPolicyPeersEqual a a = true.
Proof. by apply peers_test. Qed.

Lemma pairwise_refl {A} (eq : A → A → bool) a :
  (∀ x, eq x x = true) → pairwise eq a a = true.
Proof. intros H. induction a; simpl; [done|]. by rewrite H. Qed.

Lemma comparator_same_spec existing desired :
  networkingv1.Spec existing = networkingv1.Spec desired →
  networkPoliciesEqual existing desired = true.
Proof.
  intros H. unfold networkPoliciesEqual. rewrite H.
  unfold sameLength at 1. rewrite bool_decide_eq_true_2 by done. cbn [negb].
  rewrite pairwise_refl by (intros; by apply bool_decide_eq_true).
  unfold networkPolicyIngressEqual, networkPolicyEgressEqual.
  rewrite !pairwise_refl by (intros; apply networkPolicyPeersEqual_refl).
  unfold sameLength. rewrite !bool_decide_eq_true_2 by done.
  by rewrite selectorsEqual_refl.
Qed.

(** X1.  The comparator finds every policy equal to itself, and to any
    object with the same spec: an object read back as written is never
    rewritten. *)
Theorem networkPoliciesEqual_same_spec existing desired :
  networkingv1.Spec existing = networkingv1.Spec desired →
  networkPoliciesEqual existing desired = true.
Proof. apply comparator_same_spec. Qed.

Lemma SortStrings_perm a b : a ≡ₚ b → GoStrings.SortStrings a = GoStrings.SortStrings b.
Proof.
  intros H. apply (Sorted_unique String.le); try apply SortStrings_Sorted.
  by rewrite !SortStrings_Permutation.
Qed.

(** The policy-type test of the comparator: equal as multisets. *)
Lemma policyTypes_test a b :
  sameLength a b
  && pairwise (fun x y => bool_decide (x = y))
       (GoStrings.SortStrings a) (GoStrings.SortStrings b) = true
  ↔ a ≡ₚ b.
Proof.
  split.
  - intros [Hlen H]%andb_true_iff. apply sameLength_true in Hlen.
    assert (GoStrings.SortStrings a = GoStrings.SortStrings b) as Hsort.
    { apply (checked_pairwise_eq (fun x y => bool_decide (x = y)));
        [intros; apply bool_decide_eq_true|].
      rewrite H, andb_true_r. apply sameLength_true.
      by rewrite !SortStrings_Permutation. }
    by rewrite <- (SortStrings_Permutation a), Hsort, SortStrings_Permutation.
  - intros H. rewrite (SortStrings_perm a b H), andb_true_iff. split.
    + apply sameLength_true. by rewrite H.
    + apply pairwise_refl. intros. by apply bool_decide_eq_true.
Qed.

(** X2.  Policy types are compared as multisets: the comparator accepts
    only a permutation of the desired types, and reordering the types of
    the existing policy never changes its verdict. *)
Theorem networkPoliciesEqual_policy_types existing desired :
  (networkPoliciesEqual existing desired = true →
   networkingv1.PolicyTypes (networkingv1.Spec existing)
   ≡ₚ networkingv1.PolicyTypes (networkingv1.Spec desired))
  ∧ (∀ types,
        types ≡ₚ networkingv1.PolicyTypes (networkingv1.Spec existing) →
        networkPoliciesEqual (withPolicyTypes existing types) desired
        = networkPoliciesEqual existing desired).
Proof.
  split.
  - unfold networkPoliciesEqual. intros H. apply policyTypes_test.
    destruct (sameLength _ _); [|done]. cbn [negb andb] in *.
    by destruct (pairwise _ _ _).
  - intros types Hperm. unfold networkPoliciesEqual, withPolicyTypes.
    cbn [networkingv1.Spec networkingv1.PolicyTypes networkingv1.Ingress
         networkingv1.Egress networkingv1.PodSelector].
    rewrite (SortStrings_perm _ _ Hperm).
    replace (sameLength types
               (networkingv1.PolicyTypes (networkingv1.Spec desired)))
      with (sameLength (networkingv1.PolicyTypes (networkingv1.Spec existing))
              (networkingv1.PolicyTypes (networkingv1.Spec desired))); [done|].
    unfold sameLength. by rewrite (Permutation_length Hperm).
Qed.

Lemma expressions_test (a b : list metav1.LabelSelectorRequirement) :
  sameLength a b && pairwise requirementEqual a b = true ↔ a = b.
Proof. apply checked_pairwise_eq, requirementEqual_eq. Qed.

(** X3.  When no label of the first selector has an empty value, two pod
    selectors are found equal exactly when they are the same selector. *)
Theorem selectorsEqual_exact a b :
  map_Forall (fun _ v => v ≠ EmptyString) (metav1.MatchLabels a) →
  selectorsEqual a b = true ↔ a = b.
Proof.
  intros Hvalues. split; [|intros ->; apply selectorsEqual_refl].
  unfold selectorsEqual. rewrite !andb_true_iff, !bool_decide_eq_true.
  intros [[[Hsize Hall] Hlen] Hpair].
  assert (metav1.MatchExpressions a = metav1.MatchExpressions b) as Hexpr
    by (apply expressions_test; by rewrite Hlen, Hpair).
  assert (metav1.MatchLabels a = metav1.MatchLabels b) as Hlabels.
  { apply map_subseteq_size_eq; [|lia]. apply map_subseteq_spec.
    intros k v Hk. pose proof (Hall k v Hk) as Hb. pose proof (Hvalues k v Hk) as Hv.
    cbv beta in Hb, Hv.
    destruct (metav1.MatchLabels b !! k); simpl in *; congruence. }
  destruct a, b; simpl in *. congruence.
Qed.

(** X4.  A label with an empty value is taken for a missing label: a
    selector whose only label has the empty value is found equal to a
    selector with one label under any other key, while the converse
    comparison tells them apart when that label's value is not empty. *)
Theorem selectorsEqual_empty_value_quirk k j v expressions :
  k ≠ j →
  selectorsEqual
    {| metav1.MatchLabels := {[ k := EmptyString ]};
       metav1.MatchExpressions := expressions |}
    {| metav1.MatchLabels := {[ j := v ]};
       metav1.MatchExpressions := expressions |} = true
  ∧ (v ≠ EmptyString →
     selectorsEqual
       {| metav1.MatchLabels := {[ j := v ]};
          metav1.MatchExpressions := expressions |}
       {| metav1.MatchLabels := {[ k := EmptyString ]};
          metav1.MatchExpressions := expressions |} = false).
Proof.
  intros Hkj. unfold selectorsEqual. cbn [metav1.MatchLabels metav1.MatchExpressions].
  rewrite !map_size_singleton.
  assert (sameLength expressions expressions
          && pairwise requirementEqual expressions expressions = true) as Hexpr
    by by apply expressions_test.
  apply andb_true_iff in Hexpr as [-> ->]. split.
  - rewrite (bool_decide_eq_true_2 (1 = 1)%nat) by done.
    rewrite bool_decide_eq_true_2; [done|].
    apply map_Forall_singleton. by rewrite lookup_singleton_ne.
  - intros Hv. rewrite (bool_decide_eq_false_2 (map_Forall _ _)); [done|].
    rewrite map_Forall_singleton, lookup_singleton_ne by done. simpl. congruence.
Qed.

End comparator.

(** ** Creating, updating and converging *)

Section convergence.
Import controllers.

Lemma SetControllerReference_desired resource cidrs s gvk :
  GVKForObject s = Ok gvk →
  ∃ obj, SetControllerReference resource (buildNetworkPolicy resource cidrs) s
         = Ok obj
         ∧ metav1.IsControlledBy (networkingv1.ObjectMeta obj)
                                 (v1alpha1.ObjectMeta resource) = true
         ∧ networkingv1.Spec obj
           = networkingv1.Spec (buildNetworkPolicy resource cidrs)
         ∧ metav1.Labels (networkingv1.ObjectMeta obj)
           = {[ ownerLabel := metav1.Name (v1alpha1.ObjectMeta resource) ]}
         ∧ metav1.Name (networkingv1.ObjectMeta obj)
           = v1alpha1.NetworkPolicyName resource
         ∧ metav1.Namespace (networkingv1.ObjectMeta obj)
           = metav1.Namespace (v1alpha1.ObjectMeta resource).
Proof.
  intros Hgvk. unfold SetControllerReference.
  cbn [buildNetworkPolicy networkingv1.ObjectMeta metav1.Namespace].
  rewrite (bool_decide_eq_false_2 (_ ≠ metav1.Namespace _)) by (by intros []).
  rewrite andb_false_r, Hgvk. cbn. eexists. split; [reflexivity|].
  unfold metav1.IsControlledBy. cbn. by rewrite bool_decide_eq_true_2.
Qed.

(** X6.  When the look-up of the policy answers not-found and the scheme
    knows the resource's kind, exactly one create is issued and its answer
    returned; the object created is controlled by the resource, carries
    the owner label and the derived name, and has the desired spec. *)
Theorem ensureNetworkPolicy_creates r resource cidrs notFound gvk log :
  GetNetworkPolicy (client r)
    (metav1.Namespace (v1alpha1.ObjectMeta resource))
    (v1alpha1.NetworkPolicyName resource) = Err notFound →
  IsNotFound notFound = true →
  GVKForObject (scheme r) = Ok gvk →
  ∃ obj,
    ensureNetworkPolicy r resource cidrs log
    = (Create (client r) obj, log ++ [CreateCall obj])
    ∧ metav1.IsControlledBy (networkingv1.ObjectMeta obj)
                            (v1alpha1.ObjectMeta resource) = true
    ∧ networkingv1.Spec obj
      = networkingv1.Spec (buildNetworkPolicy resource cidrs)
    ∧ metav1.Labels (networkingv1.ObjectMeta obj)
      = {[ ownerLabel := metav1.Name (v1alpha1.ObjectMeta resource) ]}
    ∧ metav1.Name (networkingv1.ObjectMeta obj)
      = v1alpha1.NetworkPolicyName resource
    ∧ metav1.Namespace (networkingv1.ObjectMeta obj)
      = metav1.Namespace (v1alpha1.ObjectMeta resource).
Proof.
  intros Hget Hnf Hgvk.
  destruct (SetControllerReference_desired resource cidrs _ _ Hgvk)
    as (obj & Hset & Hprops).
  exists obj. split; [|exact Hprops].
  unfold ensureNetworkPolicy.
  cbn [networkingv1.ObjectMeta buildNetworkPolicy metav1.Namespace metav1.Name].
  rewrite Hget. unfold IgnoreNotFound. rewrite Hnf.
  fold (buildNetworkPolicy resource cidrs). by rewrite Hset.
Qed.

(** An owned object with the desired spec is left alone. *)
Lemma ensureNetworkPolicy_settled r resource cidrs obj log :
  GetNetworkPolicy (client r)
    (metav1.Namespace (v1alpha1.ObjectMeta resource))
    (v1alpha1.NetworkPolicyName resource) = Ok obj →
  metav1.IsControlledBy (networkingv1.ObjectMeta obj)
                        (v1alpha1.ObjectMeta resource) = true →
  networkingv1.Spec obj = networkingv1.Spec (buildNetworkPolicy resource cidrs) →
  ensureNetworkPolicy r resource cidrs log = (None, log).
Proof.
  intros Hget Hown Hspec. unfold ensureNetworkPolicy.
  cbn [networkingv1.ObjectMeta buildNetworkPolicy metav1.Namespace metav1.Name].
  rewrite Hget, Hown. fold (buildNetworkPolicy resource cidrs).
  by rewrite comparator_same_spec.
Qed.

(** What [ensureNetworkPolicy] adds to the log: nothing, or one write of
    an object that is controlled by the resource and has the desired
    spec. *)
Lemma ensureNetworkPolicy_calls r resource cidrs log :
  ∃ written,
    (ensureNetworkPolicy r resource cidrs log).2 = log ++ written
    ∧ (written = []
       ∨ ∃ obj c, written = [c] ∧ writes obj c
                  ∧ metav1.IsControlledBy (networkingv1.ObjectMeta obj)
                                          (v1alpha1.ObjectMeta resource) = true
                  ∧ networkingv1.Spec obj
                    = networkingv1.Spec (buildNetworkPolicy resource cidrs)).
Proof.
  unfold ensureNetworkPolicy.
  cbn [networkingv1.ObjectMeta buildNetworkPolicy metav1.Namespace metav1.Name].
  fold (buildNetworkPolicy resource cidrs).
  destruct (GetNetworkPolicy _ _ _) as [existing|err].
  - destruct (metav1.IsControlledBy _ _) eqn:Hown;
      [|exists []; by rewrite app_nil_r; auto].
    destruct (networkPoliciesEqual _ _);
      [exists []; by rewrite app_nil_r; auto|].
    eexists [_]. split; [reflexivity|]. right. eexists _, _.
    split; [reflexivity|]. split; [by right|]. split; [|done].
    exact Hown.
  - destruct (IgnoreNotFound err); [exists []; by rewrite app_nil_r; auto|].
    destruct (GVKForObject (scheme r)) as [gvk|e] eqn:Hgvk.
    + destruct (SetControllerReference_desired resource cidrs _ _ Hgvk)
        as (obj & -> & Hown & Hspec & _).
      eexists [_]. split; [reflexivity|]. right. eexists _, _.
      split; [reflexivity|]. split; [by left|]. done.
    + exists []. rewrite app_nil_r. split; [|by left].
      unfold SetControllerReference.
      cbn [buildNetworkPolicy networkingv1.ObjectMeta metav1.Namespace].
      rewrite (bool_decide_eq_false_2 (_ ≠ metav1.Namespace _)) by (by intros []).
      by rewrite andb_false_r, Hgvk.
Qed.

(** X7.  Whatever object an invocation creates or updates, a later
    invocation for the same resource and CIDRs that reads this object
    back issues no call and returns no error. *)
Theorem ensureNetworkPolicy_converges r resource cidrs obj c r' log :
  c ∈ (ensureNetworkPolicy r resource cidrs []).2 →
  writes obj c →
  GetNetworkPolicy (client r')
    (metav1.Namespace (v1alpha1.ObjectMeta resource))
    (v1alpha1.NetworkPolicyName resource) = Ok obj →
  ensureNetworkPolicy r' resource cidrs log = (None, log).
Proof.
  intros Hin Hwrites Hget.
  destruct (ensureNetworkPolicy_calls r resource cidrs [])
    as (written & Hlog & [->|(obj' & c' & -> & Hw' & Hown & Hspec)]);
    rewrite Hlog in Hin; simpl in Hin.
  - by apply elem_of_nil in Hin.
  - apply list_elem_of_singleton in Hin as ->.
    assert (obj' = obj) as -> by (destruct Hw' as [->| ->], Hwrites; congruence).
    by apply (ensureNetworkPolicy_settled _ _ _ obj).
Qed.

(** X8.  An invocation only appends to the log of calls: first warning
    events, none of them a write, then at most one create or update. *)
Theorem Reconcile_call_discipline r req log :
  ∃ events written,
    (Reconcile r req log).2 = log ++ events ++ written
    ∧ Forall isWarning events
    ∧ Forall (fun c => isWrite c = true) written
    ∧ (length written ≤ 1)%nat.
Proof.
  destruct (GetBotNetworkPolicy (client r) (ReqNamespace req) (ReqName req))
    as [resource|err] eqn:Hget.
  - destruct (v1alpha1.ValidateResource resource) as [err|] eqn:Hvalid.
    + eexists [_], []. unfold Reconcile. rewrite Hget, Hvalid.
      split; [reflexivity|]. by repeat constructor.
    + rewrite (Reconcile_valid _ _ resource) by done. cbn zeta.
      destruct (ensureNetworkPolicy_calls r resource
                  (collectCIDRs r resource).1.1
                  (log ++ (RecordEvent resource corev1.EventTypeWarning
                             "ProviderWarning" <$> (collectCIDRs r resource).1.2)))
        as (written & Hlog & Hwritten).
      destruct (ensureNetworkPolicy _ _ _ _) as [err log'].
      simpl in Hlog. subst log'. eexists _, written.
      split; [by destruct err; rewrite <- app_assoc|].
      split; [apply Forall_fmap, Forall_true; done|].
      destruct Hwritten as [->|(obj & c & -> & [->| ->] & _)];
        by repeat constructor.
  - exists [], []. unfold Reconcile. rewrite Hget. simpl.
    rewrite app_nil_r. by repeat constructor.
Qed.

(** X9.  An invocation that returns an error asks for no re-sync; one
    that found a valid resource and returns no error asks for a re-sync
    after the resource's sync period, or after one hour when that is
    zero. *)
Theorem Reconcile_schedule r req log result err log' :
  Reconcile r req log = ((result, err), log') →
  (is_Some err → result = noRequeue)
  ∧ (∀ resource,
        GetBotNetworkPolicy (client r) (ReqNamespace req) (ReqName req)
        = Ok resource →
        v1alpha1.ValidateResource resource = None →
        err = None →
        result = {| Requeue := false; RequeueAfter := syncDelay resource |}).
Proof.
  intros Hrun. split.
  - intros [e ->].
    destruct (GetBotNetworkPolicy (client r) (ReqNamespace req) (ReqName req))
      as [resource|e0] eqn:Hget.
    + destruct (v1alpha1.ValidateResource resource) eqn:Hvalid.
      * unfold Reconcile in Hrun. by rewrite Hget, Hvalid in Hrun.
      * rewrite (Reconcile_valid _ _ resource) in Hrun by done.
        cbn zeta in Hrun.
        destruct (ensureNetworkPolicy _ _ _ _) as [[e1|] l]; congruence.
    + unfold Reconcile in Hrun. rewrite Hget in Hrun. by injection Hrun as <- _ _.
  - intros resource Hget Hvalid ->.
    rewrite (Reconcile_valid _ _ resource) in Hrun by done. cbn zeta in Hrun.
    destruct (ensureNetworkPolicy _ _ _ _) as [[e1|] l]; [done|].
    injection Hrun as <- _. unfold syncDelay. f_equal.
    by repeat case_bool_decide; case_decide.
Qed.

End convergence.

(** ** The factory and the aggregation of the providers *)

Section aggregation.
Import GoStrings controllers.

(** A declaration that passes validation can be built. *)
Lemma FromSpec_valid f namespace spec :
  v1alpha1.Validate spec = None →
  ∃ provider, providers.FromSpec f namespace spec = Ok provider.
Proof.
  intros Hvalid. unfold providers.FromSpec. rewrite Hvalid.
  unfold v1alpha1.Validate in Hvalid.
  destruct (bool_decide (ToLower (v1alpha1.Name spec) = "google")); [eauto|].
  destruct (bool_decide (ToLower (v1alpha1.Name spec) = "aws")); [eauto|].
  destruct (bool_decide (ToLower (v1alpha1.Name spec) = "github")); [eauto|].
  cbn [orb] in Hvalid.
  destruct (bool_decide (ToLower (v1alpha1.Name spec) = "configmap")).
  { destruct (v1alpha1.ConfigMap spec); [eauto|done]. }
  destruct (bool_decide (ToLower (v1alpha1.Name spec) = "jsonendpoint")); [|done].
  destruct (v1alpha1.JSONEndpoint spec); [eauto|done].
Qed.

(** X13.  The factory refuses a declaration exactly when validation
    refuses it, and with the error validation gives; every declaration
    that validates yields a provider. *)
Theorem FromSpec_fails_iff_invalid f namespace spec e :
  providers.FromSpec f namespace spec = Err e ↔ v1alpha1.Validate spec = Some e.
Proof.
  split.
  - destruct (v1alpha1.Validate spec) as [e'|] eqn:Hvalid.
    + unfold providers.FromSpec. rewrite Hvalid. congruence.
    + destruct (FromSpec_valid f namespace spec Hvalid) as [p ->]. done.
  - intros Hvalid. unfold providers.FromSpec. by rewrite Hvalid.
Qed.

Lemma validateProviders_None specs :
  v1alpha1.validateProviders specs = None
  ↔ Forall (fun spec => v1alpha1.Validate spec = None) specs.
Proof.
  induction specs as [|spec specs IH]; simpl.
  - split; [constructor|done].
  - rewrite Forall_cons, <- IH.
    destruct (v1alpha1.Validate spec); [split; [done|by intros [? _]]|tauto].
Qed.

(** X19.  A resource validates exactly when each of its declarations
    does; otherwise the error is that of the first declaration that does
    not validate. *)
Theorem ValidateResource_first_invalid b :
  (v1alpha1.ValidateResource b = None
   ↔ Forall (fun spec => v1alpha1.Validate spec = None)
            (v1alpha1.Providers (v1alpha1.Spec b)))
  ∧ (∀ e, v1alpha1.ValidateResource b = Some e
          ↔ ∃ before spec after,
              v1alpha1.Providers (v1alpha1.Spec b) = before ++ spec :: after
              ∧ Forall (fun spec => v1alpha1.Validate spec = None) before
              ∧ v1alpha1.Validate spec = Some e).
Proof.
  unfold v1alpha1.ValidateResource. split; [apply validateProviders_None|].
  intros e. induction (v1alpha1.Providers (v1alpha1.Spec b)) as [|spec specs IH];
    simpl.
  - split; [done|]. by intros ([|??] & ? & ? & ? & _).
  - destruct (v1alpha1.Validate spec) as [e'|] eqn:Hspec.
    + split.
      * intros [= ->]. exists [], spec, specs. by repeat split.
      * intros ([|spec' before] & spec'' & after & Heq & Hbefore & Hlast);
          simplify_eq/=; try congruence;
          apply Forall_cons in Hbefore as [? _]; congruence.
    + rewrite IH. split.
      * intros (before & spec' & after & -> & Hbefore & Hlast).
        exists (spec :: before), spec', after. split; [done|].
        split; [by constructor|done].
      * intros ([|spec' before] & spec'' & after & Heq & Hbefore & Hlast);
          simplify_eq/=; try congruence;
          apply Forall_cons in Hbefore as [_ ?]; eauto 10.
Qed.

Lemma tokens_id l : sanitized l → tokens l = l.
Proof.
  unfold tokens, sanitized. induction 1 as [|x l [Hne Htrim] _ IH]; [done|].
  rewrite fmap_cons, filter_cons, Htrim, decide_True by done. by rewrite IH.
Qed.

Lemma sanitized_fmap_TrimSpace l : sanitized l → TrimSpace <$> l = l.
Proof.
  induction 1 as [|x l [_ Htrim] _ IH]; [done|]. by rewrite fmap_cons, Htrim, IH.
Qed.

Lemma collectProvider_Ok f namespace spec cidrs s warnings :
  fetchDeclared f namespace spec = Ok cidrs →
  collectProvider f namespace (s, warnings) spec
  = (foldl insertFetched s cidrs, warnings).
Proof.
  unfold fetchDeclared, collectProvider.
  destruct (providers.FromSpec f namespace spec) as [provider|]; [|done].
  cbn [mbind result_bind bind]. by intros ->.
Qed.

Lemma collectProvider_Err f namespace spec e s warnings :
  fetchDeclared f namespace spec = Err e →
  ∃ warning, collectProvider f namespace (s, warnings) spec
             = (s, warnings ++ [warning]).
Proof.
  unfold fetchDeclared, collectProvider.
  destruct (providers.FromSpec f namespace spec) as [provider|]; [|eauto].
  cbn [mbind result_bind bind]. intros ->. eauto.
Qed.

Lemma delivered_cons f namespace spec specs x :
  delivered f namespace (spec :: specs) x
  ↔ (∃ cidrs, fetchDeclared f namespace spec = Ok cidrs ∧ x ∈ cidrs)
    ∨ delivered f namespace specs x.
Proof.
  unfold delivered. split.
  - intros (spec' & cidrs & [->|?]%elem_of_cons & ? & ?); [left|right]; eauto.
  - intros [(cidrs & ? & ?)|(spec' & cidrs & ? & ? & ?)].
    + exists spec, cidrs. split; [apply elem_of_cons; by left|done].
    + exists spec', cidrs. split; [apply elem_of_cons; by right|done].
Qed.

Lemma fetchDeclared_sanitized f namespace spec cidrs :
  fetchDeclared f namespace spec = Ok cidrs → cidrs ≠ [] ∧ sanitized cidrs.
Proof.
  unfold fetchDeclared.
  destruct (providers.FromSpec f namespace spec) as [provider|]; [|done].
  apply Fetch_Ok.
Qed.

(** The loop over the declarations, in terms of what each delivers. *)
Lemma foldl_collectProvider_spec f namespace specs s warnings :
  (∀ x, x ∈ (foldl (collectProvider f namespace) (s, warnings) specs).1
        ↔ x ∈ s ∨ delivered f namespace specs x)
  ∧ length (foldl (collectProvider f namespace) (s, warnings) specs).2
    = (length warnings
       + length (filter (fun spec =>
                           isOk (fetchDeclared f namespace spec) = false) specs))%nat.
Proof.
  revert s warnings. induction specs as [|spec specs IH]; intros s warnings.
  - simpl. split; [|lia]. intros x. split; [auto|].
    intros [?|(? & ? & []%elem_of_nil & _)]; done.
  - cbn [foldl]. rewrite filter_cons.
    destruct (fetchDeclared f namespace spec) as [cidrs|e] eqn:Hfetch.
    + rewrite (collectProvider_Ok _ _ _ cidrs) by done.
      destruct (IH (foldl insertFetched s cidrs) warnings) as [Hmem Hlen].
      split; [|by rewrite decide_False by done].
      intros x. rewrite Hmem, foldl_insertFetched, delivered_cons.
      destruct (fetchDeclared_sanitized _ _ _ _ Hfetch) as [_ Hsan].
      rewrite (sanitized_fmap_TrimSpace _ Hsan). split.
      * intros [[?|[_ ?]]|?]; [by left|right; left; eauto|by right; right].
      * intros [?|[(cidrs' & Hf & Hx)|?]];
          [by left; left| |by right].
        rewrite Hfetch in Hf. injection Hf as <-.
        left. right. split; [|done].
        apply Forall_forall with (x := x) in Hsan; [tauto|done].
    + destruct (collectProvider_Err _ _ _ _ s warnings Hfetch) as [warning ->].
      destruct (IH s (warnings ++ [warning])) as [Hmem Hlen].
      split; [|rewrite decide_True by done; rewrite Hlen, length_app; simpl; lia].
      intros x. rewrite Hmem, delivered_cons. split; [tauto|].
      intros [?|[(cidrs' & Hf & _)|?]]; [tauto| |tauto].
      by rewrite Hfetch in Hf.
Qed.

Lemma collectCIDRs_elem_of r resource x :
  x ∈ (collectCIDRs r resource).1.1
  ↔ delivered (factoryOf r) (metav1.Namespace (v1alpha1.ObjectMeta resource))
              (v1alpha1.Providers (v1alpha1.Spec resource)) x
    ∨ x ∈ TrimSpace <$> v1alpha1.CustomCIDRs (v1alpha1.Spec resource).
Proof.
  unfold collectCIDRs. fold (factoryOf r).
  destruct (foldl_collectProvider_spec (factoryOf r)
              (metav1.Namespace (v1alpha1.ObjectMeta resource))
              (v1alpha1.Providers (v1alpha1.Spec resource)) ∅ []) as [Hmem _].
  destruct (foldl _ (∅, []) _) as [s warnings]. simpl in *.
  rewrite SortStrings_elem_of, setList_elem_of, foldl_insertCustom, Hmem.
  split; [intros [[[]%not_elem_of_empty|?]|?]|]; tauto.
Qed.

(** X10.  The merged set holds exactly the CIDRs delivered by the
    declarations whose provider could be built and fetched, and the
    trimmed literal CIDRs of the resource; a declaration that fails
    contributes nothing and never makes the collection fail. *)
Theorem collectCIDRs_members r resource x :
  (x ∈ (collectCIDRs r resource).1.1
   ↔ delivered (factoryOf r) (metav1.Namespace (v1alpha1.ObjectMeta resource))
               (v1alpha1.Providers (v1alpha1.Spec resource)) x
     ∨ x ∈ TrimSpace <$> v1alpha1.CustomCIDRs (v1alpha1.Spec resource))
  ∧ (collectCIDRs r resource).2 = None.
Proof. split; [apply collectCIDRs_elem_of|apply collectCIDRs_merged]. Qed.


(** X12.  The merged list does not depend on the order in which the
    declarations and the literal CIDRs are listed. *)
Theorem collectCIDRs_order_independent r resource specs custom :
  specs ≡ₚ v1alpha1.Providers (v1alpha1.Spec resource) →
  custom ≡ₚ v1alpha1.CustomCIDRs (v1alpha1.Spec resource) →
  (collectCIDRs r (withSources resource specs custom)).1.1
  = (collectCIDRs r resource).1.1.
Proof.
  intros Hspecs Hcustom.
  apply (Sorted_unique String.le); try apply collectCIDRs_merged.
  apply NoDup_Permutation; try apply collectCIDRs_merged.
  intros x.
  rewrite (collectCIDRs_elem_of r resource x).
  rewrite (collectCIDRs_elem_of r _ x).
  cbn [withSources v1alpha1.ObjectMeta v1alpha1.Spec v1alpha1.Providers
       v1alpha1.CustomCIDRs].
  rewrite Hcustom. unfold delivered.
  by setoid_rewrite Hspecs.
Qed.

End aggregation.

(** ** Inside the JSON-endpoint provider *)

Section json_endpoint.
Import GoStrings providers.

Lemma interpretItems_Ok_iff flt items cidrs :
  isOk (interpretItems flt items cidrs) = true
  ↔ Forall (fun item => isStringOrObject item = true) items.
Proof.
  revert cidrs. induction items as [|item items IH]; intros cidrs.
  - split; [constructor|done].
  - rewrite Forall_cons. cbn [interpretItems].
    destruct item as [| | |s| |obj]; cbn [isStringOrObject];
      try (split; [done|by intros [? _]]).
    + rewrite IH. tauto.
    + destruct (match flt with Some f => _ | None => _ end);
        [|destruct (bool_decide _)]; rewrite IH; tauto.
Qed.

Lemma interpretItems_strings flt l cidrs :
  interpretItems flt (JString <$> l) cidrs = Ok (cidrs ++ l).
Proof.
  revert cidrs. induction l as [|s l IH]; intros cidrs; simpl.
  - by rewrite app_nil_r.
  - by rewrite IH, <- app_assoc.
Qed.

Lemma interpretItems_offender flt before item after cidrs :
  Forall (fun item => isStringOrObject item = true) before →
  isStringOrObject item = false →
  interpretItems flt (before ++ item :: after) cidrs = Err (ErrArrayValue item).
Proof.
  intros Hbefore Hitem. revert cidrs.
  induction Hbefore as [|x before Hx _ IH]; intros cidrs.
  - by destruct item.
  - cbn [app interpretItems]. destruct x as [| | |s| |obj]; try done.
    destruct (match flt with Some f => _ | None => _ end);
      [|destruct (bool_decide _)]; apply IH.
Qed.

(** X15.  An array is interpreted without error exactly when each of its
    elements is a string or an object; the error names the first element
    that is neither, whatever precedes or follows it; an array of strings
    is returned as it is, untrimmed, in order, with or without a filter. *)
Theorem interpretCIDRs_array flt :
  (∀ items,
      isOk (interpretCIDRs (JArray items) flt) = true
      ↔ Forall (fun item => isStringOrObject item = true) items)
  ∧ (∀ before item after,
        Forall (fun item => isStringOrObject item = true) before →
        isStringOrObject item = false →
        interpretCIDRs (JArray (before ++ item :: after)) flt
        = Err (ErrArrayValue item))
  ∧ (∀ l, interpretCIDRs (JArray (JString <$> l)) flt = Ok l).
Proof.
  split; [intros; apply interpretItems_Ok_iff|].
  split; [intros; by apply interpretItems_offender|].
  intros l. apply interpretItems_strings.
Qed.

Lemma anyValueMatches_true fieldStr allowed :
  anyValueMatches fieldStr allowed = true
  ↔ ∃ v, v ∈ allowed ∧ EqualFold (TrimSpace fieldStr) (TrimSpace v) = true.
Proof.
  unfold anyValueMatches. rewrite existsb_exists.
  by setoid_rewrite list_elem_of_In.
Qed.

(** X16.  An object matches a filter exactly when every field condition
    holds of it: the field is present and a string and, when values are
    given, equals one of them up to surrounding space and letter case.  A
    filter without conditions matches every object. *)
Theorem matchesFilter_all_conditions obj flt :
  matchesFilter obj flt = true
  ↔ Forall (conditionHolds obj) (fieldConditions flt).
Proof.
  unfold matchesFilter.
  induction (fieldConditions flt) as [|condition rest IH]; simpl.
  - split; [constructor|done].
  - rewrite Forall_cons, <- IH. unfold conditionHolds.
    destruct (obj !! field condition) as [[| | |s| |]|];
      try (split; [done|by intros [(? & ? & _) _]]).
    destruct (values condition) as [|v vs] eqn:Hvalues.
    + simpl. split; [|tauto]. intros H. split; [|done]. eauto.
    + rewrite bool_decide_eq_false_2 by done.
      destruct (anyValueMatches s (v :: vs)) eqn:Hany.
      * apply anyValueMatches_true in Hany. split; [|tauto].
        intros H. split; [|done]. exists s. split; [done|]. by right.
      * split; [done|]. intros [(s' & [= <-] & [?|Hex]) _]; [done|].
        apply anyValueMatches_true in Hex. congruence.
Qed.

Lemma firstCommonField_trimmed obj fields :
  TrimSpace (firstCommonField obj fields) = firstCommonField obj fields.
Proof.
  induction fields as [|f fields IH]; [done|]. simpl.
  destruct (asString (obj !! f)) as [value|]; [|done].
  case_bool_decide; [apply TrimSpace_idemp|done].
Qed.

Lemma asString_Some (v : option json) s :
  asString v = Some s ↔ v = Some (JString s).
Proof. destruct v as [[]|]; naive_solver. Qed.

Lemma firstCommonField_empty obj fields :
  firstCommonField obj fields = EmptyString ↔ Forall (unusable obj) fields.
Proof.
  induction fields as [|f fields IH]; simpl.
  - split; [constructor|done].
  - rewrite Forall_cons, <- IH. unfold unusable.
    destruct (asString (obj !! f)) as [value|] eqn:Hf.
    + apply asString_Some in Hf. case_bool_decide as Hblank.
      * split; [done|]. intros [H _]. by specialize (H _ Hf).
      * split; [|tauto].
        intros H. split; [|done]. intros s. rewrite Hf. by intros [= <-].
    + split; [|tauto]. intros H. split; [|done].
      intros s Hs. apply asString_Some in Hs. congruence.
Qed.

Lemma firstCommonField_first obj before f after s :
  Forall (unusable obj) before →
  obj !! f = Some (JString s) → TrimSpace s ≠ EmptyString →
  firstCommonField obj (before ++ f :: after) = TrimSpace s.
Proof.
  intros Hbefore Hf Hs. induction Hbefore as [|g before Hg _ IH]; simpl.
  - rewrite Hf. simpl. by rewrite bool_decide_eq_true_2.
  - destruct (asString (obj !! g)) as [value|] eqn:Hvalue; [|done].
    apply asString_Some, Hg in Hvalue. by rewrite bool_decide_eq_false_2 by tauto.
Qed.

(** X17.  The CIDR extracted from an object carries no surrounding
    space; it is empty exactly when none of the six probed fields holds a
    non-blank string; and it is the trimmed value of the first probed
    field, in the order ip_prefix, ipv4Prefix, ipv6Prefix, cidr, ipPrefix,
    ip, that holds one. *)
Theorem extractCIDRFromObject_first_usable obj :
  TrimSpace (extractCIDRFromObject obj) = extractCIDRFromObject obj
  ∧ (extractCIDRFromObject obj = EmptyString
     ↔ Forall (unusable obj) commonFields)
  ∧ (∀ before f after s,
        commonFields = before ++ f :: after →
        Forall (unusable obj) before →
        obj !! f = Some (JString s) → TrimSpace s ≠ EmptyString →
        extractCIDRFromObject obj = TrimSpace s).
Proof.
  unfold extractCIDRFromObject.
  split; [apply firstCommonField_trimmed|].
  split; [apply firstCommonField_empty|].
  intros before f after s ->. apply firstCommonField_first.
Qed.

Lemma HeaderAdd_keeps h key value k v :
  v ∈ default [] (h !! k) → v ∈ default [] (HeaderAdd h key value !! k).
Proof.
  intros Hv. unfold HeaderAdd, Header in *. cbv zeta.
  destruct (decide (CanonicalMIMEHeaderKey key = k)) as [<-|Hne].
  - rewrite lookup_insert_eq. simpl. apply elem_of_app. by left.
  - by rewrite lookup_insert_ne.
Qed.

Lemma HeaderAdd_adds h key value :
  value ∈ default [] (HeaderAdd h key value !! CanonicalMIMEHeaderKey key).
Proof.
  unfold HeaderAdd, Header in *. cbv zeta. rewrite lookup_insert_eq. simpl.
  apply elem_of_app. right. by apply list_elem_of_singleton.
Qed.

Lemma resolveSecretHeaders_keeps p refs h h' k v :
  resolveSecretHeaders p refs h = Ok h' →
  v ∈ default [] (h !! k) → v ∈ default [] (h' !! k).
Proof.
  revert h. induction refs as [|ref refs IH]; intros h; simpl.
  - by intros [= <-].
  - destruct (resolveSecretHeader p ref) as [value|]; [|done].
    cbn [mbind result_bind bind]. intros Hrest Hv.
    apply (IH _ Hrest). by apply HeaderAdd_keeps.
Qed.

Lemma resolveSecretHeaders_values p refs h h' ref :
  resolveSecretHeaders p refs h = Ok h' → ref ∈ refs →
  ∃ value, resolveSecretHeader p ref = Ok value
           ∧ value ∈ default [] (h' !! CanonicalMIMEHeaderKey (name ref)).
Proof.
  revert h. induction refs as [|ref' refs IH]; intros h; simpl.
  - by intros _ ?%elem_of_nil.
  - destruct (resolveSecretHeader p ref') as [value|] eqn:Href; [|done].
    cbn [mbind result_bind bind]. intros Hrest [->|Hin]%elem_of_cons.
    + exists value. split; [done|].
      eapply resolveSecretHeaders_keeps; [done|]. apply HeaderAdd_adds.
    + by apply (IH _ Hrest).
Qed.

(** X24.  When the headers of a JSON-endpoint provider resolve, every
    secret-backed header is in the resolved set, under its canonical name,
    with the value read from the secret's key; without a reader the
    headers resolve only if no secret-backed header is declared, and the
    fetch then fails before any request is made. *)
Theorem resolveHeaders_secret_values p :
  (∀ resolved ref,
      resolveHeaders p = Ok resolved → ref ∈ secretHeaders p →
      ∃ kube data value,
        jkubeClient p = Some kube
        ∧ GetSecret kube (jnamespace p) (corev1.SKName (selector ref)) = Ok data
        ∧ data !! corev1.SKKey (selector ref) = Some value
        ∧ value ∈ default [] (resolved !! CanonicalMIMEHeaderKey (name ref)))
  ∧ (jkubeClient p = None → secretHeaders p ≠ [] →
     jsonEndpointFetch p = Err ErrKubeClientNotConfigured).
Proof.
  split.
  - intros resolved ref Hres Hin. unfold resolveHeaders in Hres.
    destruct (resolveSecretHeaders_values _ _ _ _ _ Hres Hin)
      as (value & Hvalue & Hin').
    unfold resolveSecretHeader in Hvalue.
    destruct (jkubeClient p) as [kube|]; [|done].
    destruct (GetSecret kube _ _) as [data|] eqn:Hget; [|done].
    destruct (data !! _) as [value'|] eqn:Hkey; [|done].
    injection Hvalue as ->. eauto 10.
  - intros Hnone Hrefs. unfold jsonEndpointFetch, resolveHeaders.
    destruct (secretHeaders p) as [|ref refs]; [done|]. simpl.
    unfold resolveSecretHeader. by rewrite Hnone.
Qed.

(** X25.  A fetch succeeds only on a response with a status from 200 to
    299 whose body decodes: the static-HTTP provider then returns the
    tokens of what its selector extracts from the decoded object, the
    JSON-endpoint provider the tokens of what lies under its field
    path. *)
Theorem fetch_success_inversion r :
  (∀ p,
      staticFetch p = Ok r →
      ∃ resp payload raw,
        NewRequest (sclient p) (surl p) = None
        ∧ Do (sclient p) {| ReqURL := surl p; ReqHeader := ∅ |} = Ok resp
        ∧ (200 ≤ StatusCode resp < 300)%Z
        ∧ decodeObject (Body resp) = Ok payload
        ∧ sselector p payload = Ok raw
        ∧ r = tokens raw)
  ∧ (∀ p,
        jsonEndpointFetch p = Ok r →
        ∃ resolved resp payload value raw,
          resolveHeaders p = Ok resolved
          ∧ NewRequest (jclient p) (jurl p) = None
          ∧ Do (jclient p) {| ReqURL := jurl p;
                              ReqHeader := addAll resolved ∅ |} = Ok resp
          ∧ (200 ≤ StatusCode resp < 300)%Z
          ∧ Body resp = Ok payload
          ∧ navigateField payload (fieldPath p) = Ok value
          ∧ interpretCIDRs value (jfilter p) = Ok raw
          ∧ r = tokens raw).
Proof.
  split.
  - intros p. unfold staticFetch.
    destruct (NewRequest _ _) eqn:Hreq; [done|].
    destruct (Do _ _) as [resp|] eqn:Hdo; [|done]. cbn [mbind result_bind bind].
    destruct (statusOK resp) eqn:Hstatus; [|done]. cbn [negb].
    destruct (decodeObject _) as [payload|] eqn:Hdecode; [|done]. cbn [mbind result_bind bind].
    destruct (sselector p payload) as [raw|] eqn:Hsel; [|done]. cbn [mbind result_bind bind].
    intros [-> _]%sanitize_Ok. exists resp, payload, raw.
    unfold statusOK in Hstatus.
    apply negb_true_iff, orb_false_iff in Hstatus as [Hlow%Z.ltb_ge Hhigh%Z.leb_gt].
    repeat split; done || lia.
  - intros p. unfold jsonEndpointFetch.
    destruct (resolveHeaders p) as [resolved|] eqn:Hres; [|done].
    cbn [mbind result_bind bind].
    destruct (NewRequest _ _) eqn:Hreq; [done|].
    destruct (Do _ _) as [resp|] eqn:Hdo; [|done]. cbn [mbind result_bind bind].
    destruct (statusOK resp) eqn:Hstatus; [|done]. cbn [negb].
    destruct (Body resp) as [payload|] eqn:Hbody; [|done]. cbn [mbind result_bind bind].
    destruct (navigateField _ _) as [value|] eqn:Hnav; [|done]. cbn [mbind result_bind bind].
    destruct (interpretCIDRs _ _) as [raw|] eqn:Hint; [|done]. cbn [mbind result_bind bind].
    intros [-> _]%sanitize_Ok. exists resolved, resp, payload, value, raw.
    unfold statusOK in Hstatus.
    apply negb_true_iff, orb_false_iff in Hstatus as [Hlow%Z.ltb_ge Hhigh%Z.leb_gt].
    repeat split; done || lia.
Qed.

End json_endpoint.

(** ** The selectors and the sanitizer together *)

Section selectors.
Import GoStrings providers.

Lemma sanitized_app l k : sanitized l → sanitized k → sanitized (l ++ k).
Proof. apply Forall_app_2. Qed.

Lemma stringPrefix_sanitized item key : sanitized (stringPrefix item key).
Proof.
  unfold stringPrefix. destruct (item !! key) as [[| | |raw| |]|]; try constructor.
  case_decide; repeat constructor; [done|apply TrimSpace_idemp].
Qed.

Lemma appendPrefix_stringPrefix item key results :
  appendPrefix item key results = results ++ stringPrefix item key.
Proof.
  unfold appendPrefix, stringPrefix.
  destruct (item !! key) as [[| | |raw| |]|]; simpl;
    rewrite ?app_nil_r; try done.
  case_bool_decide; case_decide; by rewrite ?app_nil_r.
Qed.

Lemma awsRecords_sanitized keep items : sanitized (awsRecords keep items).
Proof.
  unfold awsRecords. induction items as [|prefix items IH]; [constructor|].
  cbn [mbind list_bind]. apply sanitized_app; [|exact IH].
  destruct prefix as [| | | | |item]; try constructor.
  destruct (keep item); [apply (stringPrefix_sanitized item "ip_prefix")|constructor].
Qed.

Lemma googleRecords_sanitized keep items : sanitized (googleRecords keep items).
Proof.
  unfold googleRecords. induction items as [|prefix items IH]; [constructor|].
  cbn [mbind list_bind]. apply sanitized_app; [|exact IH].
  destruct prefix as [| | | | |item]; try constructor.
  destruct (keep item); [|constructor].
  apply sanitized_app; apply stringPrefix_sanitized.
Qed.

Lemma googleStep_record scopes results prefix :
  googleStep (filterMap ToLower scopes) results prefix
  = results
    ++ googleRecords (fun item => admits ToLower scopes (textField item "scope"))
         [prefix].
Proof.
  unfold googleRecords. cbn [mbind list_bind app]. rewrite app_nil_r.
  destruct prefix as [| | | | |item]; cbn [googleStep]; rewrite ?app_nil_r; try done.
  rewrite gate_admits.
  destruct (admits ToLower scopes _); cbn [negb]; [|by rewrite app_nil_r].
  by rewrite !appendPrefix_stringPrefix, <- app_assoc.
Qed.

Lemma googleRecords_cons keep prefix items :
  googleRecords keep (prefix :: items)
  = googleRecords keep [prefix] ++ googleRecords keep items.
Proof. unfold googleRecords. cbn [mbind list_bind]. by rewrite app_nil_r. Qed.

Lemma foldl_googleStep scopes results items :
  foldl (googleStep (filterMap ToLower scopes)) results items
  = results
    ++ googleRecords (fun item => admits ToLower scopes (textField item "scope"))
         items.
Proof.
  revert results. induction items as [|prefix items IH]; intros results.
  - by rewrite app_nil_r.
  - cbn [foldl]. rewrite IH, googleStep_record, (googleRecords_cons _ prefix items).
    by rewrite <- app_assoc.
Qed.

(** X23.  The google selector needs a top-level array [prefixes] and
    fails without it.  From its elements that are objects and whose scope
    is admitted by the scope list (an empty list admits all, comparison up
    to surrounding space and letter case) it returns, in document order,
    the trimmed IPv4 prefix and then the trimmed IPv6 prefix, leaving out
    those that are absent, not strings or blank. *)
Theorem googleSelectorWithScope_records data scopes :
  (asArray (data !! "prefixes") = None →
   googleSelectorWithScope data scopes = Err ErrMissingPrefixes)
  ∧ (∀ items,
        data !! "prefixes" = Some (JArray items) →
        googleSelectorWithScope data scopes
        = Ok (googleRecords
                (fun item => admits ToLower scopes (textField item "scope"))
                items)).
Proof.
  unfold googleSelectorWithScope. split.
  - by intros ->.
  - intros items ->. cbn [asArray]. by rewrite foldl_googleStep.
Qed.

Lemma foldl_githubItem_sanitized results roleData :
  sanitized results → sanitized (foldl githubItem results roleData).
Proof.
  revert results. induction roleData as [|item roleData IH]; intros results Hres;
    [done|].
  cbn [foldl]. apply IH. destruct item as [| | |cidr| |]; try done.
  simpl. case_bool_decide; [|done].
  apply sanitized_app; [done|]. repeat constructor; [done|apply TrimSpace_idemp].
Qed.

Lemma foldl_githubRole_sanitized data results roles :
  sanitized results → sanitized (foldl (githubRole data) results roles).
Proof.
  revert results. induction roles as [|role roles IH]; intros results Hres; [done|].
  cbn [foldl]. apply IH. unfold githubRole.
  destruct (asArray _); [by apply foldl_githubItem_sanitized|done].
Qed.

Lemma sanitize_sanitized l : sanitized l → l ≠ [] → sanitize l = Ok l.
Proof.
  intros Hsan Hne. rewrite sanitize_tokens, tokens_id by done.
  by rewrite decide_False.
Qed.

(** X18.  What the three cloud selectors return is already sanitized:
    every element is non-empty and without surrounding space.  The
    sanitizer therefore passes a non-empty selector result on unchanged;
    more generally it leaves any sanitized non-empty list, and so its own
    results, unchanged. *)
Theorem selectors_deliver_sanitized data l :
  (∀ scopes, googleSelectorWithScope data scopes = Ok l → sanitized l)
  ∧ (∀ services regions nbgs,
        awsSelectorWithFilter data services regions nbgs = Ok l → sanitized l)
  ∧ (∀ roles, githubSelectorWithRoles data roles = Ok l → sanitized l)
  ∧ (sanitized l → l ≠ [] → sanitize l = Ok l)
  ∧ (∀ raw, sanitize raw = Ok l → sanitize l = Ok l).
Proof.
  split; [|split; [|split; [|split]]].
  - intros scopes. unfold googleSelectorWithScope.
    destruct (asArray _) as [items|]; [|done]. intros [= <-].
    rewrite foldl_googleStep. apply googleRecords_sanitized.
  - intros services regions nbgs. unfold awsSelectorWithFilter.
    destruct (asArray _) as [items|]; [|done]. intros [= <-].
    rewrite foldl_awsStep. apply awsRecords_sanitized.
  - intros roles. unfold githubSelectorWithRoles.
    case_bool_decide; [done|]. intros [= <-].
    apply foldl_githubRole_sanitized. constructor.
  - apply sanitize_sanitized.
  - intros raw (_ & Hne & Hsan)%sanitize_Ok. by apply sanitize_sanitized.
Qed.

End selectors.

(** ** Helpers of the API types and the policy builder *)

Section api_helpers.
Import GoStrings v1alpha1.

Lemma allBytes_rev_app P s1 s2 :
  providers.allBytes P (String.rev_app s1 s2)
  = providers.allBytes P s1 && providers.allBytes P s2.
Proof.
  revert s2. induction s1 as [|c s1 IH]; intros s2; simpl; [done|].
  rewrite IH. simpl. by destruct (P c), (providers.allBytes P s1).
Qed.

Lemma allBytes_TrimLeftSpace P s :
  providers.allBytes P s = true → providers.allBytes P (TrimLeftSpace s) = true.
Proof.
  induction s as [|c s IH]; simpl; [done|].
  intros [Hc Hs]%andb_true_iff. destruct (isSpace c); [auto|].
  simpl. by rewrite Hc, Hs.
Qed.

Lemma allBytes_TrimRightSpace P s :
  providers.allBytes P s = true → providers.allBytes P (TrimRightSpace s) = true.
Proof.
  induction s as [|c s IH]; simpl; [done|].
  intros [Hc Hs]%andb_true_iff. specialize (IH Hs).
  destruct (TrimRightSpace s); [destruct (isSpace c)|]; simpl in *;
    by rewrite ?Hc, ?IH.
Qed.

Lemma allBytes_TrimSpace P s :
  providers.allBytes P s = true → providers.allBytes P (TrimSpace s) = true.
Proof. intros. by apply allBytes_TrimRightSpace, allBytes_TrimLeftSpace. Qed.

Lemma fieldsGo_allBytes f cur s :
  (∀ acc, cur = Some acc → providers.allBytes (fun c => negb (f c)) acc = true) →
  Forall (fun t => providers.allBytes (fun c => negb (f c)) t = true)
         (fieldsGo f cur s).
Proof.
  revert cur. induction s as [|c s IH]; intros cur Hcur; simpl.
  - destruct cur as [acc|]; simpl; [|constructor].
    repeat constructor. unfold String.rev. rewrite allBytes_rev_app.
    by rewrite (Hcur acc).
  - destruct (f c) eqn:Hc.
    + apply Forall_app. split; [|by apply IH].
      destruct cur as [acc|]; simpl; [|constructor].
      repeat constructor. unfold String.rev. rewrite allBytes_rev_app.
      by rewrite (Hcur acc).
    + apply IH. intros acc [= <-]. simpl. rewrite Hc. simpl.
      destruct cur as [acc|]; simpl; [by apply Hcur|done].
Qed.

Lemma rev_app_rev_app s a b :
  String.rev_app (String.rev_app s a) b = String.rev_app a (s +:+ b).
Proof.
  revert a b. induction s as [|c s IH]; intros a b; [done|].
  simpl. by rewrite IH.
Qed.

Lemma append_empty_r s : s +:+ EmptyString = s.
Proof.
  induction s as [|c s IH]; [done|].
  change (String c s +:+ EmptyString) with (String c (s +:+ EmptyString)).
  by rewrite IH.
Qed.

Lemma rev_rev_app s : String.rev (String.rev_app s EmptyString) = s.
Proof. unfold String.rev. by rewrite rev_app_rev_app, append_empty_r. Qed.

(** Reading a separator-free, non-empty token extends the current run. *)
Lemma fieldsGo_token f t cur rest :
  t ≠ EmptyString →
  providers.allBytes (fun c => negb (f c)) t = true →
  fieldsGo f cur (t +:+ rest)
  = fieldsGo f (Some (String.rev_app t (default EmptyString cur))) rest.
Proof.
  revert cur. induction t as [|c t IH]; intros cur Hne Hall; [done|].
  simpl in Hall. apply andb_true_iff in Hall as [Hc Ht].
  apply negb_true_iff in Hc.
  change (String c t +:+ rest) with (String c (t +:+ rest)).
  cbn [fieldsGo]. rewrite Hc.
  destruct t as [|d t']; [done|]. by rewrite IH.
Qed.

Lemma FieldsFunc_Join f sep l :
  f sep = true →
  Forall (fun t => t ≠ EmptyString
                   ∧ providers.allBytes (fun c => negb (f c)) t = true) l →
  FieldsFunc (Join l (String sep EmptyString)) f = l.
Proof.
  intros Hsep Hl. unfold FieldsFunc.
  induction Hl as [|t l [Hne Hall] Hl IH]; [done|].
  destruct l as [|t' l].
  - cbn [Join]. transitivity (fieldsGo f None (t +:+ EmptyString));
      [by rewrite append_empty_r|].
    rewrite fieldsGo_token by done. simpl. by rewrite rev_rev_app.
  - change (Join (t :: t' :: l) (String sep EmptyString))
      with (t +:+ String sep EmptyString +:+ Join (t' :: l) (String sep EmptyString)).
    rewrite fieldsGo_token by done.
    change (String sep EmptyString +:+ Join (t' :: l) (String sep EmptyString))
      with (String sep (Join (t' :: l) (String sep EmptyString))).
    cbn [fieldsGo]. rewrite Hsep, IH. simpl. by rewrite rev_rev_app.
Qed.

(** X20.  Every token that [ExtractCIDRs] returns is non-empty, without
    surrounding space and without a separator; and writing clean tokens
    with a newline, comma or semicolon between them and extracting again
    gives the tokens back. *)
Theorem ExtractCIDRs_clean_tokens :
  (∀ payload, Forall cleanToken (ExtractCIDRs payload))
  ∧ (∀ sep l,
        isSeparator sep = true → Forall cleanToken l →
        ExtractCIDRs (Join l (String sep EmptyString)) = l).
Proof.
  split.
  - intros payload. unfold ExtractCIDRs. apply Forall_forall.
    intros t [Hne (field & -> & Hin)%list_elem_of_fmap]%list_elem_of_filter.
    split; [done|]. split; [apply TrimSpace_idemp|].
    apply allBytes_TrimSpace.
    pose proof (fieldsGo_allBytes isSeparator None payload) as Hall.
    rewrite Forall_forall in Hall. by apply Hall.
  - intros sep l Hsep Hl. unfold ExtractCIDRs. rewrite FieldsFunc_Join; [|done|].
    + assert (TrimSpace <$> l = l) as ->.
      { induction Hl as [|t l (_ & Htrim & _) _ IH]; [done|].
        by rewrite fmap_cons, Htrim, IH. }
      induction Hl as [|t l (Hne & _) _ IH]; [done|].
      by rewrite filter_cons, decide_True, IH.
    + eapply Forall_impl; [done|]. by intros t (? & _ & ?).
Qed.

(** X21.  The derived policy name is never empty.  It is the trimmed
    name annotation when that has a non-blank value, and otherwise, also
    for a whitespace-only annotation, the resource name followed by
    [-allow-bots]. *)
Theorem NetworkPolicyName_cases b :
  NetworkPolicyName b ≠ EmptyString
  ∧ (∀ a, metav1.Annotations (ObjectMeta b)
          !! "bot.networking.dev/networkpolicy-name" = Some a →
          TrimSpace a ≠ EmptyString → NetworkPolicyName b = TrimSpace a)
  ∧ ((∀ a, metav1.Annotations (ObjectMeta b)
           !! "bot.networking.dev/networkpolicy-name" = Some a →
           TrimSpace a = EmptyString) →
     NetworkPolicyName b = metav1.Name (ObjectMeta b) +:+ "-allow-bots").
Proof.
  unfold NetworkPolicyName.
  destruct (metav1.Annotations (ObjectMeta b) !! _) as [a|]; simpl.
  - split; [|split].
    + case_bool_decide; [done|]. by destruct (metav1.Name (ObjectMeta b)).
    + intros ? [= <-] Hne. by rewrite bool_decide_eq_true_2.
    + intros H. by rewrite bool_decide_eq_false_2 by (rewrite (H a); auto).
  - split; [by destruct (metav1.Name (ObjectMeta b))|]. split; [done|].
    intros _. reflexivity.
Qed.

End api_helpers.

Section builder.
Import controllers.

Lemma determinePolicyTypes_nonempty requested ingress egress :
  determinePolicyTypes requested ingress egress ≠ [].
Proof.
  destruct requested as [|t requested]; [|done].
  by destruct ingress as [[]|], egress as [[]|]; vm_compute.
Qed.

(** X22.  The desired policy always declares at least one policy type
    and has at most one rule per direction; the peers of a rule are the
    CIDRs, one IP block each, in order and without exceptions.  When the
    resource lists no policy types, a direction that has a rule is among
    the declared types. *)
Theorem buildNetworkPolicy_rules resource cidrs :
  let spec := networkingv1.Spec (buildNetworkPolicy resource cidrs) in
  let blocks :=
    (fun cidr => Some {| networkingv1.CIDR := cidr; networkingv1.Except := [] |})
      <$> cidrs in
  networkingv1.PolicyTypes spec ≠ []
  ∧ (length (networkingv1.Ingress spec) ≤ 1)%nat
  ∧ (length (networkingv1.Egress spec) ≤ 1)%nat
  ∧ (∀ rule, rule ∈ networkingv1.Ingress spec →
             cidrs ≠ []
             ∧ networkingv1.PeerIPBlock <$> networkingv1.From rule = blocks)
  ∧ (∀ rule, rule ∈ networkingv1.Egress spec →
             cidrs ≠ []
             ∧ networkingv1.PeerIPBlock <$> networkingv1.To rule = blocks)
  ∧ (v1alpha1.PolicyTypes (v1alpha1.Spec resource) = [] →
     (networkingv1.Ingress spec ≠ [] →
      networkingv1.PolicyTypeIngress ∈ networkingv1.PolicyTypes spec)
     ∧ (networkingv1.Egress spec ≠ [] →
        networkingv1.PolicyTypeEgress ∈ networkingv1.PolicyTypes spec)).
Proof.
  cbn zeta. unfold buildNetworkPolicy.
  cbn [networkingv1.Spec networkingv1.PolicyTypes networkingv1.Ingress
       networkingv1.Egress].
  split; [apply determinePolicyTypes_nonempty|].
  split; [destruct (_ && _); simpl; lia|].
  split; [destruct (_ && _); simpl; lia|].
  split; [|split].
  - intros rule. destruct (bool_decide (0 < length cidrs)%nat) eqn:Hlen;
      [|by intros ?%elem_of_nil].
    destruct (v1alpha1.IngressEnabled _); [|by intros ?%elem_of_nil].
    intros ->%list_elem_of_singleton. split.
    + apply bool_decide_eq_true in Hlen. intros ->. simpl in Hlen. lia.
    + cbn [networkingv1.From]. by rewrite <- list_fmap_compose.
  - intros rule. destruct (bool_decide (0 < length cidrs)%nat) eqn:Hlen;
      [|by intros ?%elem_of_nil].
    destruct (v1alpha1.EgressEnabled _); [|by intros ?%elem_of_nil].
    intros ->%list_elem_of_singleton. split.
    + apply bool_decide_eq_true in Hlen. intros ->. simpl in Hlen. lia.
    + cbn [networkingv1.To]. by rewrite <- list_fmap_compose.
  - intros ->. unfold v1alpha1.IngressEnabled, v1alpha1.EgressEnabled.
    destruct (bool_decide (0 < length cidrs)%nat); [|done].
    destruct (v1alpha1.Ingress _) as [[]|], (v1alpha1.Egress _) as [[]|];
      cbn [andb]; (split; [|]); intros Hrule; try done;
      apply (bool_decide_unpack _); by vm_compute.
Qed.

End builder.

(** ** After validation *)

Section validated.
Import GoStrings controllers.

Lemma foldl_collectProvider_warnings f namespace all specs s warnings :
  Forall (fun spec => v1alpha1.Validate spec = None) specs →
  specs ⊆ all →
  Forall (fetchWarning f namespace all) warnings →
  Forall (fetchWarning f namespace all)
         (foldl (collectProvider f namespace) (s, warnings) specs).2.
Proof.
  intros Hvalid. revert s warnings.
  induction Hvalid as [|spec specs Hspec _ IH]; intros s warnings Hsub Hw; [done|].
  cbn [foldl]. unfold collectProvider at 2.
  destruct (FromSpec_valid f namespace spec Hspec) as [provider Hbuild].
  rewrite Hbuild.
  assert (spec ∈ all) by (apply Hsub, elem_of_cons; by left).
  assert (specs ⊆ all) by (intros x Hx; apply Hsub, elem_of_cons; by right).
  destruct (providers.Fetch provider) as [cidrs|e] eqn:Hfetch; [by apply IH|].
  apply IH; [done|]. apply Forall_app. split; [done|].
  repeat constructor. by exists spec, provider, e.
Qed.

(** X14.  For a resource that passed validation the provider of every
    declaration can be built, so each warning of the collection step
    reports a failed fetch of one of the declared providers, never a
    skipped declaration. *)
Theorem validated_resource_never_skips r resource :
  v1alpha1.ValidateResource resource = None →
  (∀ spec, spec ∈ v1alpha1.Providers (v1alpha1.Spec resource) →
           ∃ provider,
             providers.FromSpec (factoryOf r)
               (metav1.Namespace (v1alpha1.ObjectMeta resource)) spec
             = Ok provider)
  ∧ Forall (fetchWarning (factoryOf r)
              (metav1.Namespace (v1alpha1.ObjectMeta resource))
              (v1alpha1.Providers (v1alpha1.Spec resource)))
           (collectCIDRs r resource).1.2.
Proof.
  intros Hvalid%validateProviders_None. split.
  - intros spec Hin. apply FromSpec_valid.
    by apply (proj1 (Forall_forall _ _) Hvalid).
  - unfold collectCIDRs. fold (factoryOf r).
    pose proof (foldl_collectProvider_warnings (factoryOf r)
      (metav1.Namespace (v1alpha1.ObjectMeta resource))
      (v1alpha1.Providers (v1alpha1.Spec resource))
      (v1alpha1.Providers (v1alpha1.Spec resource)) ∅ [] Hvalid) as Hfold.
    destruct (foldl _ (∅, []) _) as [s warnings]. simpl in *.
    apply Hfold; [done|constructor].
Qed.

End validated.

(** ** Endpoints and roles *)

Section endpoints.
Import GoStrings providers.

Lemma orDefault_resolved url endpoint :
  orDefault url endpoint = if decide (url = EmptyString) then endpoint else url.
Proof. unfold orDefault. by case_bool_decide; case_decide. Qed.

(** X26.  The endpoint of a cloud provider is chosen in a fixed order of
    precedence: the URL of the declaration's block when it is not empty
    (even if blank), else the endpoint the factory was given when that is
    not blank, else the compiled-in default. *)
Theorem endpoint_precedence kube http google aws github namespace spec :
  let f := NewFactory kube http
             [WithGoogleEndpoint google; WithAWSEndpoint aws;
              WithGitHubEndpoint github] in
  (ToLower (v1alpha1.Name spec) = "google" →
   ∃ p, FromSpec f namespace spec = Ok (StaticHTTP p)
        ∧ surl p = resolvedURL (v1alpha1.GoogleURL <$> v1alpha1.Google spec)
                               google defaultGoogleEndpoint)
  ∧ (ToLower (v1alpha1.Name spec) = "aws" →
     ∃ p, FromSpec f namespace spec = Ok (StaticHTTP p)
          ∧ surl p = resolvedURL (v1alpha1.AWSURL <$> v1alpha1.AWS spec)
                                 aws defaultAWSEndpoint)
  ∧ (ToLower (v1alpha1.Name spec) = "github" →
     ∃ p, FromSpec f namespace spec = Ok (StaticHTTP p)
          ∧ surl p = resolvedURL (v1alpha1.GitHubURL <$> v1alpha1.GitHub spec)
                                 github defaultGitHubEndpoint).
Proof.
  cbn zeta. unfold NewFactory. cbn [foldl].
  unfold WithGoogleEndpoint, WithAWSEndpoint, WithGitHubEndpoint, resolvedURL.
  split; [|split]; intros Hname; unfold FromSpec, v1alpha1.Validate;
    rewrite Hname; cbn [bool_decide orb]; simpl;
    eexists; (split; [reflexivity|]); cbn [surl];
    [destruct (v1alpha1.Google spec) as [block|]
    |destruct (v1alpha1.AWS spec) as [block|]
    |destruct (v1alpha1.GitHub spec) as [block|]];
    cbn [fmap option_fmap option_map]; rewrite ?orDefault_resolved;
    repeat case_bool_decide; repeat case_decide; try done; congruence.
Qed.

Lemma foldl_githubItem results roleData :
  foldl githubItem results roleData
  = results
    ++ (roleData ≫= fun item =>
          match item with
          | JString cidr =>
              if decide (TrimSpace cidr = EmptyString) then [] else [TrimSpace cidr]
          | _ => []
          end).
Proof.
  revert results. induction roleData as [|item roleData IH]; intros results.
  - by rewrite app_nil_r.
  - cbn [foldl mbind list_bind]. rewrite IH.
    destruct item as [| | |cidr| |]; try done. simpl.
    case_bool_decide; case_decide; try done. by rewrite <- app_assoc.
Qed.

Lemma foldl_githubRole data results roles :
  foldl (githubRole data) results roles
  = results ++ (roles ≫= roleStrings data).
Proof.
  revert results. induction roles as [|role roles IH]; intros results.
  - by rewrite app_nil_r.
  - cbn [foldl mbind list_bind]. rewrite IH. unfold githubRole, roleStrings.
    destruct (data !! _) as [[| | | |roleData|]|]; cbn [asArray];
      rewrite ?app_nil_r; try done.
    by rewrite foldl_githubItem, <- app_assoc.
Qed.

(** X27.  The github selector reads, for each requested role in the
    order given (for [hooks] when none is requested), the array stored
    under the role's trimmed lower-case name and returns the trimmed
    non-blank strings of these arrays in order; it fails, naming the
    roles, exactly when that leaves nothing. *)
Theorem githubSelectorWithRoles_roles data roles :
  let effective := if decide (roles = []) then ["hooks"] else roles in
  githubSelectorWithRoles data roles
  = if decide (effective ≫= roleStrings data = [])
    then Err (ErrNoCIDRsForRoles effective)
    else Ok (effective ≫= roleStrings data).
Proof.
  cbn zeta. unfold githubSelectorWithRoles.
  replace (if bool_decide (length roles = 0%nat) then ["hooks"] else roles)
    with (if decide (roles = []) then ["hooks"] else roles)
    by (by destruct roles).
  rewrite foldl_githubRole. cbn [app].
  by destruct (_ ≫= roleStrings data).
Qed.

End endpoints.

(** ** The further statements at sample inputs *)

Section further_instances.
Import GoStrings providers controllers.

Lemma networkPoliciesEqual_same_spec_witness :
  networkPoliciesEqual
    (withMetadata samples.ownedPolicy samples.drifted ∅)
    (buildNetworkPolicy samples.oneCIDR ["10.0.0.0/24"]) = true.
Proof. apply networkPoliciesEqual_same_spec. vm_compute. reflexivity. Defined.

Lemma networkPoliciesEqual_policy_types_witness :
  [networkingv1.PolicyTypeIngress; networkingv1.PolicyTypeEgress]
  ≡ₚ [networkingv1.PolicyTypeEgress; networkingv1.PolicyTypeIngress]
  ∧ networkPoliciesEqual
      (withPolicyTypes cases.bothWays
         [networkingv1.PolicyTypeEgress; networkingv1.PolicyTypeIngress])
      cases.bothWays
    = networkPoliciesEqual cases.bothWays cases.bothWays.
Proof.
  split.
  - apply (proj1 (networkPoliciesEqual_policy_types
                    cases.bothWays
                    (withPolicyTypes cases.bothWays
                       [networkingv1.PolicyTypeEgress;
                        networkingv1.PolicyTypeIngress]))).
    vm_compute. reflexivity.
  - apply (proj2 (networkPoliciesEqual_policy_types cases.bothWays cases.bothWays)).
    apply perm_swap.
Defined.

Lemma selectorsEqual_exact_witness :
  selectorsEqual (cases.labelled {["app" := "web"]})
                 (cases.labelled {["app" := "api"]}) = true
  ↔ cases.labelled {["app" := "web"]} = cases.labelled {["app" := "api"]}.
Proof.
  apply selectorsEqual_exact. apply map_Forall_singleton. discriminate.
Defined.

Lemma selectorsEqual_empty_value_quirk_witness :
  selectorsEqual (cases.labelled {["app" := ""]})
                 (cases.labelled {["tier" := "edge"]}) = true
  ∧ ("edge" ≠ "" →
     selectorsEqual (cases.labelled {["tier" := "edge"]})
                    (cases.labelled {["app" := ""]}) = false).
Proof. apply (selectorsEqual_empty_value_quirk "app" "tier" "edge" []). discriminate. Defined.

Lemma ensureNetworkPolicy_creates_witness :
  ∃ obj,
    ensureNetworkPolicy cases.fresh samples.oneCIDR ["10.0.0.0/24"] []
    = (Create (client cases.fresh) obj, [] ++ [CreateCall obj])
    ∧ metav1.IsControlledBy (networkingv1.ObjectMeta obj)
                            (v1alpha1.ObjectMeta samples.oneCIDR) = true
    ∧ networkingv1.Spec obj
      = networkingv1.Spec (buildNetworkPolicy samples.oneCIDR ["10.0.0.0/24"])
    ∧ metav1.Labels (networkingv1.ObjectMeta obj)
      = {[ ownerLabel := metav1.Name (v1alpha1.ObjectMeta samples.oneCIDR) ]}
    ∧ metav1.Name (networkingv1.ObjectMeta obj)
      = v1alpha1.NetworkPolicyName samples.oneCIDR
    ∧ metav1.Namespace (networkingv1.ObjectMeta obj)
      = metav1.Namespace (v1alpha1.ObjectMeta samples.oneCIDR).
Proof.
  apply (ensureNetworkPolicy_creates cases.fresh samples.oneCIDR ["10.0.0.0/24"]
           (ErrNotFound "sample-allow-bots")
           ("bot.networking.dev/v1alpha1", "BotNetworkPolicy") []);
    reflexivity.
Defined.

Lemma ensureNetworkPolicy_converges_witness :
  ensureNetworkPolicy (samples.reconciler samples.oneCIDR (Ok cases.created))
                      samples.oneCIDR ["10.0.0.0/24"] []
  = (None, []).
Proof.
  apply (ensureNetworkPolicy_converges cases.fresh samples.oneCIDR
           ["10.0.0.0/24"] cases.created (CreateCall cases.created)).
  - vm_compute. apply list_elem_of_here.
  - left. reflexivity.
  - reflexivity.
Defined.

Lemma Reconcile_schedule_witness :
  (is_Some (@None error) →
   {| Requeue := false; RequeueAfter := 3600000000000 |} = noRequeue)
  ∧ (∀ resource,
        GetBotNetworkPolicy
          (client (samples.reconciler samples.oneCIDR (Ok samples.ownedPolicy)))
          (ReqNamespace samples.request) (ReqName samples.request)
        = Ok resource →
        v1alpha1.ValidateResource resource = None →
        @None error = None →
        {| Requeue := false; RequeueAfter := 3600000000000 |}
        = {| Requeue := false; RequeueAfter := syncDelay resource |}).
Proof.
  apply (Reconcile_schedule
           (samples.reconciler samples.oneCIDR (Ok samples.ownedPolicy))
           samples.request [] _ _ []).
  vm_compute. reflexivity.
Defined.

Lemma collectCIDRs_order_independent_witness :
  (collectCIDRs
     (cases.mixed [samples.named "google"; samples.configMapDecl] ["b"; " a "])
     (withSources
        (samples.resource [samples.named "google"; samples.configMapDecl]
                          ["b"; " a "])
        [samples.configMapDecl; samples.named "google"] [" a "; "b"])).1.1
  = (collectCIDRs
       (cases.mixed [samples.named "google"; samples.configMapDecl] ["b"; " a "])
       (samples.resource [samples.named "google"; samples.configMapDecl]
                         ["b"; " a "])).1.1.
Proof. apply collectCIDRs_order_independent; apply perm_swap. Defined.

Lemma validated_resource_never_skips_witness :
  Forall (fetchWarning
            (factoryOf (cases.mixed [samples.named "google"; samples.configMapDecl] []))
            "default" [samples.named "google"; samples.configMapDecl])
         (collectCIDRs
            (cases.mixed [samples.named "google"; samples.configMapDecl] [])
            (samples.resource [samples.named "google"; samples.configMapDecl] [])).1.2.
Proof.
  apply (validated_resource_never_skips
           (cases.mixed [samples.named "google"; samples.configMapDecl] [])
           (samples.resource [samples.named "google"; samples.configMapDecl] [])).
  vm_compute. reflexivity.
Defined.

Lemma interpretCIDRs_array_witness :
  interpretCIDRs
    (JArray ([JString "10.0.0.0/24"] ++ JNumber 5 :: [JString "10.0.1.0/24"]))
    None
  = Err (ErrArrayValue (JNumber 5)).
Proof.
  apply (proj1 (proj2 (interpretCIDRs_array None))).
  - repeat constructor.
  - reflexivity.
Defined.

Lemma extractCIDRFromObject_first_usable_witness :
  extractCIDRFromObject cases.probed = TrimSpace " 10.0.0.0/24 ".
Proof.
  apply (proj2 (proj2 (extractCIDRFromObject_first_usable cases.probed))
           ["ip_prefix"; "ipv4Prefix"; "ipv6Prefix"] "cidr" ["ipPrefix"; "ip"]).
  - reflexivity.
  - repeat constructor; intros s Hs; vm_compute in Hs;
      [injection Hs as <-; reflexivity | discriminate | discriminate].
  - vm_compute. reflexivity.
  - vm_compute. discriminate.
Defined.

Lemma selectors_deliver_sanitized_witness :
  sanitized ["52.94.76.0/24"]
  ∧ sanitize ["52.94.76.0/24"] = Ok ["52.94.76.0/24"].
Proof.
  destruct (selectors_deliver_sanitized samples.awsDocument ["52.94.76.0/24"])
    as (_ & Haws & _ & Hpass & _).
  assert (sanitized ["52.94.76.0/24"]) as Hsan.
  { apply (Haws ["AMAZON"; "AMAZON_CONNECT"] ["GLOBAL"; "us-east-1"] []).
    vm_compute. reflexivity. }
  split; [exact Hsan|]. apply Hpass; [exact Hsan|discriminate].
Defined.

Lemma ExtractCIDRs_clean_tokens_witness :
  v1alpha1.ExtractCIDRs (Join ["10.0.0.0/24"; "192.168.0.0/16"] ",")
  = ["10.0.0.0/24"; "192.168.0.0/16"].
Proof.
  apply (proj2 ExtractCIDRs_clean_tokens ","%char).
  - reflexivity.
  - repeat constructor; discriminate || reflexivity.
Defined.

Lemma NetworkPolicyName_cases_witness :
  v1alpha1.NetworkPolicyName samples.oneCIDR
  = metav1.Name (v1alpha1.ObjectMeta samples.oneCIDR) +:+ "-allow-bots".
Proof.
  apply (proj2 (proj2 (NetworkPolicyName_cases samples.oneCIDR))).
  intros a Ha. vm_compute in Ha. discriminate.
Defined.

Lemma buildNetworkPolicy_rules_witness :
  networkingv1.PolicyTypeIngress
  ∈ networkingv1.PolicyTypes
      (networkingv1.Spec (buildNetworkPolicy samples.oneCIDR ["10.0.0.0/24"])).
Proof.
  destruct (buildNetworkPolicy_rules samples.oneCIDR ["10.0.0.0/24"])
    as (_ & _ & _ & _ & _ & Hflags).
  apply Hflags; [reflexivity|]. vm_compute. discriminate.
Defined.

Lemma googleSelectorWithScope_records_witness :
  googleSelectorWithScope cases.googleDocument []
  = Ok (googleRecords (fun item => admits ToLower [] (textField item "scope"))
          cases.googleItems).
Proof.
  apply (proj2 (googleSelectorWithScope_records cases.googleDocument [])).
  vm_compute. reflexivity.
Defined.

Lemma resolveHeaders_secret_values_witness :
  (∃ resolved kube data value,
      resolveHeaders cases.endpointResolved = Ok resolved
      ∧ jkubeClient cases.endpointResolved = Some kube
      ∧ GetSecret kube "default" "bot-endpoint-token" = Ok data
      ∧ data !! "token" = Some value
      ∧ value ∈ default [] (resolved !! "Authorization"))
  ∧ jsonEndpointFetch cases.endpointWithSecret = Err ErrKubeClientNotConfigured.
Proof.
  destruct (resolveHeaders_secret_values cases.endpointResolved) as [Hvalues _].
  destruct (resolveHeaders_secret_values cases.endpointWithSecret) as [_ Hnone].
  split.
  - destruct (resolveHeaders cases.endpointResolved) as [resolved|] eqn:Hres;
      [|vm_compute in Hres; discriminate].
    destruct (Hvalues resolved cases.authorization eq_refl)
      as (kube & data & value & ? & ? & ? & ?);
      [vm_compute; apply list_elem_of_here|].
    exists resolved, kube, data, value. repeat split; assumption.
  - apply Hnone; [reflexivity|discriminate].
Defined.

Lemma fetch_success_inversion_witness :
  ∃ resp payload raw,
    NewRequest (sclient samples.googleProvider) (surl samples.googleProvider) = None
    ∧ Do (sclient samples.googleProvider)
         {| ReqURL := surl samples.googleProvider; ReqHeader := ∅ |} = Ok resp
    ∧ (200 ≤ StatusCode resp < 300)%Z
    ∧ decodeObject (Body resp) = Ok payload
    ∧ sselector samples.googleProvider payload = Ok raw
    ∧ ["8.8.8.0/24"] = tokens raw.
Proof.
  apply (proj1 (fetch_success_inversion ["8.8.8.0/24"]) samples.googleProvider).
  vm_compute. reflexivity.
Defined.

Lemma endpoint_precedence_witness :
  ∃ p, FromSpec (NewFactory None (samples.serving JNull)
                   [WithGoogleEndpoint "https://mirror.example/goog.json";
                    WithAWSEndpoint "  "; WithGitHubEndpoint ""])
                "default" (samples.named "GOOGLE")
       = Ok (StaticHTTP p)
       ∧ surl p = resolvedURL None "https://mirror.example/goog.json"
                              defaultGoogleEndpoint.
Proof.
  apply (proj1 (endpoint_precedence None (samples.serving JNull)
                  "https://mirror.example/goog.json" "  " ""
                  "default" (samples.named "GOOGLE"))).
  reflexivity.
Defined.

Lemma networkPolicyPeersEqual_blocks_witness :
  networkPolicyPeersEqual
    [ {| networkingv1.PeerIPBlock :=
           Some {| networkingv1.CIDR := "10.0.0.0/24";
                   networkingv1.Except := ["10.0.0.1/32"] |} |} ]
    [ {| networkingv1.PeerIPBlock :=
           Some {| networkingv1.CIDR := "10.0.0.0/24";
                   networkingv1.Except := ["10.0.0.1/32"] |} |} ] = true.
Proof. apply networkPolicyPeersEqual_blocks. reflexivity. Defined.

Lemma collectCIDRs_members_witness :
  "192.168.0.0/16"
  ∈ (collectCIDRs
       (cases.mixed [samples.named "google"; samples.configMapDecl] ["b"; " a "])
       (samples.resource [samples.named "google"; samples.configMapDecl]
                         ["b"; " a "])).1.1.
Proof.
  apply (proj1 (collectCIDRs_members
                  (cases.mixed [samples.named "google"; samples.configMapDecl]
                               ["b"; " a "])
                  (samples.resource [samples.named "google"; samples.configMapDecl]
                                    ["b"; " a "]) "192.168.0.0/16")).
  left. exists samples.configMapDecl, ["10.0.0.0/24"; "192.168.0.0/16"].
  split; [apply list_elem_of_further, list_elem_of_here|].
  split; [vm_compute; reflexivity|].
  apply list_elem_of_further, list_elem_of_here.
Defined.

Lemma FromSpec_fails_iff_invalid_witness :
  FromSpec (samples.factory JNull) "default" (samples.named "carrier-pigeon")
  = Err (ErrUnsupportedProvider "carrier-pigeon").
Proof. apply FromSpec_fails_iff_invalid. vm_compute. reflexivity. Defined.

Lemma matchesFilter_all_conditions_witness :
  matchesFilter {["service" := JString " Amazon "]}
                (cases.filterOn "service" ["EC2"; "AMAZON"]) = true.
Proof.
  apply matchesFilter_all_conditions. repeat constructor.
  exists " Amazon ". split; [vm_compute; reflexivity|]. right.
  exists "AMAZON". split; [apply list_elem_of_further, list_elem_of_here|].
  vm_compute. reflexivity.
Defined.

Lemma ValidateResource_first_invalid_witness :
  v1alpha1.ValidateResource
    (samples.resource [samples.named "google"; samples.named "carrier-pigeon";
                       samples.named "pigeon-post"] [])
  = Some (ErrUnsupportedProvider "carrier-pigeon").
Proof.
  apply (proj2 (ValidateResource_first_invalid _)).
  exists [samples.named "google"], (samples.named "carrier-pigeon"),
         [samples.named "pigeon-post"].
  split; [reflexivity|]. split; [repeat constructor|vm_compute; reflexivity].
Defined.

End further_instances.
